(** * WeChat customer-service relay: the message-processing pipeline

    A shallow embedding of the asynchronous callback pipeline of the
    Cloudflare Worker ([src/index.js], [src/clients.js], [src/crypto.js]):
    the message tracker (deduplication ledger), the conversation manager
    (bounded per-user window), the inbox synchroniser, the reply dispatcher
    and the callback orchestrator, together with the properties the
    specification states about them.

    Conventions of the embedding.
    - A JavaScript string is a [string]: a sequence of code units, here the
      8-bit ones.  Literals that are not ASCII stand for themselves; no
      property below depends on their length.
    - [JSON.stringify]/[JSON.parse] on values the program wrote itself is the
      identity: the two KV namespaces hold typed records.
    - Asynchronous code is sequential ([await] on every call); a computation
      is a function from the state of the world to an outcome and a new
      world.  [console] output is not part of the world.
    - Everything outside the worker (KV, the WeChat gateway, the sync
      endpoint, the crypto service, the chat-completion endpoint, the
      bindings of the worker) is an [Env]: an arbitrary but fixed behaviour
      for one run. *)

From Stdlib Require Import ZArith Lia Ascii.
From stdpp Require Import gmap strings list.

#[local] Set Warnings "-abstract-large-number".

Local Open Scope Z_scope.
Local Open Scope nat_scope.

(** ** JavaScript strings *)

Module JsString.

(** The code units below 256 that [String.prototype.trim] removes: the
    white space and line terminator characters TAB, LF, VT, FF, CR, SP and
    NBSP. *)
Definition is_whitespace (c : ascii) : bool :=
  match c with
  | "009" | "010" | "011" | "012" | "013" | " " | "160" => true
  | _ => false
  end%char.

Fixpoint drop (n : nat) (s : string) : string :=
  match n, s with
  | 0, _ => s
  | S n', String _ s' => drop n' s'
  | S _, EmptyString => EmptyString
  end.

Fixpoint take (n : nat) (s : string) : string :=
  match n, s with
  | 0, _ => EmptyString
  | S n', String c s' => String c (take n' s')
  | S _, EmptyString => EmptyString
  end.

(** [str.slice(from, to)] for [0 <= from <= to]; [to] is clamped to the
    length of [str]. *)
Definition slice (str : string) (from to : nat) : string :=
  take (to - from) (drop from str).

Fixpoint trimStart (s : string) : string :=
  match s with
  | String c s' => if is_whitespace c then trimStart s' else s
  | EmptyString => EmptyString
  end.

Definition trimEnd (s : string) : string :=
  String.rev (trimStart (String.rev s)).

(** [str.trim()] *)
Definition trim (s : string) : string := trimEnd (trimStart s).

(** [parts.join('')] *)
Definition concat (parts : list string) : string :=
  foldr String.append EmptyString parts.

(** A string of [n] copies of [c] ([c.repeat(n)]). *)
Fixpoint repeat (c : ascii) (n : nat) : string :=
  match n with
  | 0 => EmptyString
  | S n' => String c (repeat c n')
  end.

End JsString.

(** ** [splitStringByLength] (src/index.js) *)

(** The [while (index < str.length)] loop.  Every iteration advances [index]
    by [len], so for [len >= 1] at most [str.length] iterations run and the
    fuel given by [splitStringByLength] is never exhausted (lemma
    [split_loop_fuel]).  For [len = 0] the source loop does not terminate;
    the program only calls it with [len = 1024]. *)
Fixpoint split_loop (fuel : nat) (str : string) (len index : nat) : list string :=
  match fuel with
  | 0 => []
  | S fuel' =>
      if index <? String.length str
      then JsString.slice str index (index + len)
             :: split_loop fuel' str len (index + len)
      else []
  end.

Definition splitStringByLength (str : string) (len : nat) : list string :=
  split_loop (String.length str) str len 0.


(** ** Data model *)

(** [role] of a conversation entry: the strings ['system'], ['user'] and
    ['assistant']. *)
Inductive Role := system | user | assistant.

Global Instance Role_eq_dec : EqDecision Role.
Proof. solve_decision. Defined.

(** An entry of a conversation window.  The system entry carries no
    [timestamp]; the entries the program appends carry [Date.now()]. *)
Record ConversationEntry := {
  role : Role;
  content : string;
  timestamp : option Z;
}.

(** What a [throw] carries.  The number is the position, among the external
    calls of the run, of the call that failed. *)
Inductive Error :=
| KvError (t : nat)           (* a KV operation threw *)
| GatewayError (t : nat)      (* a WeChat send or upload request failed *)
| SyncError (t : nat)         (* the sync_msg request failed *)
| AiError                     (* chatCompletion threw *)
| EmptyReply                  (* the reply of the model has no content *)
| AiConfigError               (* validateAIConfig threw *)
| KvNotConfigured             (* a KV binding of the worker is missing *)
| CryptParamsMissing          (* the constructor of WXBizMsgCrypt threw *)
| XmlError.                   (* the decrypted XML has no xml element *)

(** The [metadata] argument of [markMessageAsProcessed], as the two callers
    build it: [handleCallbackAsync] for a webhook call and
    [processUserMessage] for an inbox message. *)
Inductive Metadata :=
| CallbackMeta (timestamp nonce : string) (error : option Error) (success : bool)
| MessageMeta (externalUserid content : string)
              (assistantMessage : option string) (error : option Error)
              (success : bool).

Definition meta_success (m : Metadata) : bool :=
  match m with
  | CallbackMeta _ _ _ success => success
  | MessageMeta _ _ _ _ success => success
  end.

(** The record [markMessageAsProcessed] stores: [msgId], the time of
    processing and the spread metadata. *)
Record ProcessingRecord := {
  msgId : string;
  processedAt : Z;
  metadata : Metadata;
}.

(** A message of [msg_list] in the reply of [kf/sync_msg]. *)
Record InboxMessage := {
  msgtype : string;
  send_time : option Z;
  text_content : option string;       (* message.text?.content *)
  msgid : option string;
  external_userid : option string;
}.

(** An element of the result of [getLatestTextMessages].  [sendTime] is the
    instant (in ms) that the source renders with [toLocaleString]. *)
Record LatestMessage := {
  latest_content : string;
  latest_msgid : string;
  externalUserid : string;
  sendTime : option Z;
  originalMessage : InboxMessage;
}.

(** The reply of one [kf/sync_msg] request. *)
Record SyncPage := {
  msg_list : option (list InboxMessage);
  next_cursor : option string;
}.

Record File := { file_name : string; file_data : string }.

(** A request the WeChat gateway accepted. *)
Inductive Outbound :=
| TextMessage (touser open_kfid text : string)
| MediaUpload (mediaType : string) (file : File) (filename : string)
| FileMessage (touser open_kfid media_id : string).

(** A message of the [messages] argument of [chatCompletion]. *)
Record AiMessage := { ai_role : Role; ai_content : string }.

(** ** The key-value store *)

(** Modelled from the spec: the KV engine is outside the repository; it
    provides get, put with a TTL in seconds and delete, and a value is gone
    once its TTL has passed.  A namespace maps a key to a value and the
    instant (in ms) at which the value expires. *)
Section KV.
Context {V : Type}.

Definition kv_get (ns : gmap string (V * Z)) (key : string) (now : Z) : option V :=
  match ns !! key with
  | Some (v, expires) => if (now <? expires)%Z then Some v else None
  | None => None
  end.

Definition kv_put (ns : gmap string (V * Z)) (key : string) (v : V)
    (now expirationTtl : Z) : gmap string (V * Z) :=
  <[key := (v, (now + expirationTtl * 1000)%Z)]> ns.

Definition kv_delete (ns : gmap string (V * Z)) (key : string) : gmap string (V * Z) :=
  delete key ns.

End KV.

(** ** The world and the environment of a run *)

Record World := {
  ledger : gmap string (ProcessingRecord * Z);          (* MESSAGE_TRACKER *)
  conversations : gmap string (list ConversationEntry * Z);  (* CONVERSATIONS *)
  outbox : list Outbound;        (* accepted gateway requests, oldest first *)
  tick : nat;                    (* external calls issued so far *)
}.

Record Env := {
  now : Z;                                  (* Date.now(), in ms *)
  MESSAGE_TRACKER : bool;                   (* env.MESSAGE_TRACKER is bound *)
  CONVERSATIONS : bool;                     (* env.CONVERSATIONS is bound *)
  SYSTEM_PROMPT : option string;            (* env.SYSTEM_PROMPT *)
  kv_fails : nat -> bool;                   (* the KV call at this tick throws *)
  gateway_fails : nat -> bool;              (* the WeChat request at this tick fails *)
  upload_media_id : nat -> string;          (* media_id of an accepted upload *)
  sync_reply : nat -> string -> string -> option string -> option SyncPage;
      (* kf/sync_msg at this tick, for a token, an open_kfid and a cursor;
         None: the request fails *)
  ai_config_valid : bool;                   (* validateAIConfig(getAIConfig(env)) passes *)
  ai_reply : list AiMessage -> option (option string);
      (* chatCompletion: None: it throws; Some c: response.choices?.[0]?.message?.content *)
  crypt_params : bool;                      (* token, AES key and corp id are set *)
  xml_extract : string -> option string;    (* the Encrypt element of the post data *)
  svc_getSignature : string -> string -> string -> option string;
                                            (* crypto service; None: it fails *)
  svc_decrypt : string -> option string;    (* crypto service; None: it fails *)
  xml_parse : string -> option (string * string);
      (* parseXML: Token and OpenKfId of the xml element; None: no xml element *)
}.

Inductive Outcome (A : Type) :=
| Ok (a : A)            (* the promise resolves *)
| Throw (e : Error)     (* the promise rejects *)
| Pending.              (* still running when the fuel of the model ran out *)
Arguments Ok {A} a.
Arguments Throw {A} e.
Arguments Pending {A}.

(** A computation: state passing with exceptions. *)
Definition M (A : Type) : Type := World -> Outcome A * World.

Definition ret {A} (a : A) : M A := fun w => (Ok a, w).
Definition throw {A} (e : Error) : M A := fun w => (Throw e, w).
Definition pending {A} : M A := fun w => (Pending, w).

Definition bind {A B} (c : M A) (k : A -> M B) : M B :=
  fun w =>
    match c w with
    | (Ok a, w') => k a w'
    | (Throw e, w') => (Throw e, w')
    | (Pending, w') => (Pending, w')
    end.

(** [try { body } catch (error) { handler }]: what [body] did to the world
    before it threw stays done. *)
Definition try_catch {A} (body : M A) (handler : Error -> M A) : M A :=
  fun w =>
    match body w with
    | (Throw e, w') => handler e w'
    | r => r
    end.

Notation "'let!' x ':=' c 'in' k" := (bind c (fun x => k))
  (at level 10, x pattern, c at level 100, k at level 200).
Notation "c ';;' k" := (bind c (fun _ => k))
  (at level 100, k at level 200, right associativity).

Definition set_ledger (l : gmap string (ProcessingRecord * Z)) (w : World) : World :=
  {| ledger := l; conversations := conversations w; outbox := outbox w; tick := tick w |}.
Definition set_conversations (c : gmap string (list ConversationEntry * Z)) (w : World) : World :=
  {| ledger := ledger w; conversations := c; outbox := outbox w; tick := tick w |}.
Definition push_outbox (o : Outbound) (w : World) : World :=
  {| ledger := ledger w; conversations := conversations w;
     outbox := outbox w ++ [o]; tick := tick w |}.
Definition next_tick (w : World) : World :=
  {| ledger := ledger w; conversations := conversations w;
     outbox := outbox w; tick := S (tick w) |}.

(** JavaScript's [a || b] on values where the falsy ones are recognisable. *)
Definition or_default {A} (falsy : A -> bool) (a : option A) (b : A) : A :=
  match a with
  | Some x => if falsy x then b else x
  | None => b
  end.

Definition string_falsy (s : string) : bool := bool_decide (s = EmptyString).

(** ** The two KV bindings of the worker *)

(** A call on a binding fails when the store throws, and also when the
    binding is missing (a property of [undefined] is read). *)
Definition tracker_unreachable (E : Env) (t : nat) : bool :=
  negb (MESSAGE_TRACKER E) || kv_fails E t.

Definition conversations_unreachable (E : Env) (t : nat) : bool :=
  negb (CONVERSATIONS E) || kv_fails E t.

Section Bindings.

Variable E : Env.

Definition tracker_get (key : string) : M (option ProcessingRecord) :=
  fun w =>
    if tracker_unreachable E (tick w)
    then (Throw (KvError (tick w)), next_tick w)
    else (Ok (kv_get (ledger w) key (now E)), next_tick w).

Definition tracker_put (key : string) (data : ProcessingRecord)
    (expirationTtl : Z) : M unit :=
  fun w =>
    if tracker_unreachable E (tick w)
    then (Throw (KvError (tick w)), next_tick w)
    else (Ok tt,
          next_tick (set_ledger (kv_put (ledger w) key data (now E) expirationTtl) w)).

Definition tracker_delete (key : string) : M unit :=
  fun w =>
    if tracker_unreachable E (tick w)
    then (Throw (KvError (tick w)), next_tick w)
    else (Ok tt, next_tick (set_ledger (kv_delete (ledger w) key) w)).

Definition conversations_get (key : string) : M (option (list ConversationEntry)) :=
  fun w =>
    if conversations_unreachable E (tick w)
    then (Throw (KvError (tick w)), next_tick w)
    else (Ok (kv_get (conversations w) key (now E)), next_tick w).

Definition conversations_put (key : string) (history : list ConversationEntry)
    (expirationTtl : Z) : M unit :=
  fun w =>
    if conversations_unreachable E (tick w)
    then (Throw (KvError (tick w)), next_tick w)
    else (Ok tt,
          next_tick (set_conversations
                       (kv_put (conversations w) key history (now E) expirationTtl) w)).

Definition conversations_delete (key : string) : M unit :=
  fun w =>
    if conversations_unreachable E (tick w)
    then (Throw (KvError (tick w)), next_tick w)
    else (Ok tt, next_tick (set_conversations (kv_delete (conversations w) key) w)).

End Bindings.

(** ** [MessageTracker] (src/clients.js), built with its default options *)

Module MessageTracker.
Section WithEnv.

Variable E : Env.

Definition expirationTtl : Z := 86400.
Definition keyPrefix : string := "processed_msg".

Definition getMessageKey (msgId : string) : string :=
  keyPrefix +:+ ":" +:+ msgId.

Definition isMessageProcessed (msgId : string) : M bool :=
  try_catch
    (let key := getMessageKey msgId in
     let! result := tracker_get E key in
     ret (bool_decide (result <> None)))
    (fun error => ret false).

Definition markMessageAsProcessed (msgId : string) (metadata : Metadata) : M bool :=
  try_catch
    (let key := getMessageKey msgId in
     let data := {| msgId := msgId; processedAt := now E; metadata := metadata |} in
     tracker_put E key data expirationTtl ;;
     ret true)
    (fun error => throw error).

Definition getMessageProcessInfo (msgId : string) : M (option ProcessingRecord) :=
  try_catch
    (let key := getMessageKey msgId in
     let! result := tracker_get E key in
     ret result)
    (fun error => ret None).

(** [msgIds.map(async msgId => ...)] followed by [Promise.all]: the
    lookups are issued in the order of [msgIds]. *)
Fixpoint check_each (msgIds : list string) : M (list (string * bool)) :=
  match msgIds with
  | [] => ret []
  | msgId :: rest =>
      let! processed := isMessageProcessed msgId in
      let! checkResults := check_each rest in
      ret ((msgId, processed) :: checkResults)
  end.

Definition checkMultipleMessages (msgIds : list string) : M (gmap string bool) :=
  try_catch
    (let! checkResults := check_each msgIds in
     ret (foldl (fun results r => <[r.1 := r.2]> results) ∅ checkResults))
    (fun error =>
       ret (foldl (fun results msgId => <[msgId := false]> results) ∅ msgIds)).

Definition removeMessageRecord (msgId : string) : M unit :=
  try_catch
    (let key := getMessageKey msgId in
     tracker_delete E key)
    (fun error => throw error).

End WithEnv.
End MessageTracker.

(** ** [ConversationManager] (src/clients.js) *)

Module ConversationManager.

(** The [options] argument of the constructor. *)
Record Options := {
  opt_maxHistoryLength : option nat;
  opt_expirationTtl : option Z;
  opt_systemPrompt : option string;
}.

Record t := {
  maxHistoryLength : nat;
  expirationTtl : Z;
  systemPrompt : string;
}.

(** [constructor(kv, options = {})]: every option falls back to its
    default when it is missing or falsy. *)
Definition new (options : Options) : t :=
  {| maxHistoryLength := or_default (fun n => n =? 0) (opt_maxHistoryLength options) 10;
     expirationTtl := or_default (fun z => (z =? 0)%Z) (opt_expirationTtl options) 86400%Z;
     systemPrompt :=
       or_default string_falsy (opt_systemPrompt options) "you are helpful assistant" |}.

Definition getConversationKey (userId : string) : string :=
  "conversation:" +:+ userId.

(** [array.slice(-n)]: the last [n] elements; [slice(-0)] is [slice(0)],
    the whole array. *)
Definition slice_last {A} (n : nat) (l : list A) : list A :=
  if n =? 0 then l else drop (length l - n) l.

Section WithEnv.

Variable E : Env.
Variable this : t.

Definition system_entry : ConversationEntry :=
  {| role := system; content := systemPrompt this; timestamp := None |}.

Definition getConversationHistory (userId : string) : M (list ConversationEntry) :=
  try_catch
    (let key := getConversationKey userId in
     let! historyJson := conversations_get E key in
     let history :=
       match historyJson with
       | Some history =>
           match history with
           | first :: rest =>
               if bool_decide (role first = system) then rest else history
           | [] => history
           end
       | None => []
       end in
     ret (system_entry :: history))
    (fun error => ret [system_entry]).

Definition saveConversationHistory (userId : string)
    (history : list ConversationEntry) : M (list ConversationEntry) :=
  try_catch
    (let key := getConversationKey userId in
     let trimmedHistory :=
       if maxHistoryLength this + 1 <? length history
       then match history with
            | first :: _ => first :: slice_last (maxHistoryLength this) history
            | [] => []
            end
       else history in
     conversations_put E key trimmedHistory (expirationTtl this) ;;
     ret trimmedHistory)
    (fun error => throw error).

Definition addUserMessage (userId content : string) : M (list ConversationEntry) :=
  let! history := getConversationHistory userId in
  let history :=
    history ++ [{| role := user; content := content; timestamp := Some (now E) |}] in
  saveConversationHistory userId history.

Definition addAssistantMessage (userId content : string) : M (list ConversationEntry) :=
  let! history := getConversationHistory userId in
  let history :=
    history ++ [{| role := assistant; content := content; timestamp := Some (now E) |}] in
  saveConversationHistory userId history.

Definition clearConversationHistory (userId : string) : M unit :=
  try_catch
    (let key := getConversationKey userId in
     conversations_delete E key)
    (fun error => throw error).

(** Returns [{ history, aiMessages }]. *)
Definition processUserMessage (userId userMessage : string)
    : M (list ConversationEntry * list AiMessage) :=
  try_catch
    (let! updatedHistory := addUserMessage userId userMessage in
     let aiMessages :=
       (fun msg => {| ai_role := role msg; ai_content := content msg |})
         <$> updatedHistory in
     ret (updatedHistory, aiMessages))
    (fun error => throw error).

Definition completeAssistantReply (userId assistantMessage : string)
    : M (list ConversationEntry) :=
  try_catch
    (addAssistantMessage userId assistantMessage)
    (fun error => throw error).

End WithEnv.
End ConversationManager.

(** ** [WeChatClient] (src/clients.js) *)

(** A request to the WeChat API: the access token is fetched first when the
    client has none, and the request fails when either step does. *)
Module WeChatClient.

(** [(m.send_time || 0)] *)
Definition send_time_key (m : InboxMessage) : Z :=
  or_default (fun z => (z =? 0)%Z) (send_time m) 0%Z.

(** [allMessages.sort((a, b) => (b.send_time || 0) - (a.send_time || 0))].
    The sort of the language is stable, and for a comparator that is a
    total preorder the stable arrangement is unique: the one insertion
    from the right computes. *)
Fixpoint insert_desc (a : InboxMessage) (sorted : list InboxMessage)
    : list InboxMessage :=
  match sorted with
  | [] => [a]
  | b :: rest =>
      if (send_time_key a <? send_time_key b)%Z
      then b :: insert_desc a rest
      else a :: sorted
  end.

Definition sort_by_send_time (allMessages : list InboxMessage) : list InboxMessage :=
  foldr insert_desc [] allMessages.

(** [!cursor] *)
Definition cursor_falsy (cursor : option string) : bool :=
  match cursor with
  | Some c => string_falsy c
  | None => true
  end.

Section WithEnv.

Variable E : Env.

Definition sendTextMessage (touser openKfid content : string) : M unit :=
  fun w =>
    if gateway_fails E (tick w)
    then (Throw (GatewayError (tick w)), next_tick w)
    else (Ok tt, next_tick (push_outbox (TextMessage touser openKfid content) w)).

Definition sendFileMessage (touser openKfid mediaId : string) : M unit :=
  fun w =>
    if gateway_fails E (tick w)
    then (Throw (GatewayError (tick w)), next_tick w)
    else (Ok tt, next_tick (push_outbox (FileMessage touser openKfid mediaId) w)).

(** Returns the [media_id] of the result. *)
Definition uploadMedia (mediaType : string) (file : File) (filename : string)
    : M string :=
  fun w =>
    if gateway_fails E (tick w)
    then (Throw (GatewayError (tick w)), next_tick w)
    else (Ok (upload_media_id E (tick w)),
          next_tick (push_outbox (MediaUpload mediaType file filename) w)).

Definition syncMessages (msgToken kfId : string) (nextCursor : option string)
    : M SyncPage :=
  fun w =>
    match sync_reply E (tick w) msgToken kfId nextCursor with
    | Some result => (Ok result, next_tick w)
    | None => (Throw (SyncError (tick w)), next_tick w)
    end.

(** The [while (true)] loop of [syncAllMessages]: one iteration for each
    unit of fuel; [Pending] when the fuel is used up and the loop has not
    reached its [break]. *)
Fixpoint sync_loop (fuel : nat) (msgToken kfId : string)
    (allMessages : list InboxMessage) (cursor : option string)
    : M (list InboxMessage) :=
  match fuel with
  | 0 => pending
  | S fuel' =>
      let! messages := syncMessages msgToken kfId cursor in
      let msgList := default [] (msg_list messages) in
      let allMessages := allMessages ++ msgList in
      let cursor := next_cursor messages in
      if cursor_falsy cursor || (length msgList =? 0)
      then ret allMessages
      else sync_loop fuel' msgToken kfId allMessages cursor
  end.

Definition syncAllMessages (fuel : nat) (msgToken kfId : string)
    : M (list InboxMessage) :=
  sync_loop fuel msgToken kfId [] None.

(** The [for ... of] loop ends with an unconditional [break]: its body
    runs for the first element of the sorted array only. *)
Definition getLatestTextMessages (fuel : nat) (msgToken kfId : string)
    (messageTracker : bool) : M (list LatestMessage) :=
  try_catch
    (let! allMessages := syncAllMessages fuel msgToken kfId in
     let allMessages := sort_by_send_time allMessages in
     match allMessages with
     | [] => ret []
     | message :: _ =>
         if bool_decide (msgtype message = "text")
         then
           let sendTime := (fun t => (t * 1000)%Z) <$> send_time message in
           let content := default "" (text_content message) in
           let msgid := default "" (msgid message) in
           let externalUserid := default "" (external_userid message) in
           if negb (string_falsy content) && negb (string_falsy msgid)
           then
             let! isProcessed :=
               (if messageTracker
                then MessageTracker.isMessageProcessed E msgid
                else ret false) in
             if isProcessed
             then ret []
             else ret [{| latest_content := content;
                          latest_msgid := msgid;
                          externalUserid := externalUserid;
                          sendTime := sendTime;
                          originalMessage := message |}]
           else ret []
         else ret []
     end)
    (fun error => throw error).

End WithEnv.
End WeChatClient.

(** ** [WXBizMsgCrypt] (src/crypto.js) *)

Module WXBizMsgCrypt.

Record DecryptResult := {
  ret_code : Z;                      (* ret *)
  decryptedXml : option string;      (* None: null *)
}.

(** [decryptMsg]: every failure, the ones of the crypto service included,
    becomes a non-zero [ret]; nothing is thrown. *)
Definition decryptMsg (E : Env) (sPostData sMsgSignature sTimeStamp sNonce : string)
    : DecryptResult :=
  match xml_extract E sPostData with
  | None => {| ret_code := -40002; decryptedXml := Some "" |}
  | Some encrypt =>
      match svc_getSignature E sTimeStamp sNonce encrypt with
      | None => {| ret_code := -40007; decryptedXml := None |}
      | Some signature =>
          if bool_decide (signature <> sMsgSignature)
          then {| ret_code := -40001; decryptedXml := None |}
          else
            match svc_decrypt E encrypt with
            | None => {| ret_code := -40007; decryptedXml := None |}
            | Some message => {| ret_code := 0; decryptedXml := Some message |}
            end
      end
  end.

Record VerifyResult := {
  verify_ret : Z;                    (* ret *)
  decryptedEchostr : string;
}.

(** [verifyURL]: the echo string is decrypted first and the signature
    compared afterwards; every failure is reported as [-40001]. *)
Definition verifyURL (E : Env) (sMsgSignature sTimeStamp sNonce sEchoStr : string)
    : VerifyResult :=
  match svc_decrypt E sEchoStr with
  | None => {| verify_ret := -40001; decryptedEchostr := "" |}
  | Some message =>
      match svc_getSignature E sTimeStamp sNonce sEchoStr with
      | None => {| verify_ret := -40001; decryptedEchostr := "" |}
      | Some signature =>
          if bool_decide (signature <> sMsgSignature)
          then {| verify_ret := -40001; decryptedEchostr := "" |}
          else {| verify_ret := 0; decryptedEchostr := message |}
      end
  end.

End WXBizMsgCrypt.

(** ** The orchestrator (src/index.js) *)

(** The parameters of a webhook call that [handleCallback] reads from the
    query string. *)
Record Params := {
  msgSignature : string;
  param_timestamp : string;
  nonce : string;
}.

Definition messageChunkSize : nat := 1024.
Definition messageChunkCount : nat := 5.

(** The fixed text sent to the user when the reply could not be produced. *)
Definition errorMessage : string := "抱歉，AI服务暂时不可用，请稍后再试。".

Section Orchestrator.

Variable E : Env.

Definition wireNote (externalUserid msgKfId msgid question value : string) : M unit :=
  let filename := question +:+ "-完整回答-" +:+ msgid +:+ ".txt" in
  let file := {| file_name := filename; file_data := value |} in
  let! media_id := WeChatClient.uploadMedia E "file" file filename in
  WeChatClient.sendFileMessage E externalUserid msgKfId media_id.

(** The [for (let i = 0; i < messageChunks.length; i++)] loop of
    [processUserMessage], from index [i] on; [chunks] are the elements of
    [messageChunks] from [i], [total] is [messageChunks.length]. *)
Fixpoint send_chunks (externalUserid msgKfId msgid content assistantMessage : string)
    (total i : nat) (chunks : list string) : M unit :=
  match chunks with
  | [] => ret tt
  | chunk :: rest =>
      (if (i + 1 =? messageChunkCount) || (i =? total - 1)
       then wireNote externalUserid msgKfId msgid content assistantMessage
       else WeChatClient.sendTextMessage E externalUserid msgKfId chunk) ;;
      send_chunks externalUserid msgKfId msgid content assistantMessage total (S i) rest
  end.

(** The reply dispatch of [processUserMessage]: the statements between
    saving the reply and marking the message. *)
Definition dispatchReply (externalUserid msgKfId msgid content assistantMessage : string)
    : M unit :=
  if messageChunkSize <? String.length assistantMessage
  then
    let messageChunks :=
      splitStringByLength (JsString.trim assistantMessage) messageChunkSize in
    send_chunks externalUserid msgKfId msgid content assistantMessage
      (length messageChunks) 0 messageChunks
  else WeChatClient.sendTextMessage E externalUserid msgKfId assistantMessage.

Definition conversationManager : ConversationManager.t :=
  ConversationManager.new
    {| ConversationManager.opt_maxHistoryLength := Some 10;
       ConversationManager.opt_expirationTtl := Some 86400%Z;
       ConversationManager.opt_systemPrompt :=
         Some (or_default string_falsy (SYSTEM_PROMPT E) "you are helpful assistant") |}.

(** [aiClient.chatCompletion({ messages })] followed by
    [response.choices?.[0]?.message?.content]. *)
Definition chatCompletion (messages : list AiMessage) : M (option string) :=
  match ai_reply E messages with
  | Some assistantMessage => ret assistantMessage
  | None => throw AiError
  end.

Definition processUserMessage (externalUserid content msgid msgKfId : string) : M unit :=
  if negb (CONVERSATIONS E) || negb (MESSAGE_TRACKER E)
  then throw KvNotConfigured
  else
    let! isProcessed := MessageTracker.isMessageProcessed E msgid in
    if isProcessed
    then ret tt
    else
      try_catch
        (let! processed :=
           ConversationManager.processUserMessage E conversationManager
             externalUserid content in
         let aiMessages := processed.2 in
         (if ai_config_valid E then ret tt else throw AiConfigError) ;;
         let! assistantMessage := chatCompletion aiMessages in
         match assistantMessage with
         | None => throw EmptyReply
         | Some assistantMessage =>
             if string_falsy assistantMessage
             then throw EmptyReply
             else
               ConversationManager.completeAssistantReply E conversationManager
                 externalUserid assistantMessage ;;
               dispatchReply externalUserid msgKfId msgid content assistantMessage ;;
               MessageTracker.markMessageAsProcessed E msgid
                 (MessageMeta externalUserid content (Some assistantMessage) None true) ;;
               ret tt
         end)
        (fun error =>
           try_catch
             (WeChatClient.sendTextMessage E externalUserid msgKfId errorMessage)
             (fun sendError => ret tt) ;;
           MessageTracker.markMessageAsProcessed E msgid
             (MessageMeta externalUserid content None (Some error) false) ;;
           ret tt).

(** [fuel] bounds the page fetches of the sync loop the model follows. *)
Definition handleCallbackAsync (fuel : nat) (postData : string) (params : Params)
    : M unit :=
  try_catch
    ((if crypt_params E then ret tt else throw CryptParamsMissing) ;;
     let r :=
       WXBizMsgCrypt.decryptMsg E postData (msgSignature params)
         (param_timestamp params) (nonce params) in
     if negb (WXBizMsgCrypt.ret_code r =? 0)%Z
     then ret tt
     else
       match xml_parse E (default "" (WXBizMsgCrypt.decryptedXml r)) with
       | None => throw XmlError
       | Some (token, kfId) =>
           let! unprocessedMessages :=
             WeChatClient.getLatestTextMessages E fuel token kfId true in
           match unprocessedMessages with
           | latestMessage :: _ =>
               processUserMessage (externalUserid latestMessage)
                 (latest_content latestMessage) (latest_msgid latestMessage) kfId
           | [] => ret tt
           end ;;
           MessageTracker.markMessageAsProcessed E (msgSignature params)
             (CallbackMeta (param_timestamp params) (nonce params) None true) ;;
           ret tt
       end)
    (fun error =>
       MessageTracker.markMessageAsProcessed E (msgSignature params)
         (CallbackMeta (param_timestamp params) (nonce params) (Some error) false) ;;
       ret tt).

End Orchestrator.

(** ** Observations and sample runs *)

(** The world after [n] more external calls that changed nothing else. *)
Definition advance (n : nat) (w : World) : World :=
  {| ledger := ledger w; conversations := conversations w;
     outbox := outbox w; tick := tick w + n |}.

(** What [isMessageProcessed] answers in world [w]: whether the read goes
    through and finds a record that has not expired. *)
Definition reported_processed (E : Env) (w : World) (msgId : string) : bool :=
  negb (tracker_unreachable E (tick w))
  && bool_decide (kv_get (ledger w) (MessageTracker.getMessageKey msgId) (now E) <> None).

Definition empty_world : World :=
  {| ledger := ∅; conversations := ∅; outbox := []; tick := 0 |}.

(** An environment in which every collaborator answers: the inbox is empty
    and the model replies [reply]. *)
Definition quiet_env (reply : option (option string)) : Env :=
  {| now := 1000;
     MESSAGE_TRACKER := true;
     CONVERSATIONS := true;
     SYSTEM_PROMPT := None;
     kv_fails := fun _ => false;
     gateway_fails := fun _ => false;
     upload_media_id := fun _ => "media-1";
     sync_reply := fun _ _ _ _ => Some {| msg_list := Some []; next_cursor := None |};
     ai_config_valid := true;
     ai_reply := fun _ => reply;
     crypt_params := true;
     xml_extract := fun postData => Some postData;
     svc_getSignature := fun _ _ encrypt => Some "signature";
     svc_decrypt := fun encrypt => Some encrypt;
     xml_parse := fun _ => Some ("token", "kf-1") |}.

(** The same environment with every KV call failing. *)
Definition offline_env : Env :=
  {| now := 1000;
     MESSAGE_TRACKER := true;
     CONVERSATIONS := true;
     SYSTEM_PROMPT := None;
     kv_fails := fun _ => true;
     gateway_fails := fun _ => false;
     upload_media_id := fun _ => "media-1";
     sync_reply := fun _ _ _ _ => Some {| msg_list := Some []; next_cursor := None |};
     ai_config_valid := true;
     ai_reply := fun _ => Some (Some "hello");
     crypt_params := true;
     xml_extract := fun postData => Some postData;
     svc_getSignature := fun _ _ encrypt => Some "signature";
     svc_decrypt := fun encrypt => Some encrypt;
     xml_parse := fun _ => Some ("token", "kf-1") |}.

(** What a read of the stored window leaves after the stored leading system
    entry, if there is one, has been removed. *)
Definition stored_tail (stored : option (list ConversationEntry)) : list ConversationEntry :=
  match stored with
  | Some (first :: rest) => if bool_decide (role first = system) then rest else first :: rest
  | _ => []
  end.

(** *** The sync loop *)

(** [messages.msg_list || []] *)
Definition page_messages (p : SyncPage) : list InboxMessage :=
  default [] (msg_list p).

(** The test that ends the loop of [syncAllMessages]. *)
Definition last_page (p : SyncPage) : bool :=
  WeChatClient.cursor_falsy (next_cursor p) || (length (page_messages p) =? 0).

(** [served E tok kf t c pages]: asked from tick [t] on, starting with
    cursor [c] and following the cursors it returns, the remote answers with
    [pages], the last of which, and only the last, ends the loop. *)
Inductive served (E : Env) (tok kf : string)
    : nat -> option string -> list SyncPage -> Prop :=
| served_last t c p :
    sync_reply E t tok kf c = Some p ->
    last_page p = true ->
    served E tok kf t c [p]
| served_more t c p pages :
    sync_reply E t tok kf c = Some p ->
    last_page p = false ->
    served E tok kf (S t) (next_cursor p) pages ->
    served E tok kf t c (p :: pages).

Definition text_message (id text : string) (sent : Z) : InboxMessage :=
  {| msgtype := "text";
     send_time := Some sent;
     text_content := Some text;
     msgid := Some id;
     external_userid := Some "user-1" |}.

(** A remote that answers every request with one message and a cursor. *)
Definition chatty_env : Env :=
  {| now := 1000;
     MESSAGE_TRACKER := true;
     CONVERSATIONS := true;
     SYSTEM_PROMPT := None;
     kv_fails := fun _ => false;
     gateway_fails := fun _ => false;
     upload_media_id := fun _ => "media-1";
     sync_reply := fun _ _ _ _ =>
       Some {| msg_list := Some [text_message "m" "again" 5]; next_cursor := Some "more" |};
     ai_config_valid := true;
     ai_reply := fun _ => Some (Some "hello");
     crypt_params := true;
     xml_extract := fun postData => Some postData;
     svc_getSignature := fun _ _ encrypt => Some "signature";
     svc_decrypt := fun encrypt => Some encrypt;
     xml_parse := fun _ => Some ("token", "kf-1") |}.

(** A remote with an inbox of two pages: [batch1] with a cursor, then
    [batch2] without one. *)
Definition paged_env (batch1 batch2 : list InboxMessage) (reply : option (option string)) : Env :=
  {| now := 1000;
     MESSAGE_TRACKER := true;
     CONVERSATIONS := true;
     SYSTEM_PROMPT := None;
     kv_fails := fun _ => false;
     gateway_fails := fun _ => false;
     upload_media_id := fun _ => "media-1";
     sync_reply := fun _ _ _ cursor =>
       match cursor with
       | None => Some {| msg_list := Some batch1; next_cursor := Some "page-2" |}
       | Some _ => Some {| msg_list := Some batch2; next_cursor := None |}
       end;
     ai_config_valid := true;
     ai_reply := fun _ => reply;
     crypt_params := true;
     xml_extract := fun postData => Some postData;
     svc_getSignature := fun _ _ encrypt => Some "signature";
     svc_decrypt := fun encrypt => Some encrypt;
     xml_parse := fun _ => Some ("token", "kf-1") |}.

(** *** The newest message *)

(** The test [getLatestTextMessages] puts a message to before it asks the
    ledger: a text message with a content and an id. *)
Definition eligible (m : InboxMessage) : bool :=
  bool_decide (msgtype m = "text")
  && negb (string_falsy (default "" (text_content m)))
  && negb (string_falsy (default "" (msgid m))).

(** The element [getLatestTextMessages] builds for a message. *)
Definition latest_of (m : InboxMessage) : LatestMessage :=
  {| latest_content := default "" (text_content m);
     latest_msgid := default "" (msgid m);
     externalUserid := default "" (external_userid m);
     sendTime := (fun t => (t * 1000)%Z) <$> send_time m;
     originalMessage := m |}.

(** *** The requests of a dispatch *)

(** No request to the WeChat gateway fails. *)
Definition gateway_ok (E : Env) : Prop := forall t, gateway_fails E t = false.

(** The world after the gateway accepted [events], one request each. *)
Definition sent (events : list Outbound) (w : World) : World :=
  {| ledger := ledger w; conversations := conversations w;
     outbox := outbox w ++ events; tick := tick w + length events |}.

(** The two requests of [wireNote] when the first is issued at tick [t]. *)
Definition note_events (E : Env) (externalUserid msgKfId msgid question value : string)
    (t : nat) : list Outbound :=
  let filename := question +:+ "-完整回答-" +:+ msgid +:+ ".txt" in
  [MediaUpload "file" {| file_name := filename; file_data := value |} filename;
   FileMessage externalUserid msgKfId (upload_media_id E t)].

(** The requests of the chunk loop from index [i] on, the first issued at
    tick [t], when none of them fails. *)
Fixpoint chunk_events (E : Env) (externalUserid msgKfId msgid content assistantMessage : string)
    (total i : nat) (chunks : list string) (t : nat) : list Outbound :=
  match chunks with
  | [] => []
  | chunk :: rest =>
      if (i + 1 =? messageChunkCount) || (i =? total - 1)
      then note_events E externalUserid msgKfId msgid content assistantMessage t
           ++ chunk_events E externalUserid msgKfId msgid content assistantMessage
                total (S i) rest (t + 2)
      else TextMessage externalUserid msgKfId chunk
           :: chunk_events E externalUserid msgKfId msgid content assistantMessage
                total (S i) rest (t + 1)
  end.

(** *** Appending to the window of a user *)

Inductive Speaker := FromUser | FromAssistant.

(** One call of [addUserMessage] or [addAssistantMessage], with the
    environment it runs in. *)
Record Append := {
  append_env : Env;
  speaker : Speaker;
  said : string;
}.

Definition run_append (this : ConversationManager.t) (userId : string) (a : Append)
    : M (list ConversationEntry) :=
  match speaker a with
  | FromUser => ConversationManager.addUserMessage (append_env a) this userId (said a)
  | FromAssistant =>
      ConversationManager.addAssistantMessage (append_env a) this userId (said a)
  end.

(** The entry the call appends. *)
Definition appended_entry (a : Append) : ConversationEntry :=
  {| role := match speaker a with FromUser => user | FromAssistant => assistant end;
     content := said a;
     timestamp := Some (now (append_env a)) |}.

(** The world after the calls, made one after the other. *)
Fixpoint run_appends (this : ConversationManager.t) (userId : string)
    (appends : list Append) (w : World) : World :=
  match appends with
  | [] => w
  | a :: rest => run_appends this userId rest (run_append this userId a w).2
  end.

(** The conversation store answers every call made in [E]. *)
Definition conversations_ok (E : Env) : Prop :=
  forall t, conversations_unreachable E t = false.

(** Each instant of [times] comes before what was written at the previous
    one expires. *)
Fixpoint within_ttl (ttl : Z) (times : list Z) : Prop :=
  match times with
  | t1 :: rest =>
      match rest with
      | t2 :: _ => (t2 < t1 + ttl * 1000)%Z /\ within_ttl ttl rest
      | [] => True
      end
  | [] => True
  end.

(** [E] at another instant. *)
Definition at_time (t : Z) (E : Env) : Env :=
  {| now := t;
     MESSAGE_TRACKER := MESSAGE_TRACKER E;
     CONVERSATIONS := CONVERSATIONS E;
     SYSTEM_PROMPT := SYSTEM_PROMPT E;
     kv_fails := kv_fails E;
     gateway_fails := gateway_fails E;
     upload_media_id := upload_media_id E;
     sync_reply := sync_reply E;
     ai_config_valid := ai_config_valid E;
     ai_reply := ai_reply E;
     crypt_params := crypt_params E;
     xml_extract := xml_extract E;
     svc_getSignature := svc_getSignature E;
     svc_decrypt := svc_decrypt E;
     xml_parse := xml_parse E |}.

(** [E] with the KV call at tick [k], and only that one, failing. *)
Definition kv_failing_at (k : nat) (E : Env) : Env :=
  {| now := now E;
     MESSAGE_TRACKER := MESSAGE_TRACKER E;
     CONVERSATIONS := CONVERSATIONS E;
     SYSTEM_PROMPT := SYSTEM_PROMPT E;
     kv_fails := fun t => t =? k;
     gateway_fails := gateway_fails E;
     upload_media_id := upload_media_id E;
     sync_reply := sync_reply E;
     ai_config_valid := ai_config_valid E;
     ai_reply := ai_reply E;
     crypt_params := crypt_params E;
     xml_extract := xml_extract E;
     svc_getSignature := svc_getSignature E;
     svc_decrypt := svc_decrypt E;
     xml_parse := xml_parse E |}.

(** Eleven questions of a user, all asked in [E], the last one in [E']. *)
Definition eleven_questions (E E' : Env) : list Append :=
  ((fun text => {| append_env := E; speaker := FromUser; said := text |})
     <$> ["q1"; "q2"; "q3"; "q4"; "q5"; "q6"; "q7"; "q8"; "q9"; "q10"])
  ++ [{| append_env := E'; speaker := FromUser; said := "q11" |}].

(** The last [n] of the entries a list of calls appends. *)
Definition last_appended (n : nat) (appends : list Append) : list ConversationEntry :=
  drop (length appends - n) (appended_entry <$> appends).

(** *** Runs of the orchestrator *)

(** [w'] differs from [w] at most in the ledger record stored under [key]
    (and in the number of calls made). *)
Definition touches_only (key : string) (w w' : World) : Prop :=
  outbox w' = outbox w
  /\ conversations w' = conversations w
  /\ forall k, k <> key -> ledger w' !! k = ledger w !! k.

(** [E] with the sync endpoint down. *)
Definition sync_down (E : Env) : Env :=
  {| now := now E;
     MESSAGE_TRACKER := MESSAGE_TRACKER E;
     CONVERSATIONS := CONVERSATIONS E;
     SYSTEM_PROMPT := SYSTEM_PROMPT E;
     kv_fails := kv_fails E;
     gateway_fails := gateway_fails E;
     upload_media_id := upload_media_id E;
     sync_reply := fun _ _ _ _ => None;
     ai_config_valid := ai_config_valid E;
     ai_reply := ai_reply E;
     crypt_params := crypt_params E;
     xml_extract := xml_extract E;
     svc_getSignature := svc_getSignature E;
     svc_decrypt := svc_decrypt E;
     xml_parse := xml_parse E |}.

(** A webhook call whose signature is the one the crypto service computes
    in the sample environments, and one whose signature is not. *)
Definition genuine_call : Params :=
  {| msgSignature := "signature"; param_timestamp := "1700000000"; nonce := "n1" |}.

Definition forged_call : Params :=
  {| msgSignature := "forged"; param_timestamp := "1700000000"; nonce := "n1" |}.

(** The decryption of the envelope of a call, as [handleCallbackAsync] asks
    for it. *)
Definition decrypted (E : Env) (postData : string) (params : Params)
    : WXBizMsgCrypt.DecryptResult :=
  WXBizMsgCrypt.decryptMsg E postData (msgSignature params) (param_timestamp params)
    (nonce params).

(** The requests of [dispatchReply] for the reply [assistantMessage], the
    first issued at tick [t], when none of them fails. *)
Definition dispatch_events (E : Env)
    (externalUserid msgKfId msgid content assistantMessage : string) (t : nat)
    : list Outbound :=
  if messageChunkSize <? String.length assistantMessage
  then
    let messageChunks :=
      splitStringByLength (JsString.trim assistantMessage) messageChunkSize in
    chunk_events E externalUserid msgKfId msgid content assistantMessage
      (length messageChunks) 0 messageChunks t
  else [TextMessage externalUserid msgKfId assistantMessage].

(** Neither KV binding fails a call made in [E]. *)
Definition storage_ok (E : Env) : Prop :=
  forall t, tracker_unreachable E t = false /\ conversations_unreachable E t = false.

(** The window [processUserMessage] has after it added [question] to what
    world [w] holds for the user, the conversation store answering: the
    preamble, then the last [maxHistoryLength] of the stored entries followed
    by the question. *)
Definition asked_window (E : Env) (externalUserid question : string) (w : World)
    : list ConversationEntry :=
  let this := conversationManager E in
  let entries :=
    stored_tail
      (kv_get (conversations w)
         (ConversationManager.getConversationKey externalUserid) (now E))
    ++ [{| role := user; content := question; timestamp := Some (now E) |}] in
  ConversationManager.system_entry this
  :: drop (length entries - ConversationManager.maxHistoryLength this) entries.

(** The reply [processUserMessage] goes on with for a window: the content of
    the model's answer to the roles and contents of the window; none when
    the configuration of the model is rejected, the call throws, or the
    answer has no content or an empty one. *)
Definition usable_reply (E : Env) (window : list ConversationEntry)
    : option string :=
  if ai_config_valid E
  then
    match ai_reply E
            ((fun msg => {| ai_role := role msg; ai_content := content msg |})
               <$> window) with
    | Some (Some assistantMessage) =>
        if string_falsy assistantMessage then None else Some assistantMessage
    | _ => None
    end
  else None.

(** What a run that starts in world [w0] and finds the message unprocessed
    sends when none of its storage and gateway calls fails: the dispatch of
    the usable reply, its first request being the sixth call of the run
    (after the ledger read and the two reads and two writes of the window),
    or else the fixed apology. *)
Definition first_reply (E : Env) (externalUserid msgKfId msgid question : string)
    (w0 : World) : list Outbound :=
  match usable_reply E (asked_window E externalUserid question w0) with
  | Some assistantMessage =>
      dispatch_events E externalUserid msgKfId msgid question assistantMessage
        (tick w0 + 5)
  | None => [TextMessage externalUserid msgKfId errorMessage]
  end.

(** [E] with the WeChat gateway refusing every request. *)
Definition gateway_down (E : Env) : Env :=
  {| now := now E;
     MESSAGE_TRACKER := MESSAGE_TRACKER E;
     CONVERSATIONS := CONVERSATIONS E;
     SYSTEM_PROMPT := SYSTEM_PROMPT E;
     kv_fails := kv_fails E;
     gateway_fails := fun _ => true;
     upload_media_id := upload_media_id E;
     sync_reply := sync_reply E;
     ai_config_valid := ai_config_valid E;
     ai_reply := ai_reply E;
     crypt_params := crypt_params E;
     xml_extract := xml_extract E;
     svc_getSignature := svc_getSignature E;
     svc_decrypt := svc_decrypt E;
     xml_parse := xml_parse E |}.

(** ** Further observations *)

(** Newest first: no message is followed by one sent later. *)
Fixpoint descending (l : list InboxMessage) : Prop :=
  match l with
  | [] => True
  | a :: rest =>
      Forall (fun b => (WeChatClient.send_time_key b <= WeChatClient.send_time_key a)%Z) rest
      /\ descending rest
  end.

(** *** [getConversationStats] (src/clients.js) *)

Record ConversationStats := {
  totalMessages : nat;
  userMessages : nat;
  assistantMessages : nat;
  lastActivity : option Z;          (* None: null or undefined *)
}.

(** [history.length - 1] is taken on a window that always holds the
    preamble; [lastActivity] is the [timestamp] of the last entry. *)
Definition getConversationStats (E : Env) (this : ConversationManager.t)
    (userId : string) : M ConversationStats :=
  try_catch
    (let! history := ConversationManager.getConversationHistory E this userId in
     let userMessages := filter (fun msg => role msg = user) history in
     let assistantMessages := filter (fun msg => role msg = assistant) history in
     ret {| totalMessages := length history - 1;
            userMessages := length userMessages;
            assistantMessages := length assistantMessages;
            lastActivity :=
              if 1 <? length history
              then last history ≫= timestamp
              else None |})
    (fun error =>
       ret {| totalMessages := 0; userMessages := 0; assistantMessages := 0;
              lastActivity := None |}).

(** ** Responses (src/response.js) and the route handlers (src/index.js) *)

(** The [data] of a successful JSON response. *)
Inductive Data :=
| MessageStatus (msgId : string) (processed : bool)
                (processInfo : option ProcessingRecord).

(** What a response carries.  The headers and the [timestamp] and [details]
    fields of the JSON bodies are left out. *)
Inductive Payload :=
| PlainText (text : string)                          (* ApiResponse.text *)
| SuccessJson (data : Data) (message : string) (code : Z)
                                                     (* ApiResponse.success *)
| ErrorJson (message : string + Z) (code : Z)        (* ApiResponse.error *)
| ClearedJson (clearedMsgIds : list string)          (* { status: 'ok', ... } *)
| RawErrorJson (error : string + Error).             (* { status: 'error', error } *)

Record Response := {
  status : Z;
  payload : Payload;
}.

Module ErrorMessage.
Definition MISSING_PARAMETER : string := "缺少必要参数".
Definition KV_CONFIG_MISSING : string := "KV存储配置缺失".
End ErrorMessage.

Module ApiResponse.

Definition success (data : Data) (message : string) : Response :=
  {| status := 200; payload := SuccessJson data message 200 |}.

Definition error (message : string + Z) (code httpStatus : Z) : Response :=
  {| status := httpStatus; payload := ErrorJson message code |}.

Definition badRequest (message : string) : Response :=
  error (inl message) 400 400.

Definition text (text : string) (status : Z) : Response :=
  {| status := status; payload := PlainText text |}.

End ApiResponse.

(** [!url.searchParams.get(name)]: the parameter is absent or empty. *)
Definition param_missing (p : option string) : bool :=
  match p with
  | Some s => string_falsy s
  | None => true
  end.

Section Handlers.

Variable E : Env.

(** [handleVerifyCallback]: the constructor of [WXBizMsgCrypt] throws inside
    the [try] when a parameter of the worker is not set. *)
Definition handleVerifyCallback (msg_signature timestamp nonce echostr : option string)
    : Response :=
  if param_missing msg_signature || param_missing timestamp
     || param_missing nonce || param_missing echostr
  then ApiResponse.text "缺少必要参数" 400
  else
    if crypt_params E
    then
      let res :=
        WXBizMsgCrypt.verifyURL E (default "" msg_signature) (default "" timestamp)
          (default "" nonce) (default "" echostr) in
      if negb (WXBizMsgCrypt.verify_ret res =? 0)%Z
      then ApiResponse.error (inr (WXBizMsgCrypt.verify_ret res))
             (WXBizMsgCrypt.verify_ret res) 400
      else ApiResponse.text (WXBizMsgCrypt.decryptedEchostr res) 200
    else ApiResponse.error (inl "处理失败: 参数不能为空") 400 400.

(** [handleCallback]: the response, and the task handed to [ctx.waitUntil]
    when there is one.  The response is returned without waiting for the
    task. *)
Definition handleCallback (fuel : nat) (msg_signature timestamp nonce : option string)
    (postData : string) : Response * option (M unit) :=
  let params :=
    {| msgSignature := default "" msg_signature;
       param_timestamp := default "" timestamp;
       nonce := default "" nonce |} in
  if param_missing msg_signature || param_missing timestamp || param_missing nonce
  then (ApiResponse.text "缺少必要参数" 400, None)
  else
    if string_falsy postData
    then (ApiResponse.text "请求体为空" 400, None)
    else (ApiResponse.text "success" 200,
          Some (handleCallbackAsync E fuel postData params)).

(** [handleMessageStatus]; [getMessageProcessInfo] is called on a tracker
    built from the binding. *)
Definition handleMessageStatus (msg_id : option string) : World -> Response * World :=
  fun w =>
    if param_missing msg_id
    then (ApiResponse.badRequest ErrorMessage.MISSING_PARAMETER, w)
    else
      if negb (MESSAGE_TRACKER E)
      then (ApiResponse.badRequest ErrorMessage.KV_CONFIG_MISSING, w)
      else
        let msgId := default "" msg_id in
        match MessageTracker.getMessageProcessInfo E msgId w with
        | (Ok (Some processInfo), w') =>
            (ApiResponse.success (MessageStatus msgId true (Some processInfo))
               "消息处理状态获取成功", w')
        | (Ok None, w') =>
            (ApiResponse.success (MessageStatus msgId false None) "消息未处理", w')
        | (Throw error, w') =>
            ({| status := 500; payload := RawErrorJson (inr error) |}, w')
        | (Pending, w') =>
            ({| status := 500; payload := RawErrorJson (inl "") |}, w')
        end.

(** [msgIds.map(msgId => messageTracker.removeMessageRecord(msgId))]: every
    delete is issued, in the order of [msgIds], whatever becomes of the
    others. *)
Fixpoint remove_each (msgIds : list string) (w : World)
    : list (Outcome unit) * World :=
  match msgIds with
  | [] => ([], w)
  | msgId :: rest =>
      let (o, w1) := MessageTracker.removeMessageRecord E msgId w in
      let (os, w2) := remove_each rest w1 in
      (o :: os, w2)
  end.

(** The error [Promise.all] rejects with, if one of the promises rejected. *)
Fixpoint first_rejection (os : list (Outcome unit)) : option Error :=
  match os with
  | [] => None
  | Throw e :: _ => Some e
  | _ :: rest => first_rejection rest
  end.

(** [handleClearMessageRecords]; [msg_ids] is [body.msg_ids] of the parsed
    body, [None] when it is missing or not an array. *)
Definition handleClearMessageRecords (msg_ids : option (list string))
    : World -> Response * World :=
  fun w =>
    match msg_ids with
    | None =>
        ({| status := 400;
            payload := RawErrorJson (inl "msg_ids array is required") |}, w)
    | Some msgIds =>
        if negb (MESSAGE_TRACKER E)
        then ({| status := 500; payload := RawErrorJson (inr KvNotConfigured) |}, w)
        else
          let (os, w') := remove_each msgIds w in
          match first_rejection os with
          | Some error => ({| status := 500; payload := RawErrorJson (inr error) |}, w')
          | None => ({| status := 200; payload := ClearedJson msgIds |}, w')
          end
    end.

End Handlers.

(** ** The access token of [WeChatClient] (src/clients.js) *)

Module AccessToken.

(** The two fields of the client [getAccessToken] reads and writes. *)
Record Client := {
  accessToken : option string;      (* None: null or undefined *)
  tokenExpiresAt : Z;
}.

(** The constructor. *)
Definition new : Client := {| accessToken := None; tokenExpiresAt := 0 |}.

(** One call: [Date.now()] at the test of the cache, the answer of
    [gettoken] ([None]: the request fails or the response is not ok;
    otherwise [errcode] and [access_token]) and [Date.now()] once the answer
    is in. *)
Record TokenCall := {
  called_at : Z;
  answer : option (option Z * option string);
  answered_at : Z;
}.

(** The result ([None]: the call throws), the client afterwards and the
    number of requests made.  [param_missing] is the test [!this.accessToken]:
    no token, or an empty one. *)
Definition getAccessToken (call : TokenCall) (this : Client)
    : option (option string) * Client * nat :=
  if negb (param_missing (accessToken this))
     && (called_at call <? tokenExpiresAt this)%Z
  then (Some (accessToken this), this, 0)
  else
    match answer call with
    | Some (Some 0%Z, access_token) =>
        (Some access_token,
         {| accessToken := access_token;
            tokenExpiresAt := (answered_at call + 7200 * 1000)%Z |},
         1)
    | _ => (None, this, 1)
    end.

End AccessToken.

(** ** [XMLParse] (src/crypto.js) *)

Module XMLParse.

(** The line feed of the template of [generate]. *)
Definition LF : string := String (ascii_of_nat 10) EmptyString.

(** The characters [.] does not match.  Strings are sequences of bytes
    here; on ASCII text they are the code units of the source. *)
Definition is_line_terminator (c : ascii) : bool :=
  (nat_of_ascii c =? 10) || (nat_of_ascii c =? 13).

(** [s] without its prefix [p], when it starts with [p]. *)
Fixpoint prefix_drop (p s : string) : option string :=
  match p with
  | EmptyString => Some s
  | String a p' =>
      match s with
      | String b s' => if Ascii.eqb a b then prefix_drop p' s' else None
      | EmptyString => None
      end
  end.

(** The end of the pattern, [(?:\]\]>)?<\/Encrypt>], matches at the start of
    [s]: with the optional part first, without it next. *)
Definition closes (s : string) : bool :=
  match prefix_drop "]]>" s with
  | Some r =>
      if bool_decide (prefix_drop "</Encrypt>" r <> None)
      then true
      else bool_decide (prefix_drop "</Encrypt>" s <> None)
  | None => bool_decide (prefix_drop "</Encrypt>" s <> None)
  end.

(** The lazy group [(.*?)] followed by the end of the pattern: the shortest
    run of characters other than line terminators after which the end
    matches. *)
Fixpoint lazy_group (s : string) : option string :=
  if closes s
  then Some EmptyString
  else
    match s with
    | String c r =>
        if is_line_terminator c then None else String c <$> lazy_group r
    | EmptyString => None
    end.

(** The pattern matches at the start of [s]: the optional
    [(?:<!\[CDATA\[)?] is tried first, and left out when the rest does not
    match after it.  The result is the group. *)
Definition match_here (s : string) : option string :=
  match prefix_drop "<Encrypt>" s with
  | Some r =>
      match prefix_drop "<![CDATA[" r with
      | Some r' =>
          match lazy_group r' with
          | Some g => Some g
          | None => lazy_group r
          end
      | None => lazy_group r
      end
  | None => None
  end.

(** [xmltext.match(regex)]: the first position the pattern matches at. *)
Fixpoint search (s : string) : option string :=
  match match_here s with
  | Some g => Some g
  | None =>
      match s with
      | String _ r => search r
      | EmptyString => None
      end
  end.

Record ExtractResult := {
  extract_ret : Z;                   (* ret *)
  encrypt : option string;           (* None: null *)
}.

Definition extract (xmltext : string) : ExtractResult :=
  match search xmltext with
  | Some g => {| extract_ret := 0; encrypt := Some g |}
  | None => {| extract_ret := -40002; encrypt := None |}
  end.

Definition generate (encrypt signature timestamp nonce : string) : string :=
  "<xml>" +:+ LF
  +:+ "<Encrypt><![CDATA[" +:+ encrypt +:+ "]]></Encrypt>" +:+ LF
  +:+ "<MsgSignature><![CDATA[" +:+ signature +:+ "]]></MsgSignature>" +:+ LF
  +:+ "<TimeStamp>" +:+ timestamp +:+ "</TimeStamp>" +:+ LF
  +:+ "<Nonce><![CDATA[" +:+ nonce +:+ "]]></Nonce>" +:+ LF
  +:+ "</xml>".

End XMLParse.

(** A character of a payload the envelope carries as it is: an ASCII
    character other than [<], [\]] and the line terminators (the base64
    alphabet is made of such). *)
Definition payload_char (c : ascii) : bool :=
  (nat_of_ascii c <? 128)
  && negb (Ascii.eqb c "<") && negb (Ascii.eqb c "]")
  && negb (XMLParse.is_line_terminator c).

Fixpoint payload_text (s : string) : bool :=
  match s with
  | EmptyString => true
  | String c r => payload_char c && payload_text r
  end.

(** * Properties

    ** Strings and splitting *)

Section StringFacts.

Import JsString.

Lemma string_length_drop n s : String.length (drop n s) = String.length s - n.
Proof.
  revert s; induction n as [|n IH]; intros [|c s]; simpl; auto with lia.
Qed.

Lemma string_length_take n s : String.length (take n s) = Nat.min n (String.length s).
Proof.
  revert s; induction n as [|n IH]; intros [|c s]; simpl; auto with lia.
Qed.

Lemma string_take_drop n s : take n s +:+ drop n s = s.
Proof.
  revert s; induction n as [|n IH]; intros [|c s]; simpl; auto.
  change (String c (take n s +:+ drop n s) = String c s). by rewrite IH.
Qed.

Lemma string_drop_drop n m s : drop m (drop n s) = drop (n + m) s.
Proof.
  revert s; induction n as [|n IH]; intros [|c s]; simpl; auto.
  by destruct m.
Qed.

Lemma string_drop_all n s : String.length s <= n -> drop n s = EmptyString.
Proof.
  revert s; induction n as [|n IH]; intros [|c s]; simpl; auto with lia.
Qed.

Lemma string_take_all n s : String.length s <= n -> take n s = s.
Proof.
  revert s; induction n as [|n IH]; intros [|c s]; simpl; auto with lia.
  intros H. f_equal. apply IH. lia.
Qed.

Lemma string_length_rev_app s1 s2 :
  String.length (String.rev_app s1 s2) = String.length s1 + String.length s2.
Proof.
  revert s2; induction s1 as [|c s1 IH]; intros s2; simpl; auto.
  rewrite IH. simpl. lia.
Qed.

Lemma string_length_rev s : String.length (String.rev s) = String.length s.
Proof. unfold String.rev. rewrite string_length_rev_app. simpl. lia. Qed.

Lemma length_trimStart s : String.length (trimStart s) <= String.length s.
Proof.
  induction s as [|c s IH]; simpl; auto.
  destruct (is_whitespace c); simpl; lia.
Qed.

Lemma length_trim s : String.length (trim s) <= String.length s.
Proof.
  unfold trim, trimEnd. rewrite string_length_rev.
  etrans; [apply length_trimStart|]. rewrite string_length_rev.
  apply length_trimStart.
Qed.

Lemma slice_length str from to :
  String.length (slice str from to) <= to - from.
Proof. unfold slice. rewrite string_length_take. lia. Qed.

(** The chunks, put back together, are the part of the string the loop
    started from. *)
Lemma split_loop_concat str len :
  0 < len ->
  forall fuel index,
    String.length str <= index + fuel ->
    concat (split_loop fuel str len index) = drop index str.
Proof.
  intros Hlen. induction fuel as [|fuel IH]; intros index Hfuel; simpl.
  - symmetry. apply string_drop_all. lia.
  - destruct (Nat.ltb_spec index (String.length str)) as [Hlt|Hge].
    + simpl. rewrite IH by lia. unfold slice.
      replace (index + len - index) with len by lia.
      rewrite <- string_drop_drop. apply string_take_drop.
    + symmetry. by apply string_drop_all.
Qed.

(** More fuel than the string is long changes nothing: the fuel of
    [splitStringByLength] is enough. *)
Lemma split_loop_fuel str len :
  0 < len ->
  forall fuel fuel' index,
    String.length str <= index + fuel ->
    String.length str <= index + fuel' ->
    split_loop fuel str len index = split_loop fuel' str len index.
Proof.
  intros Hlen. induction fuel as [|fuel IH]; intros [|fuel'] index H1 H2; simpl;
    auto.
  - destruct (Nat.ltb_spec index (String.length str)); [lia|done].
  - destruct (Nat.ltb_spec index (String.length str)); [lia|done].
  - destruct (Nat.ltb_spec index (String.length str)); [|done].
    f_equal. apply IH; lia.
Qed.

Lemma split_loop_count str len :
  0 < len ->
  forall fuel index k,
    String.length str <= index + k * len ->
    length (split_loop fuel str len index) <= k.
Proof.
  intros Hlen. induction fuel as [|fuel IH]; intros index k Hk; simpl.
  - lia.
  - destruct (Nat.ltb_spec index (String.length str)) as [Hlt|Hge];
      simpl; [|lia].
    destruct k as [|k]; [simpl in Hk; lia|].
    apply le_n_S, IH. simpl in Hk. lia.
Qed.

Lemma split_loop_chunk_length str len fuel index :
  Forall (fun chunk => String.length chunk <= len)
         (split_loop fuel str len index).
Proof.
  revert index; induction fuel as [|fuel IH]; intros index; simpl.
  - constructor.
  - destruct (index <? String.length str); constructor; auto.
    etrans; [apply slice_length|]. lia.
Qed.

Lemma splitStringByLength_concat str len :
  0 < len -> concat (splitStringByLength str len) = str.
Proof.
  intros Hlen. unfold splitStringByLength.
  rewrite split_loop_concat by (auto; lia). done.
Qed.

Lemma splitStringByLength_count str len k :
  0 < len -> String.length str <= k * len ->
  length (splitStringByLength str len) <= k.
Proof. intros. apply split_loop_count; auto. Qed.

Lemma splitStringByLength_nonempty str len :
  0 < String.length str -> splitStringByLength str len <> [].
Proof.
  unfold splitStringByLength. intros Hpos.
  destruct (String.length str) as [|n] eqn:Hn; [lia|].
  simpl. rewrite Hn. simpl. discriminate.
Qed.

Lemma length_repeat c n : String.length (repeat c n) = n.
Proof. induction n; simpl; auto. Qed.

End StringFacts.

Section KvFacts.
Context {V : Type}.

Lemma kv_get_put (ns : gmap string (V * Z)) key v now ttl now' :
  (now' < now + ttl * 1000)%Z ->
  kv_get (kv_put ns key v now ttl) key now' = Some v.
Proof.
  intros Hlive. unfold kv_get, kv_put. rewrite lookup_insert_eq.
  destruct (Z.ltb_spec now' (now + ttl * 1000)); [done|lia].
Qed.

Lemma kv_get_put_ne (ns : gmap string (V * Z)) key key' v now ttl now' :
  key <> key' ->
  kv_get (kv_put ns key v now ttl) key' now' = kv_get ns key' now'.
Proof. intros Hne. unfold kv_get, kv_put. by rewrite lookup_insert_ne. Qed.

End KvFacts.

(** ** Running the primitives *)

Section RunFacts.

Variable E : Env.

Lemma next_tick_advance w : next_tick w = advance 1 w.
Proof. unfold next_tick, advance. f_equal. lia. Qed.

Lemma advance_advance n m w : advance n (advance m w) = advance (m + n) w.
Proof. unfold advance. simpl. f_equal. lia. Qed.

Lemma advance_0 w : advance 0 w = w.
Proof. destruct w. unfold advance. simpl. f_equal. lia. Qed.

Lemma bind_ok {A B} (c : M A) (k : A -> M B) w a w' :
  c w = (Ok a, w') -> bind c k w = k a w'.
Proof. unfold bind. by intros ->. Qed.

Lemma bind_throw {A B} (c : M A) (k : A -> M B) w e w' :
  c w = (Throw e, w') -> bind c k w = (Throw e, w').
Proof. unfold bind. by intros ->. Qed.

Lemma bind_pending {A B} (c : M A) (k : A -> M B) w w' :
  c w = (Pending, w') -> bind c k w = (Pending, w').
Proof. unfold bind. by intros ->. Qed.

Lemma try_catch_ok {A} (c : M A) h w a w' :
  c w = (Ok a, w') -> try_catch c h w = (Ok a, w').
Proof. unfold try_catch. by intros ->. Qed.

Lemma try_catch_throw {A} (c : M A) h w e w' :
  c w = (Throw e, w') -> try_catch c h w = h e w'.
Proof. unfold try_catch. by intros ->. Qed.

Lemma try_catch_pending {A} (c : M A) h w w' :
  c w = (Pending, w') -> try_catch c h w = (Pending, w').
Proof. unfold try_catch. by intros ->. Qed.

(** [isMessageProcessed] never throws and only reads. *)
Lemma isMessageProcessed_run msgId w :
  MessageTracker.isMessageProcessed E msgId w
  = (Ok (reported_processed E w msgId), next_tick w).
Proof.
  unfold MessageTracker.isMessageProcessed, try_catch, bind, tracker_get,
    reported_processed, ret.
  destruct (tracker_unreachable E (tick w)); simpl; [done|].
  repeat f_equal.
Qed.

Lemma markMessageAsProcessed_run msgId metadata w :
  MessageTracker.markMessageAsProcessed E msgId metadata w
  = if tracker_unreachable E (tick w)
    then (Throw (KvError (tick w)), next_tick w)
    else (Ok true,
          next_tick
            (set_ledger
               (kv_put (ledger w) (MessageTracker.getMessageKey msgId)
                  {| msgId := msgId; processedAt := now E; metadata := metadata |}
                  (now E) MessageTracker.expirationTtl) w)).
Proof.
  unfold MessageTracker.markMessageAsProcessed, try_catch, bind, tracker_put,
    ret, throw.
  by destruct (tracker_unreachable E (tick w)).
Qed.

Lemma check_each_run msgIds : forall w,
  MessageTracker.check_each E msgIds w
  = (Ok (imap (fun i msgId => (msgId, reported_processed E (advance i w) msgId)) msgIds),
     advance (length msgIds) w).
Proof.
  induction msgIds as [|msgId rest IH]; intros w; simpl.
  - unfold ret. by rewrite advance_0.
  - unfold bind at 1. rewrite isMessageProcessed_run.
    unfold bind at 1. rewrite IH. unfold ret.
    rewrite advance_0, next_tick_advance, advance_advance. f_equal. f_equal.
    f_equal. apply imap_ext. intros i x _. simpl.
    rewrite advance_advance. done.
Qed.

End RunFacts.

(** A map filled by assigning the pairs of a list in order holds, for a key
    all of whose pairs carry [v], the value [v]. *)
Lemma foldl_insert_all {V} (pairs : list (string * V)) (k : string) (v : V) :
  k ∈ pairs.*1 ->
  (forall r, r ∈ pairs -> r.1 = k -> r.2 = v) ->
  foldl (fun results r => <[r.1 := r.2]> results) (∅ : gmap string V) pairs !! k = Some v.
Proof.
  induction pairs as [|r pairs IH] using rev_ind; intros Hin Hall.
  - by apply elem_of_nil in Hin.
  - rewrite foldl_app. simpl.
    destruct (decide (r.1 = k)) as [Heq|Hne].
    + rewrite Heq, lookup_insert_eq. f_equal. apply Hall; [|done].
      apply elem_of_app. right. by apply list_elem_of_singleton.
    + rewrite lookup_insert_ne by done. apply IH.
      * rewrite fmap_app in Hin. apply elem_of_app in Hin as [Hin|Hin]; [done|].
        simpl in Hin. apply list_elem_of_singleton in Hin. congruence.
      * intros r' Hr'. apply Hall. apply elem_of_app. by left.
Qed.

Lemma imap_keys {A B} (g : nat -> A -> B) (l : list A) :
  (imap (fun i x => (x, g i x)) l).*1 = l.
Proof.
  revert g; induction l as [|x l IH]; intros g; simpl; [done|].
  f_equal. apply (IH (g ∘ S)).
Qed.

(** ** The ledger: reads fail open, writes fail loud *)

(** C6.  When the KV read behind it fails, [isMessageProcessed] answers
    [false] instead of throwing; [checkMultipleMessages] always returns a
    result, in which every id whose reads all failed is mapped to [false];
    and when the KV write behind it fails, [markMessageAsProcessed] throws
    the error to its caller (and has written nothing). *)
Theorem ledger_reads_fail_open_writes_fail_loud
    (E : Env) (msgId : string) (metadata : Metadata) (msgIds : list string)
    (w : World) :
  (tracker_unreachable E (tick w) = true ->
   MessageTracker.isMessageProcessed E msgId w = (Ok false, next_tick w))
  /\ (exists results,
        MessageTracker.checkMultipleMessages E msgIds w
        = (Ok results, advance (length msgIds) w)
        /\ forall id,
             id ∈ msgIds ->
             (forall i, msgIds !! i = Some id ->
                        tracker_unreachable E (tick w + i) = true) ->
             results !! id = Some false)
  /\ (tracker_unreachable E (tick w) = true ->
      MessageTracker.markMessageAsProcessed E msgId metadata w
      = (Throw (KvError (tick w)), next_tick w)).
Proof.
  split; [|split].
  - intros Hfail. rewrite isMessageProcessed_run.
    unfold reported_processed. by rewrite Hfail.
  - eexists. split.
    + unfold MessageTracker.checkMultipleMessages.
      erewrite try_catch_ok; [reflexivity|].
      erewrite bind_ok by apply check_each_run. reflexivity.
    + intros id Hin Hfail. apply foldl_insert_all.
      * by rewrite imap_keys.
      * intros r Hr Hkey. apply elem_of_lookup_imap in Hr as (i & x & -> & Hx).
        simpl in *. subst x. unfold reported_processed. simpl.
        by rewrite (Hfail i Hx).
  - intros Hfail. rewrite markMessageAsProcessed_run. by rewrite Hfail.
Qed.

Lemma ledger_reads_fail_open_writes_fail_loud_witness :
  tracker_unreachable offline_env (tick empty_world) = true
  /\ MessageTracker.isMessageProcessed offline_env "m1" empty_world
     = (Ok false, next_tick empty_world)
  /\ MessageTracker.markMessageAsProcessed offline_env "m1"
       (MessageMeta "u1" "hi" None None true) empty_world
     = (Throw (KvError 0), next_tick empty_world).
Proof.
  pose proof (ledger_reads_fail_open_writes_fail_loud offline_env "m1"
                (MessageMeta "u1" "hi" None None true) ["m1"; "m2"] empty_world)
    as (Hread & _ & Hwrite).
  split; [reflexivity|]. split; [apply Hread|apply Hwrite]; reflexivity.
Defined.

(** ** The conversation window *)

Lemma getConversationHistory_run E this userId w :
  ConversationManager.getConversationHistory E this userId w
  = (Ok (ConversationManager.system_entry this
           :: (if conversations_unreachable E (tick w) then []
               else stored_tail
                      (kv_get (conversations w)
                         (ConversationManager.getConversationKey userId) (now E)))),
     next_tick w).
Proof.
  unfold ConversationManager.getConversationHistory, try_catch, bind,
    conversations_get, ret.
  destruct (conversations_unreachable E (tick w)); simpl; [done|].
  unfold stored_tail.
  destruct (kv_get _ _ _) as [[|first rest]|]; done.
Qed.

(** C7.  Whatever is stored for the user (nothing, a window, a window that
    starts with an old system entry) and whether or not the read succeeds,
    [getConversationHistory] returns normally; the first entry of the window
    it returns is a system entry whose content is the preamble the manager is
    configured with; an old leading system entry of the stored window is not
    part of the result; and when the read fails the window is that one entry
    alone.  The call changes neither store. *)
Theorem getConversationHistory_preamble
    (E : Env) (this : ConversationManager.t) (userId : string) (w : World) :
  exists first rest w',
    ConversationManager.getConversationHistory E this userId w = (Ok (first :: rest), w')
    /\ role first = system
    /\ content first = ConversationManager.systemPrompt this
    /\ rest = (if conversations_unreachable E (tick w) then []
               else stored_tail
                      (kv_get (conversations w)
                         (ConversationManager.getConversationKey userId) (now E)))
    /\ conversations w' = conversations w
    /\ ledger w' = ledger w
    /\ outbox w' = outbox w.
Proof.
  rewrite getConversationHistory_run.
  eexists _, _, _. split; [reflexivity|]. by repeat split.
Qed.

(** ** The sync loop *)

Section SyncLoop.

Variable E : Env.
Variables tok kf : string.

Lemma syncMessages_run cursor w :
  WeChatClient.syncMessages E tok kf cursor w
  = match sync_reply E (tick w) tok kf cursor with
    | Some page => (Ok page, next_tick w)
    | None => (Throw (SyncError (tick w)), next_tick w)
    end.
Proof. reflexivity. Qed.

(** One iteration of the loop. *)
Lemma sync_loop_step fuel allMessages cursor w page :
  sync_reply E (tick w) tok kf cursor = Some page ->
  WeChatClient.sync_loop E (S fuel) tok kf allMessages cursor w
  = if last_page page
    then (Ok (allMessages ++ page_messages page), next_tick w)
    else WeChatClient.sync_loop E fuel tok kf (allMessages ++ page_messages page)
           (next_cursor page) (next_tick w).
Proof.
  intros Hpage. simpl. unfold bind at 1. rewrite syncMessages_run, Hpage.
  unfold last_page, page_messages. by destruct (_ || _).
Qed.

Lemma sync_loop_served pages : forall t cursor,
  served E tok kf t cursor pages ->
  forall fuel allMessages w,
    tick w = t ->
    WeChatClient.sync_loop E fuel tok kf allMessages cursor w
    = if length pages <=? fuel
      then (Ok (allMessages ++ concat (page_messages <$> pages)),
            advance (length pages) w)
      else (Pending, advance fuel w).
Proof.
  intros t cursor Hserved.
  induction Hserved as [t c p Hp Hlast|t c p pages Hp Hlast Hrest IH];
    intros fuel allMessages w Ht; subst t.
  - destruct fuel as [|fuel]; simpl length.
    + simpl. unfold pending. by rewrite advance_0.
    + rewrite (sync_loop_step _ _ _ _ _ Hp), Hlast. simpl.
      by rewrite app_nil_r, next_tick_advance.
  - destruct fuel as [|fuel]; simpl length.
    + simpl. unfold pending. by rewrite advance_0.
    + rewrite (sync_loop_step _ _ _ _ _ Hp), Hlast.
      rewrite IH by done. rewrite next_tick_advance, !advance_advance.
      change (S (length pages) <=? S fuel) with (length pages <=? fuel).
      simpl. by rewrite <- app_assoc.
Qed.

End SyncLoop.

Lemma chatty_sync_loop_pending fuel : forall allMessages cursor w,
  WeChatClient.sync_loop chatty_env fuel "token" "kf-1" allMessages cursor w
  = (Pending, advance fuel w).
Proof.
  induction fuel as [|fuel IH]; intros allMessages cursor w.
  - simpl. unfold pending. by rewrite advance_0.
  - erewrite sync_loop_step by reflexivity. simpl.
    rewrite IH, next_tick_advance, advance_advance. done.
Qed.

(** C10, as stated, fails: against a remote that answers every request with
    a non-empty page and a cursor, no number of iterations brings the loop of
    [syncAllMessages] to its end. *)
Lemma sync_loop_has_no_cap :
  ~ exists fuel,
      (WeChatClient.syncAllMessages chatty_env fuel "token" "kf-1" empty_world).1
      <> Pending.
Proof.
  intros [fuel Hstops]. apply Hstops.
  unfold WeChatClient.syncAllMessages. by rewrite chatty_sync_loop_pending.
Qed.

(** C10, amended.  The loop fetches one page per iteration and ends at the
    first page that has no cursor or no message, returning the messages of
    all pages fetched, in order, after exactly as many fetches as pages were
    served; nothing else ends it: short of that page it is still running. *)
Theorem sync_loop_ends_at_last_page
    (E : Env) (tok kf : string) (w : World) (pages : list SyncPage) (fuel : nat) :
  served E tok kf (tick w) None pages ->
  WeChatClient.syncAllMessages E fuel tok kf w
  = if length pages <=? fuel
    then (Ok (concat (page_messages <$> pages)), advance (length pages) w)
    else (Pending, advance fuel w).
Proof.
  intros Hserved. unfold WeChatClient.syncAllMessages.
  by rewrite (sync_loop_served E tok kf pages _ _ Hserved).
Qed.

Lemma sync_loop_ends_at_last_page_witness :
  let E := paged_env [text_message "m1" "one" 1] [text_message "m2" "two" 2] None in
  WeChatClient.syncAllMessages E 5 "token" "kf-1" empty_world
  = (Ok [text_message "m1" "one" 1; text_message "m2" "two" 2], advance 2 empty_world)
  /\ WeChatClient.syncAllMessages E 1 "token" "kf-1" empty_world
     = (Pending, advance 1 empty_world).
Proof.
  intros E.
  assert (Hserved : served E "token" "kf-1" (tick empty_world) None
            [ {| msg_list := Some [text_message "m1" "one" 1]; next_cursor := Some "page-2" |};
              {| msg_list := Some [text_message "m2" "two" 2]; next_cursor := None |} ]).
  { apply served_more; [reflexivity|reflexivity|].
    apply served_last; reflexivity. }
  split.
  - apply (sync_loop_ends_at_last_page E "token" "kf-1" empty_world _ 5 Hserved).
  - apply (sync_loop_ends_at_last_page E "token" "kf-1" empty_world _ 1 Hserved).
Defined.

(** ** The newest message of a synced batch *)

Section Sorting.

Import WeChatClient.

Lemma length_insert_desc a sorted :
  length (insert_desc a sorted) = S (length sorted).
Proof.
  induction sorted as [|b rest IH]; simpl; [done|].
  destruct (_ <? _)%Z; simpl; by rewrite ?IH.
Qed.

Lemma length_sort_by_send_time l : length (sort_by_send_time l) = length l.
Proof.
  induction l as [|a l IH]; simpl; [done|].
  by rewrite length_insert_desc, IH.
Qed.

Lemma insert_desc_perm a sorted : insert_desc a sorted ≡ₚ a :: sorted.
Proof.
  induction sorted as [|b rest IH]; simpl; [done|].
  destruct (_ <? _)%Z; [|done].
  rewrite IH. apply Permutation_swap.
Qed.

Lemma sort_by_send_time_perm l : sort_by_send_time l ≡ₚ l.
Proof.
  induction l as [|a l IH]; simpl; [done|].
  by rewrite insert_desc_perm, IH.
Qed.

(** The head of the sorted batch is the first message of the batch that
    carries the greatest send time. *)
Lemma sort_by_send_time_head l : forall newest rest,
  sort_by_send_time l = newest :: rest ->
  exists before after,
    l = before ++ newest :: after
    /\ Forall (fun m => (send_time_key m < send_time_key newest)%Z) before
    /\ Forall (fun m => (send_time_key m <= send_time_key newest)%Z) after.
Proof.
  induction l as [|a l IH]; intros newest rest Hsort; simpl in Hsort; [done|].
  destruct (sort_by_send_time l) as [|b sorted] eqn:Hl.
  - assert (l = []) as ->.
    { apply length_zero_iff_nil. by rewrite <- length_sort_by_send_time, Hl. }
    simpl in Hsort. injection Hsort as <- <-.
    exists [], []. by repeat split.
  - destruct (IH b sorted eq_refl) as (before & after & -> & Hbefore & Hafter).
    simpl in Hsort.
    destruct (Z.ltb_spec (send_time_key a) (send_time_key b)) as [Hlt|Hge].
    + injection Hsort as <- <-.
      exists (a :: before), after. repeat split; [|done]. by constructor.
    + injection Hsort as <- <-.
      exists [], (before ++ b :: after). repeat split; [constructor|].
      apply Forall_app. split.
      * eapply Forall_impl; [exact Hbefore|]. simpl. lia.
      * constructor; [lia|].
        eapply Forall_impl; [exact Hafter|]. simpl. lia.
Qed.

Lemma sort_by_send_time_newest l newest rest :
  sort_by_send_time l = newest :: rest ->
  newest ∈ l /\ forall m, m ∈ l -> (send_time_key m <= send_time_key newest)%Z.
Proof.
  intros (before & after & -> & Hbefore & Hafter)%sort_by_send_time_head.
  split.
  - apply elem_of_app. right. apply elem_of_cons. by left.
  - intros m [Hm|Hm]%elem_of_app.
    + rewrite Forall_forall in Hbefore. specialize (Hbefore m Hm). lia.
    + apply elem_of_cons in Hm as [->|Hm]; [lia|].
      rewrite Forall_forall in Hafter. by apply Hafter.
Qed.

Lemma sort_two_messages l older newer :
  l ≡ₚ [older; newer] ->
  (send_time_key older < send_time_key newer)%Z ->
  exists rest, sort_by_send_time l = newer :: rest.
Proof.
  intros Hperm Hlt.
  destruct (sort_by_send_time l) as [|newest rest] eqn:Hsort.
  - apply (f_equal length) in Hsort. rewrite length_sort_by_send_time in Hsort.
    apply Permutation_length in Hperm. simpl in *. lia.
  - destruct (sort_by_send_time_newest _ _ _ Hsort) as [Hin Hmax].
    exists rest. f_equal.
    rewrite Hperm in Hin. apply elem_of_cons in Hin as [->|Hin].
    + specialize (Hmax newer). rewrite Hperm in Hmax.
      assert (send_time_key newer <= send_time_key older)%Z; [|lia].
      apply Hmax. apply elem_of_cons. right. apply elem_of_cons. by left.
    + by apply list_elem_of_singleton in Hin.
Qed.

End Sorting.

Lemma getLatestTextMessages_run E fuel tok kf w batch w1 :
  WeChatClient.syncAllMessages E fuel tok kf w = (Ok batch, w1) ->
  WeChatClient.getLatestTextMessages E fuel tok kf true w
  = match WeChatClient.sort_by_send_time batch with
    | [] => (Ok [], w1)
    | newest :: _ =>
        if eligible newest
        then (Ok (if reported_processed E w1 (latest_msgid (latest_of newest))
                  then [] else [latest_of newest]),
              next_tick w1)
        else (Ok [], w1)
    end.
Proof.
  intros Hsync. unfold WeChatClient.getLatestTextMessages.
  unfold try_catch, bind at 1. rewrite Hsync.
  destruct (WeChatClient.sort_by_send_time batch) as [|newest rest]; [done|].
  unfold eligible. destruct (bool_decide (msgtype newest = "text")); simpl; [|done].
  destruct (negb (string_falsy (default "" (text_content newest)))
            && negb (string_falsy (default "" (msgid newest)))); simpl; [|done].
  unfold bind. rewrite isMessageProcessed_run.
  by destruct (reported_processed E w1 (default "" (msgid newest))).
Qed.

(** C9.  For a batch the sync returned, [getLatestTextMessages] looks at one
    message only, the newest of the batch (the first of those with the
    greatest send time), and asks the ledger at most once.  Its result has at
    most one element; it has one exactly when that newest message is a text
    message with a content and an id which the ledger reports unprocessed,
    and the element is built from that message.  In particular, of two
    unprocessed text messages sent at [t1 < t2] that make up a batch, the one
    sent at [t2] is the result and the one sent at [t1] is not in it. *)
Theorem getLatestTextMessages_newest_only
    (E : Env) (fuel : nat) (tok kf : string) (w w1 : World)
    (batch : list InboxMessage) :
  WeChatClient.syncAllMessages E fuel tok kf w = (Ok batch, w1) ->
  exists result w',
    WeChatClient.getLatestTextMessages E fuel tok kf true w = (Ok result, w')
    /\ (w' = w1 \/ w' = next_tick w1)
    /\ length result <= 1
    /\ (forall r, r ∈ result ->
          exists rest,
            WeChatClient.sort_by_send_time batch = originalMessage r :: rest
            /\ originalMessage r ∈ batch
            /\ (forall m, m ∈ batch ->
                  (WeChatClient.send_time_key m
                   <= WeChatClient.send_time_key (originalMessage r))%Z)
            /\ r = latest_of (originalMessage r)
            /\ eligible (originalMessage r) = true
            /\ reported_processed E w1 (latest_msgid r) = false)
    /\ (forall newest rest,
          WeChatClient.sort_by_send_time batch = newest :: rest ->
          eligible newest = true ->
          reported_processed E w1 (latest_msgid (latest_of newest)) = false ->
          result = [latest_of newest])
    /\ (forall older newer,
          batch ≡ₚ [older; newer] ->
          (WeChatClient.send_time_key older < WeChatClient.send_time_key newer)%Z ->
          eligible newer = true ->
          reported_processed E w1 (latest_msgid (latest_of newer)) = false ->
          result = [latest_of newer] /\ latest_of older ∉ result).
Proof.
  intros Hsync. rewrite (getLatestTextMessages_run _ _ _ _ _ _ _ Hsync).
  destruct (WeChatClient.sort_by_send_time batch) as [|newest rest] eqn:Hsort.
  { exists [], w1. split; [done|]. split; [by left|]. split; [simpl; lia|].
    split; [by intros r ?%elem_of_nil|]. split; [done|].
    intros older newer Hperm Hlt _ _.
    destruct (sort_two_messages _ _ _ Hperm Hlt) as [? ?]. congruence. }
  destruct (sort_by_send_time_newest _ _ _ Hsort) as [Hin Hmax].
  assert (Htwo : forall older newer,
             batch ≡ₚ [older; newer] ->
             (WeChatClient.send_time_key older < WeChatClient.send_time_key newer)%Z ->
             newest = newer).
  { intros older newer Hperm Hlt.
    destruct (sort_two_messages _ _ _ Hperm Hlt) as [? ?]. congruence. }
  destruct (eligible newest) eqn:Helig.
  - destruct (reported_processed E w1 (latest_msgid (latest_of newest))) eqn:Hrep.
    + exists [], (next_tick w1). split; [done|]. split; [by right|].
      split; [simpl; lia|]. split; [by intros r ?%elem_of_nil|].
      split; [intros ? ? [= <- <-]; congruence|].
      intros older newer Hperm Hlt _ Hnew.
      rewrite <- (Htwo _ _ Hperm Hlt) in Hnew. congruence.
    + exists [latest_of newest], (next_tick w1). split; [done|].
      split; [by right|]. split; [simpl; lia|]. split.
      { intros r ->%list_elem_of_singleton. exists rest. simpl. by repeat split. }
      split; [by intros ? ? [= <- <-]|].
      intros older newer Hperm Hlt _ _.
      rewrite (Htwo _ _ Hperm Hlt). split; [done|].
      intros Hold%list_elem_of_singleton.
      apply (f_equal originalMessage) in Hold. simpl in Hold. subst older. lia.
  - exists [], w1. split; [done|]. split; [by left|]. split; [simpl; lia|].
    split; [by intros r ?%elem_of_nil|].
    split; [intros ? ? [= <- <-]; congruence|].
    intros older newer Hperm Hlt Hnew _.
    rewrite <- (Htwo _ _ Hperm Hlt) in Hnew. congruence.
Qed.

Lemma getLatestTextMessages_newest_only_witness :
  let m1 := text_message "m1" "first question" 1 in
  let m2 := text_message "m2" "second question" 2 in
  let E := paged_env [m1] [m2] None in
  WeChatClient.syncAllMessages E 5 "token" "kf-1" empty_world
  = (Ok [m1; m2], advance 2 empty_world)
  /\ exists w',
       WeChatClient.getLatestTextMessages E 5 "token" "kf-1" true empty_world
       = (Ok [latest_of m2], w').
Proof.
  intros m1 m2 E.
  assert (Hsync : WeChatClient.syncAllMessages E 5 "token" "kf-1" empty_world
                  = (Ok [m1; m2], advance 2 empty_world)) by reflexivity.
  split; [exact Hsync|].
  destruct (getLatestTextMessages_newest_only E 5 "token" "kf-1" empty_world _ _ Hsync)
    as (result & w' & Hrun & _ & _ & _ & _ & Htwo).
  exists w'. rewrite Hrun. f_equal. f_equal.
  apply (Htwo m1 m2); [reflexivity|reflexivity|reflexivity|reflexivity].
Defined.

(** ** The reply dispatch *)

Section Dispatch.

Variable E : Env.
Variables externalUserid msgKfId msgid question : string.

Lemma sent_nil w : sent [] w = w.
Proof. destruct w. unfold sent. simpl. f_equal; [apply app_nil_r|lia]. Qed.

Lemma sent_sent events1 events2 w :
  sent events2 (sent events1 w) = sent (events1 ++ events2) w.
Proof.
  unfold sent. simpl. f_equal; [by rewrite app_assoc|].
  rewrite length_app. lia.
Qed.

Lemma sendTextMessage_ok text w :
  gateway_fails E (tick w) = false ->
  WeChatClient.sendTextMessage E externalUserid msgKfId text w
  = (Ok tt, sent [TextMessage externalUserid msgKfId text] w).
Proof.
  intros Hok. unfold WeChatClient.sendTextMessage. rewrite Hok.
  unfold sent, next_tick, push_outbox. simpl. do 2 f_equal. lia.
Qed.

Lemma sendTextMessage_fail text w :
  gateway_fails E (tick w) = true ->
  WeChatClient.sendTextMessage E externalUserid msgKfId text w
  = (Throw (GatewayError (tick w)), next_tick w).
Proof. intros Hfail. unfold WeChatClient.sendTextMessage. by rewrite Hfail. Qed.

Lemma wireNote_ok value w :
  gateway_ok E ->
  wireNote E externalUserid msgKfId msgid question value w
  = (Ok tt, sent (note_events E externalUserid msgKfId msgid question value (tick w)) w).
Proof.
  intros Hok. unfold wireNote, bind, WeChatClient.uploadMedia,
    WeChatClient.sendFileMessage.
  rewrite Hok. simpl. rewrite Hok.
  unfold sent, next_tick, push_outbox, note_events. simpl.
  do 2 f_equal; [by rewrite <- app_assoc|lia].
Qed.

Lemma send_chunks_ok value total chunks : forall i w,
  gateway_ok E ->
  send_chunks E externalUserid msgKfId msgid question value total i chunks w
  = (Ok tt,
     sent (chunk_events E externalUserid msgKfId msgid question value total i chunks
             (tick w)) w).
Proof.
  induction chunks as [|chunk rest IH]; intros i w Hok; simpl.
  - unfold ret. by rewrite sent_nil.
  - destruct ((i + 1 =? messageChunkCount) || (i =? total - 1)).
    + erewrite bind_ok by (by apply wireNote_ok).
      rewrite IH by done. rewrite sent_sent. simpl. done.
    + erewrite bind_ok by (apply sendTextMessage_ok, Hok).
      rewrite IH by done. rewrite sent_sent. simpl.
      by replace (tick w + 1) with (tick w + 1 + 0) by lia.
Qed.

(** Below the chunk count only the last chunk is replaced by the file. *)
Lemma chunk_events_few value total chunks : forall i t,
  i + length chunks = total ->
  total < messageChunkCount ->
  chunk_events E externalUserid msgKfId msgid question value total i chunks t
  = (TextMessage externalUserid msgKfId <$> removelast chunks)
    ++ match chunks with
       | [] => []
       | _ => note_events E externalUserid msgKfId msgid question value
                (t + length chunks - 1)
       end.
Proof.
  unfold messageChunkCount.
  induction chunks as [|chunk rest IH]; intros i t Htotal Hfew; [done|].
  simpl in Htotal. cbn [chunk_events].
  replace (i + 1 =? messageChunkCount) with false
    by (symmetry; apply Nat.eqb_neq; unfold messageChunkCount; lia).
  destruct rest as [|chunk' rest].
  - replace (i =? total - 1) with true by (symmetry; apply Nat.eqb_eq; simpl in *; lia).
    simpl. by replace (t + 1 - 1) with t by lia.
  - replace (i =? total - 1) with false
      by (symmetry; apply Nat.eqb_neq; simpl in *; lia).
    simpl orb. cbv iota. rewrite IH by (simpl in *; lia).
    change (removelast (chunk :: chunk' :: rest))
      with (chunk :: removelast (chunk' :: rest)).
    rewrite fmap_cons. simpl app. do 3 f_equal. simpl. lia.
Qed.

End Dispatch.

Lemma many_chunks_long_reply s :
  messageChunkCount <= length (splitStringByLength (JsString.trim s) messageChunkSize) ->
  messageChunkSize < String.length s.
Proof.
  intros Hmany.
  destruct (Nat.lt_ge_cases messageChunkSize (String.length s)) as [|Hshort]; [done|].
  pose proof (length_trim s) as Htrim.
  pose proof (splitStringByLength_count (JsString.trim s) messageChunkSize 1) as Hcount.
  unfold messageChunkCount, messageChunkSize in *.
  assert (length (splitStringByLength (JsString.trim s) 1024) <= 1); [|lia].
  apply Hcount; lia.
Qed.

(** C3, as stated, fails: for a reply of five chunks that starts with a
    blank, the file carries the reply as the model gave it, not the trimmed
    one. *)
Lemma overflow_file_carries_untrimmed_reply :
  let s := String " " (JsString.repeat "a" 5000) in
  let chunks := splitStringByLength (JsString.trim s) messageChunkSize in
  length chunks = 5
  /\ length (splitStringByLength s messageChunkSize) = 5
  /\ outbox (dispatchReply (quiet_env None) "user-1" "kf-1" "m1" "q" s empty_world).2
     = (TextMessage "user-1" "kf-1" <$> take 4 chunks)
       ++ [MediaUpload "file" {| file_name := "q-完整回答-m1.txt"; file_data := s |}
             "q-完整回答-m1.txt";
           FileMessage "user-1" "kf-1" "media-1"]
  /\ s <> JsString.trim s.
Proof.
  intros s chunks. split; [by vm_compute|]. split; [by vm_compute|].
  split; [by vm_compute|].
  intros Heq. apply (f_equal String.length) in Heq. vm_compute in Heq. discriminate.
Qed.

(** What the missing [break] of the chunk loop does to a reply of six
    chunks: after the four text chunks the file is uploaded and sent twice. *)
Example six_chunks_send_the_file_twice :
  let s := JsString.repeat "a" 6000 in
  let note := note_events (quiet_env None) "user-1" "kf-1" "m1" "q" s 0 in
  outbox (dispatchReply (quiet_env None) "user-1" "kf-1" "m1" "q" s empty_world).2
  = (TextMessage "user-1" "kf-1"
       <$> take 4 (splitStringByLength (JsString.trim s) messageChunkSize))
    ++ note ++ note.
Proof. by vm_compute. Qed.

(** C3, amended.  When no request fails and the trimmed reply splits into
    five chunks or more, the dispatch first sends the first four chunks as
    text, in order, and then uploads and sends one file that carries the
    reply as the model gave it (untrimmed); when the chunks are exactly five,
    nothing else is sent. *)
Theorem overflow_to_file
    (E : Env) (externalUserid msgKfId msgid question s : string) (w : World) :
  gateway_ok E ->
  messageChunkCount <= length (splitStringByLength (JsString.trim s) messageChunkSize) ->
  exists further w',
    dispatchReply E externalUserid msgKfId msgid question s w = (Ok tt, w')
    /\ outbox w'
       = outbox w
         ++ (TextMessage externalUserid msgKfId
               <$> take 4 (splitStringByLength (JsString.trim s) messageChunkSize))
         ++ note_events E externalUserid msgKfId msgid question s (tick w + 4)
         ++ further
    /\ (length (splitStringByLength (JsString.trim s) messageChunkSize)
        = messageChunkCount -> further = []).
Proof.
  intros Hok Hmany. unfold dispatchReply.
  pose proof (many_chunks_long_reply s Hmany) as Hlong.
  apply Nat.ltb_lt in Hlong. rewrite Hlong.
  rewrite send_chunks_ok by done.
  destruct (splitStringByLength (JsString.trim s) messageChunkSize)
    as [|c1 [|c2 [|c3 [|c4 [|c5 more]]]]];
    try (unfold messageChunkCount in Hmany; simpl in Hmany; lia).
  eexists _, _. split; [reflexivity|]. split.
  - simpl. replace (tick w + 1 + 1 + 1 + 1) with (tick w + 4) by lia.
    reflexivity.
  - intros Hfive. unfold messageChunkCount in Hfive. simpl in Hfive.
    destruct more; [done|simpl in Hfive; lia].
Qed.

Lemma overflow_to_file_witness :
  let s := JsString.repeat "a" 5000 in
  exists further w',
    dispatchReply (quiet_env None) "user-1" "kf-1" "m1" "q" s empty_world = (Ok tt, w')
    /\ outbox w'
       = outbox empty_world
         ++ (TextMessage "user-1" "kf-1"
               <$> take 4 (splitStringByLength (JsString.trim s) messageChunkSize))
         ++ note_events (quiet_env None) "user-1" "kf-1" "m1" "q" s
              (tick empty_world + 4)
         ++ further
    /\ further = [].
Proof.
  intros s.
  destruct (overflow_to_file (quiet_env None) "user-1" "kf-1" "m1" "q" s empty_world)
    as (further & w' & Hrun & Hout & Hfive).
  - intros t. reflexivity.
  - by vm_compute.
  - exists further, w'. split; [exact Hrun|]. split; [exact Hout|].
    apply Hfive. by vm_compute.
Defined.

(** C4, as stated, fails: for a reply of 1025 characters, well below four
    chunks, the last chunk is not sent as text, a file is sent in its place,
    and the text that was sent is not the trimmed reply. *)
Lemma short_reply_last_chunk_becomes_file :
  let s := JsString.repeat "a" 1025 in
  String.length s <= 4 * messageChunkSize
  /\ outbox (dispatchReply (quiet_env None) "user-1" "kf-1" "m1" "q" s empty_world).2
     = [TextMessage "user-1" "kf-1" (JsString.repeat "a" 1024);
        MediaUpload "file" {| file_name := "q-完整回答-m1.txt"; file_data := s |}
          "q-完整回答-m1.txt";
        FileMessage "user-1" "kf-1" "media-1"]
  /\ JsString.concat [JsString.repeat "a" 1024] <> JsString.trim s.
Proof.
  intros s. split; [apply Nat.leb_le; by vm_compute|]. split; [by vm_compute|].
  intros Heq. apply (f_equal String.length) in Heq. vm_compute in Heq. discriminate.
Qed.

(** C4, amended.  When no request fails and the reply has at most
    [4 * messageChunkSize] characters: a reply of at most [messageChunkSize]
    characters is sent as one text message, as the model gave it (untrimmed),
    and no file is sent; a longer one is trimmed and split into at most four
    chunks that put together are the trimmed reply, all chunks but the last
    are sent as text, in order, and in place of the last chunk one file with
    the reply as the model gave it is uploaded and sent. *)
Theorem short_reply_dispatch
    (E : Env) (externalUserid msgKfId msgid question s : string) (w : World) :
  gateway_ok E ->
  String.length s <= 4 * messageChunkSize ->
  exists w',
    dispatchReply E externalUserid msgKfId msgid question s w = (Ok tt, w')
    /\ (String.length s <= messageChunkSize ->
        outbox w' = outbox w ++ [TextMessage externalUserid msgKfId s])
    /\ (messageChunkSize < String.length s ->
        let chunks := splitStringByLength (JsString.trim s) messageChunkSize in
        length chunks <= 4
        /\ JsString.concat chunks = JsString.trim s
        /\ outbox w'
           = outbox w
             ++ (TextMessage externalUserid msgKfId <$> removelast chunks)
             ++ match chunks with
                | [] => []
                | _ => note_events E externalUserid msgKfId msgid question s
                         (tick w + length chunks - 1)
                end).
Proof.
  intros Hok Hlen. unfold dispatchReply.
  destruct (Nat.ltb_spec messageChunkSize (String.length s)) as [Hlong|Hshort].
  - rewrite send_chunks_ok by done.
    eexists. split; [reflexivity|]. split; [lia|]. intros _.
    set (chunks := splitStringByLength (JsString.trim s) messageChunkSize).
    assert (Hcount : length chunks <= 4).
    { apply splitStringByLength_count; [unfold messageChunkSize; lia|].
      pose proof (length_trim s). lia. }
    split; [done|]. split.
    + apply splitStringByLength_concat. unfold messageChunkSize. lia.
    + simpl. f_equal. apply chunk_events_few; [done|].
      unfold messageChunkCount. lia.
  - rewrite sendTextMessage_ok by apply Hok.
    eexists. split; [reflexivity|]. split; [done|lia].
Qed.

Lemma short_reply_dispatch_witness :
  let s := JsString.repeat "a" 2000 in
  exists w',
    dispatchReply (quiet_env None) "user-1" "kf-1" "m1" "q" s empty_world = (Ok tt, w')
    /\ outbox w'
       = [TextMessage "user-1" "kf-1" (JsString.repeat "a" 1024)]
         ++ note_events (quiet_env None) "user-1" "kf-1" "m1" "q" s 1.
Proof.
  intros s.
  destruct (short_reply_dispatch (quiet_env None) "user-1" "kf-1" "m1" "q" s empty_world)
    as (w' & Hrun & _ & Hlong).
  - intros t. reflexivity.
  - apply Nat.leb_le. by vm_compute.
  - exists w'. split; [exact Hrun|].
    destruct Hlong as (_ & _ & ->); [apply Nat.ltb_lt|]; by vm_compute.
Defined.

(** ** The cap of the conversation window *)

Lemma maxHistoryLength_positive options :
  0 < ConversationManager.maxHistoryLength (ConversationManager.new options).
Proof.
  unfold ConversationManager.new, or_default. simpl.
  destruct (ConversationManager.opt_maxHistoryLength options) as [n|]; [|lia].
  destruct (Nat.eqb_spec n 0); lia.
Qed.

(** The last [n] elements of what is kept and then extended are the last
    [n] elements of the whole. *)
Lemma drop_last_app {A} (n : nat) (x y : list A) :
  drop (length (drop (length x - n) x ++ y) - n) (drop (length x - n) x ++ y)
  = drop (length (x ++ y) - n) (x ++ y).
Proof.
  destruct (decide (length x <= n)) as [Hshort|Hlong].
  - by replace (length x - n) with 0 by lia.
  - rewrite !drop_app, !length_app, !length_drop, drop_drop.
    f_equal; f_equal; lia.
Qed.

Section WindowCap.

Variable this : ConversationManager.t.
Variable userId : string.
Hypothesis max_positive : 0 < ConversationManager.maxHistoryLength this.

Local Abbreviation key := (ConversationManager.getConversationKey userId).
Local Abbreviation max := (ConversationManager.maxHistoryLength this).
Local Abbreviation preamble := (ConversationManager.system_entry this).

(** What [saveConversationHistory] keeps of a window that starts with the
    preamble. *)
Lemma trimmed_window (entries : list ConversationEntry) :
  (if max + 1 <? length (preamble :: entries)
   then preamble :: ConversationManager.slice_last max (preamble :: entries)
   else preamble :: entries)
  = preamble :: drop (length entries - max) entries.
Proof.
  unfold ConversationManager.slice_last.
  destruct (Nat.eqb_spec max 0) as [|_]; [lia|].
  simpl length. destruct (Nat.ltb_spec (max + 1) (S (length entries))) as [Hlong|Hshort].
  - f_equal. replace (S (length entries) - max) with (S (length entries - max)) by lia.
    done.
  - f_equal. by replace (length entries - max) with 0 by lia.
Qed.

Lemma saveConversationHistory_run E entries w :
  conversations_unreachable E (tick w) = false ->
  ConversationManager.saveConversationHistory E this userId (preamble :: entries) w
  = (Ok (preamble :: drop (length entries - max) entries),
     next_tick
       (set_conversations
          (kv_put (conversations w) key (preamble :: drop (length entries - max) entries)
             (now E) (ConversationManager.expirationTtl this)) w)).
Proof.
  intros Hok. unfold ConversationManager.saveConversationHistory, try_catch, bind,
    conversations_put, ret.
  rewrite Hok. cbv zeta.
  pose proof (trimmed_window entries) as Htrim. simpl length in Htrim.
  simpl length. by rewrite Htrim.
Qed.

Lemma run_append_ok a w :
  conversations_ok (append_env a) ->
  let entries :=
    stored_tail (kv_get (conversations w) key (now (append_env a)))
    ++ [appended_entry a] in
  run_append this userId a w
  = (Ok (preamble :: drop (length entries - max) entries),
     advance 1
       (set_conversations
          (kv_put (conversations w) key (preamble :: drop (length entries - max) entries)
             (now (append_env a)) (ConversationManager.expirationTtl this))
          (advance 1 w))).
Proof.
  intros Hok entries.
  unfold run_append, ConversationManager.addUserMessage,
    ConversationManager.addAssistantMessage, appended_entry in *.
  destruct (speaker a).
  all: erewrite bind_ok by apply getConversationHistory_run.
  all: rewrite Hok.
  all: rewrite <- app_comm_cons.
  all: rewrite saveConversationHistory_run by apply Hok.
  all: by rewrite !next_tick_advance.
Qed.

Lemma stored_tail_preamble entries :
  stored_tail (Some (preamble :: entries)) = entries.
Proof. reflexivity. Qed.

Lemma run_appends_stored rest : forall a w t',
  Forall (fun a => conversations_ok (append_env a)) (a :: rest) ->
  within_ttl (ConversationManager.expirationTtl this)
    ((now ∘ append_env <$> a :: rest) ++ [t']) ->
  let entries :=
    stored_tail (kv_get (conversations w) key (now (append_env a)))
    ++ (appended_entry <$> a :: rest) in
  kv_get (conversations (run_appends this userId (a :: rest) w)) key t'
  = Some (preamble :: drop (length entries - max) entries).
Proof.
  induction rest as [|a' rest IH]; intros a w t' Hok Htime entries.
  - apply Forall_cons in Hok as [Hok _]. simpl in Htime. destruct Htime as [Htime _].
    simpl. rewrite (run_append_ok a w Hok). simpl.
    by apply kv_get_put.
  - apply Forall_cons in Hok as [Hok Hrest].
    change (run_appends this userId (a :: a' :: rest) w)
      with (run_appends this userId (a' :: rest) (run_append this userId a w).2).
    destruct Htime as [Hnext Htime].
    rewrite (IH a' _ t' Hrest Htime).
    rewrite (run_append_ok a w Hok). simpl conversations.
    rewrite (kv_get_put _ _ _ _ _ _ Hnext).
    rewrite !stored_tail_preamble.
    f_equal. f_equal. subst entries.
    rewrite (drop_last_app max _ (appended_entry <$> a' :: rest)).
    rewrite <- !app_assoc. done.
Qed.

End WindowCap.

Lemma last_appended_spec n appends :
  n <= length appends ->
  length (last_appended n appends) = n
  /\ Forall (fun e => role e <> system) (last_appended n appends)
  /\ exists evicted, appended_entry <$> appends = evicted ++ last_appended n appends.
Proof.
  intros Hn. unfold last_appended. split; [|split].
  - rewrite length_drop, length_fmap. lia.
  - apply Forall_drop, Forall_fmap, Forall_forall. intros a _. simpl.
    by destruct (speaker a).
  - exists (take (length appends - n) (appended_entry <$> appends)).
    by rewrite take_drop.
Qed.

(** C5, as stated, fails.  Eleven calls of [addUserMessage] with a cap of
    ten entries: when the stored window had expired before the eleventh
    call, or when the read of the eleventh call failed, the window that is
    persisted and that [getConversationHistory] returns afterwards holds the
    preamble and the eleventh entry only. *)
Lemma expired_or_unread_window_is_lost :
  let E := quiet_env None in
  let this := conversationManager E in
  let later := at_time (now E + 2 * 86400 * 1000) E in
  let flaky := kv_failing_at 20 E in
  ConversationManager.maxHistoryLength this = 10
  /\ length (eleven_questions E later) = 11
  /\ (ConversationManager.getConversationHistory later this "user-1"
        (run_appends this "user-1" (eleven_questions E later) empty_world)).1
     = Ok [ConversationManager.system_entry this;
           {| role := user; content := "q11"; timestamp := Some (now later) |}]
  /\ (ConversationManager.getConversationHistory E this "user-1"
        (run_appends this "user-1" (eleven_questions E flaky) empty_world)).1
     = Ok [ConversationManager.system_entry this;
           {| role := user; content := "q11"; timestamp := Some (now E) |}].
Proof. by vm_compute. Qed.

(** C5, amended.  After more than [maxHistoryLength] calls of
    [addUserMessage]/[addAssistantMessage] for a user, each made while the
    conversation store answers and before the window written by the previous
    call expires, the persisted window is the preamble followed by exactly
    the last [maxHistoryLength] appended entries, none of them a system
    entry (the older ones are gone, oldest first); and
    [getConversationHistory], called while the store answers and before that
    window expires, returns these [1 + maxHistoryLength] entries, the first
    of which is the system entry. *)
Theorem window_cap
    (options : ConversationManager.Options) (userId : string)
    (appends : list Append) (E' : Env) (w : World) :
  ConversationManager.maxHistoryLength (ConversationManager.new options)
    < length appends ->
  Forall (fun a => conversations_ok (append_env a)) appends ->
  within_ttl (ConversationManager.expirationTtl (ConversationManager.new options))
    ((now ∘ append_env <$> appends) ++ [now E']) ->
  conversations_unreachable E'
    (tick (run_appends (ConversationManager.new options) userId appends w)) = false ->
  let this := ConversationManager.new options in
  let w' := run_appends this userId appends w in
  let window :=
    ConversationManager.system_entry this
      :: last_appended (ConversationManager.maxHistoryLength this) appends in
  kv_get (conversations w') (ConversationManager.getConversationKey userId) (now E')
  = Some window
  /\ ConversationManager.getConversationHistory E' this userId w'
     = (Ok window, next_tick w')
  /\ length window = 1 + ConversationManager.maxHistoryLength this
  /\ (exists first, head window = Some first /\ role first = system)
  /\ Forall (fun e => role e <> system)
       (last_appended (ConversationManager.maxHistoryLength this) appends)
  /\ exists evicted,
       appended_entry <$> appends
       = evicted ++ last_appended (ConversationManager.maxHistoryLength this) appends.
Proof.
  intros Hmany Hok Htime Hread. cbv zeta.
  pose proof (maxHistoryLength_positive options) as Hpos.
  set (this := ConversationManager.new options) in *.
  set (w' := run_appends this userId appends w) in *.
  set (window := ConversationManager.system_entry this :: _).
  destruct (last_appended_spec (ConversationManager.maxHistoryLength this) appends)
    as (Hlen & Hroles & Hevicted); [apply Nat.lt_le_incl, Hmany|].
  assert (Hstored :
    kv_get (conversations w') (ConversationManager.getConversationKey userId) (now E')
    = Some window).
  { destruct appends as [|a rest]; [simpl in Hmany; lia|].
    subst w' window. rewrite (run_appends_stored this userId Hpos rest a w (now E') Hok Htime).
    do 2 f_equal. unfold last_appended.
    rewrite drop_app, length_app, length_fmap.
    set (h := stored_tail _).
    rewrite (drop_ge h) by lia. rewrite app_nil_l. f_equal. lia. }
  split; [exact Hstored|]. split.
  - rewrite getConversationHistory_run. fold w'. rewrite Hread, Hstored.
    subst window. by rewrite stored_tail_preamble.
  - split; [subst window; cbn [length]; by rewrite Hlen|].
    split; [by exists (ConversationManager.system_entry this)|]. by split.
Qed.

Lemma window_cap_witness :
  let E := quiet_env None in
  let this := conversationManager E in
  let w' := run_appends this "user-1" (eleven_questions E E) empty_world in
  exists window,
    ConversationManager.getConversationHistory E this "user-1" w'
    = (Ok window, next_tick w')
    /\ length window = 11
    /\ content <$> window
       = ["you are helpful assistant";
          "q2"; "q3"; "q4"; "q5"; "q6"; "q7"; "q8"; "q9"; "q10"; "q11"].
Proof.
  intros E this w'.
  destruct (window_cap
              {| ConversationManager.opt_maxHistoryLength := Some 10;
                 ConversationManager.opt_expirationTtl := Some 86400%Z;
                 ConversationManager.opt_systemPrompt :=
                   Some "you are helpful assistant" |}
              "user-1" (eleven_questions E E) E empty_world)
    as (_ & Hrun & Hlen & _).
  - by vm_compute.
  - repeat constructor; intros t; reflexivity.
  - simpl. repeat split; reflexivity.
  - reflexivity.
  - eexists. split; [exact Hrun|]. split; [exact Hlen|]. reflexivity.
Defined.

(** ** The orchestrator *)

(** The ways [decryptMsg] fails: no Encrypt element, a failing crypto
    service, or a signature that does not match. *)
Lemma decryptMsg_ret E postData params :
  WXBizMsgCrypt.ret_code (decrypted E postData params) = 0%Z
  <-> exists encrypt message,
        xml_extract E postData = Some encrypt
        /\ svc_getSignature E (param_timestamp params) (nonce params) encrypt
           = Some (msgSignature params)
        /\ svc_decrypt E encrypt = Some message
        /\ WXBizMsgCrypt.decryptedXml (decrypted E postData params) = Some message.
Proof.
  unfold decrypted, WXBizMsgCrypt.decryptMsg.
  destruct (xml_extract E postData) as [encrypt|]; simpl.
  2: { split; [done|]. by intros (? & ? & [=] & _). }
  destruct (svc_getSignature E _ _ encrypt) as [signature|] eqn:Hsvc; simpl.
  2: { split; [done|]. intros (? & ? & [= <-] & ? & _). congruence. }
  case_bool_decide as Hsig; simpl.
  { split; [done|]. intros (? & ? & [= <-] & ? & _). congruence. }
  destruct (svc_decrypt E encrypt) as [message|] eqn:Hdec; simpl.
  2: { split; [done|]. intros (? & ? & [= <-] & _ & ? & _). congruence. }
  split; [|done]. intros _. exists encrypt, message.
  repeat split; [|done].
  destruct (decide (signature = msgSignature params)); congruence.
Qed.

(** C8, as stated, fails: after a call whose signature does not match, the
    ledger holds no record for the call, failed or otherwise. *)
Lemma failed_authentication_is_not_recorded :
  let E := quiet_env None in
  let run := handleCallbackAsync E 5 "post-data" forged_call empty_world in
  WXBizMsgCrypt.ret_code (decrypted E "post-data" forged_call) = (-40001)%Z
  /\ run.1 = Ok tt
  /\ ledger run.2 !! MessageTracker.getMessageKey (msgSignature forged_call) = None
  /\ outbox run.2 = [].
Proof. by vm_compute. Qed.

(** C8, amended.  Whenever [decryptMsg] reports a failure (no Encrypt
    element, a signature that does not match, a failing crypto service), the
    orchestrator stops there: no reply is sent and nothing is written, to the
    ledger or to the conversation store; the call-level id is not marked. *)
Theorem failed_authentication_stops_silently
    (E : Env) (fuel : nat) (postData : string) (params : Params) (w : World) :
  crypt_params E = true ->
  WXBizMsgCrypt.ret_code (decrypted E postData params) <> 0%Z ->
  handleCallbackAsync E fuel postData params w = (Ok tt, w).
Proof.
  intros Hparams Hret. unfold handleCallbackAsync, try_catch, bind at 1.
  rewrite Hparams. unfold ret at 1. fold (decrypted E postData params).
  destruct (Z.eqb_spec (WXBizMsgCrypt.ret_code (decrypted E postData params)) 0);
    done.
Qed.

Lemma failed_authentication_stops_silently_witness :
  handleCallbackAsync (quiet_env None) 5 "post-data" forged_call empty_world
  = (Ok tt, empty_world).
Proof.
  apply failed_authentication_stops_silently; [reflexivity|].
  by vm_compute.
Defined.

(** *** Taking a finished run apart *)

Lemma bind_inv_ok {A B} (c : M A) (k : A -> M B) w b w' :
  bind c k w = (Ok b, w') ->
  exists a w'', c w = (Ok a, w'') /\ k a w'' = (Ok b, w').
Proof.
  unfold bind. destruct (c w) as [[a|e|] w'']; [eauto|done|done].
Qed.

Lemma try_catch_inv_ok {A} (body : M A) handler w a w' :
  try_catch body handler w = (Ok a, w') ->
  body w = (Ok a, w')
  \/ exists e w'', body w = (Throw e, w'') /\ handler e w'' = (Ok a, w').
Proof.
  unfold try_catch. destruct (body w) as [[a'|e|] w'']; [by left|eauto|done].
Qed.

Lemma markMessageAsProcessed_inv_ok E msgId metadata w b w' :
  MessageTracker.markMessageAsProcessed E msgId metadata w = (Ok b, w') ->
  tracker_unreachable E (tick w) = false
  /\ ledger w'
     = kv_put (ledger w) (MessageTracker.getMessageKey msgId)
         {| msgId := msgId; processedAt := now E; metadata := metadata |}
         (now E) MessageTracker.expirationTtl
  /\ conversations w' = conversations w
  /\ outbox w' = outbox w.
Proof.
  rewrite markMessageAsProcessed_run.
  destruct (tracker_unreachable E (tick w)); [done|].
  by intros [= _ <-].
Qed.

Ltac take_apart H :=
  let a := fresh "a" in
  let w := fresh "w" in
  let H1 := fresh "Hstep" in
  apply bind_inv_ok in H as (a & w & H1 & H).

(** A run of [processUserMessage] that did not skip the message and
    returned has, as its last act, written the record of the message. *)
Lemma processUserMessage_marks E externalUserid content msgid msgKfId w0 w1 :
  reported_processed E w0 msgid = false ->
  processUserMessage E externalUserid content msgid msgKfId w0 = (Ok tt, w1) ->
  exists metadata,
    ledger w1 !! MessageTracker.getMessageKey msgid
    = Some ({| msgId := msgid; processedAt := now E; metadata := metadata |},
            (now E + MessageTracker.expirationTtl * 1000)%Z).
Proof.
  intros Hfresh Hrun. unfold processUserMessage in Hrun.
  destruct (negb (CONVERSATIONS E) || negb (MESSAGE_TRACKER E)); [done|].
  unfold bind at 1 in Hrun. rewrite isMessageProcessed_run, Hfresh in Hrun.
  apply try_catch_inv_ok in Hrun as [Hbody|(e & w' & _ & Hhandler)].
  - take_apart Hbody. take_apart Hbody. take_apart Hbody.
    destruct a1 as [assistantMessage|]; [|done].
    destruct (string_falsy assistantMessage); [done|].
    take_apart Hbody. take_apart Hbody. take_apart Hbody.
    injection Hbody as <-.
    apply markMessageAsProcessed_inv_ok in Hstep4 as (_ & -> & _).
    eexists. unfold kv_put. by rewrite lookup_insert_eq.
  - take_apart Hhandler. take_apart Hhandler.
    injection Hhandler as <-.
    apply markMessageAsProcessed_inv_ok in Hstep0 as (_ & -> & _).
    eexists. unfold kv_put. by rewrite lookup_insert_eq.
Qed.

Lemma dispatchReply_ok E externalUserid msgKfId msgid content assistantMessage w :
  gateway_ok E ->
  dispatchReply E externalUserid msgKfId msgid content assistantMessage w
  = (Ok tt,
     sent (dispatch_events E externalUserid msgKfId msgid content assistantMessage
             (tick w)) w).
Proof.
  intros Hok. unfold dispatchReply, dispatch_events.
  destruct (messageChunkSize <? String.length assistantMessage).
  - by apply send_chunks_ok.
  - apply sendTextMessage_ok, Hok.
Qed.

Lemma conversationManager_positive E :
  0 < ConversationManager.maxHistoryLength (conversationManager E).
Proof. apply maxHistoryLength_positive. Qed.

(** What a first run sends when no storage or gateway call fails. *)
Lemma first_run_outbox E externalUserid question msgid msgKfId w0 :
  storage_ok E -> gateway_ok E ->
  reported_processed E w0 msgid = false ->
  exists w1,
    processUserMessage E externalUserid question msgid msgKfId w0 = (Ok tt, w1)
    /\ outbox w1
       = outbox w0 ++ first_reply E externalUserid msgKfId msgid question w0.
Proof.
  intros Hkv Hgw Hfresh.
  assert (Hconv : conversations_ok E) by (intros t; apply Hkv).
  assert (Htrk : forall t, tracker_unreachable E t = false) by (intros t; apply Hkv).
  assert (Hbound : negb (CONVERSATIONS E) || negb (MESSAGE_TRACKER E) = false).
  { pose proof (Hconv 0) as H1. pose proof (Htrk 0) as H2.
    unfold conversations_unreachable, tracker_unreachable in *.
    destruct (CONVERSATIONS E), (MESSAGE_TRACKER E); simpl in *; done. }
  unfold processUserMessage. rewrite Hbound.
  erewrite bind_ok by apply isMessageProcessed_run. rewrite Hfresh.
  match goal with
  | |- context [try_catch ?b ?h (next_tick w0)] => set (body := b); set (handler := h)
  end.
  assert (Hfail : forall e wb,
            outbox wb = outbox w0 ->
            exists w1,
              handler e wb = (Ok tt, w1)
              /\ outbox w1
                 = outbox w0 ++ [TextMessage externalUserid msgKfId errorMessage]).
  { intros e wb Hwb. subst handler. cbv beta. eexists. split.
    - erewrite bind_ok by (apply try_catch_ok, sendTextMessage_ok, Hgw).
      erewrite bind_ok by (rewrite markMessageAsProcessed_run, Htrk; reflexivity).
      reflexivity.
    - simpl. by rewrite Hwb. }
  assert (Hthrows : forall e wb,
            body (next_tick w0) = (Throw e, wb) ->
            outbox wb = outbox w0 ->
            exists w1,
              try_catch body handler (next_tick w0) = (Ok tt, w1)
              /\ outbox w1
                 = outbox w0 ++ [TextMessage externalUserid msgKfId errorMessage]).
  { intros e wb Hb Hwb. destruct (Hfail e wb Hwb) as (w1 & Hh & Hout).
    exists w1. by rewrite (try_catch_throw _ _ _ _ _ Hb). }
  pose proof (run_append_ok (conversationManager E) externalUserid
                (conversationManager_positive E)
                {| append_env := E; speaker := FromUser; said := question |}
                (next_tick w0) Hconv) as Huser.
  cbv zeta in Huser. unfold run_append in Huser. simpl in Huser.
  match type of Huser with
  | _ = (Ok ?h, ?w) => set (history := h) in *; set (wu := w) in *
  end.
  assert (Hwindow : asked_window E externalUserid question w0 = history)
    by reflexivity.
  unfold first_reply, usable_reply. rewrite Hwindow.
  assert (Hwu : outbox wu = outbox w0) by reflexivity.
  assert (Hcm : ConversationManager.processUserMessage E (conversationManager E)
                  externalUserid question (next_tick w0)
                = (Ok (history,
                       (fun msg => {| ai_role := role msg; ai_content := content msg |})
                         <$> history), wu)).
  { unfold ConversationManager.processUserMessage. apply try_catch_ok.
    by erewrite bind_ok by exact Huser. }
  destruct (ai_config_valid E) eqn:Hcfg.
  2: { apply (Hthrows AiConfigError wu); [|done].
       subst body. cbv beta. erewrite bind_ok by exact Hcm. by rewrite ?Hcfg. }
  destruct (ai_reply E ((fun msg => {| ai_role := role msg; ai_content := content msg |})
                          <$> history)) as [[assistantMessage|]|] eqn:Hai.
  2: { apply (Hthrows EmptyReply wu); [|done].
       subst body. cbv beta. erewrite bind_ok by exact Hcm. rewrite ?Hcfg.
       erewrite bind_ok by reflexivity. unfold chatCompletion. cbn [snd].
       by rewrite ?Hai. }
  2: { apply (Hthrows AiError wu); [|done].
       subst body. cbv beta. erewrite bind_ok by exact Hcm. rewrite ?Hcfg.
       erewrite bind_ok by reflexivity. unfold chatCompletion. cbn [snd].
       by rewrite ?Hai. }
  destruct (string_falsy assistantMessage) eqn:Hempty.
  { apply (Hthrows EmptyReply wu); [|done].
    subst body. cbv beta. erewrite bind_ok by exact Hcm. rewrite ?Hcfg.
    erewrite bind_ok by reflexivity. unfold chatCompletion. cbn [snd].
    rewrite ?Hai. erewrite bind_ok by reflexivity. cbv iota beta.
    by rewrite ?Hempty. }
  pose proof (run_append_ok (conversationManager E) externalUserid
                (conversationManager_positive E)
                {| append_env := E; speaker := FromAssistant; said := assistantMessage |}
                wu Hconv) as Hasst.
  cbv zeta in Hasst. unfold run_append in Hasst. simpl speaker in Hasst.
  simpl append_env in Hasst. simpl said in Hasst.
  match type of Hasst with
  | _ = (Ok ?h, ?w) => set (history' := h) in *; set (wa := w) in *
  end.
  assert (Hwa : outbox wa = outbox w0) by reflexivity.
  assert (Htick : tick wa = tick w0 + 5) by (simpl; lia).
  rewrite <- Htick.
  eexists. split.
  - apply try_catch_ok. subst body. cbv beta.
    erewrite bind_ok by exact Hcm. rewrite ?Hcfg.
    erewrite bind_ok by reflexivity. unfold chatCompletion. cbn [snd].
    rewrite ?Hai. erewrite bind_ok by reflexivity. cbv iota beta.
    rewrite ?Hempty.
    erewrite bind_ok
      by (unfold ConversationManager.completeAssistantReply;
          apply try_catch_ok; exact Hasst).
    erewrite bind_ok by (by apply dispatchReply_ok).
    erewrite bind_ok by (rewrite markMessageAsProcessed_run, Htrk; reflexivity).
    reflexivity.
  - reflexivity.
Qed.

(** ** Processing a message twice *)

(** C2, as stated, fails.  The first run answers the message and records
    it; the record has not expired; the ledger read of the second run fails,
    so the message counts as unprocessed and is answered a second time.  And
    with the gateway down, a first run completes, its ledger write included,
    without any reply having gone out. *)
Lemma failed_ledger_read_repeats_the_reply :
  let E1 := quiet_env (Some (Some "hello")) in
  let first := processUserMessage E1 "user-1" "hi" "m1" "kf-1" empty_world in
  let E2 := kv_failing_at (tick first.2) E1 in
  let second := processUserMessage E2 "user-1" "hi" "m1" "kf-1" first.2 in
  let muted := processUserMessage (gateway_down E1) "user-1" "hi" "m1" "kf-1" empty_world in
  first.1 = Ok tt
  /\ outbox first.2 = [TextMessage "user-1" "kf-1" "hello"]
  /\ is_Some (kv_get (ledger first.2) (MessageTracker.getMessageKey "m1") (now E2))
  /\ second.1 = Ok tt
  /\ outbox second.2
     = [TextMessage "user-1" "kf-1" "hello"; TextMessage "user-1" "kf-1" "hello"]
  /\ muted.1 = Ok tt
  /\ is_Some (kv_get (ledger muted.2) (MessageTracker.getMessageKey "m1") (now E1))
  /\ outbox muted.2 = [].
Proof.
  repeat split; try by vm_compute.
  all: eexists; by vm_compute.
Qed.

(** C2, amended.  Let a first run of the per-message processing find the
    message unprocessed and return, its ledger write included.  A second run
    for the same message, made before that record expires and with its
    ledger read succeeding, finds the message processed and stops: it sends
    nothing and leaves the conversation window and the ledger as they are,
    so that the two runs together have sent what the first run sent.  When
    no storage or gateway call of the first run failed, that is exactly the
    reply to the message: the dispatch of the reply the model gave for the
    window that ends with the question (one text message that is the reply,
    when it has at most 1024 characters), or, when the model gave no usable
    reply, the fixed apology as one text message. *)
Theorem processUserMessage_idempotent
    (E1 E2 : Env) (externalUserid question msgid msgKfId : string) (w0 w1 : World) :
  reported_processed E1 w0 msgid = false ->
  processUserMessage E1 externalUserid question msgid msgKfId w0 = (Ok tt, w1) ->
  (now E2 < now E1 + MessageTracker.expirationTtl * 1000)%Z ->
  tracker_unreachable E2 (tick w1) = false ->
  reported_processed E2 w1 msgid = true
  /\ (exists r w2,
        processUserMessage E2 externalUserid question msgid msgKfId w1 = (r, w2)
        /\ (CONVERSATIONS E2 = true -> r = Ok tt)
        /\ outbox w2 = outbox w1
        /\ conversations w2 = conversations w1
        /\ ledger w2 = ledger w1)
  /\ (storage_ok E1 -> gateway_ok E1 ->
      match usable_reply E1 (asked_window E1 externalUserid question w0) with
      | Some assistantMessage =>
          outbox w1
          = outbox w0
            ++ dispatch_events E1 externalUserid msgKfId msgid question
                 assistantMessage (tick w0 + 5)
          /\ (String.length assistantMessage <= messageChunkSize ->
              outbox w1
              = outbox w0 ++ [TextMessage externalUserid msgKfId assistantMessage])
      | None =>
          outbox w1 = outbox w0 ++ [TextMessage externalUserid msgKfId errorMessage]
      end).
Proof.
  intros Hfresh Hrun Hlive Hread.
  destruct (processUserMessage_marks _ _ _ _ _ _ _ Hfresh Hrun) as [metadata Hrecord].
  assert (Hseen : reported_processed E2 w1 msgid = true).
  { unfold reported_processed, kv_get. rewrite Hread, Hrecord. simpl.
    destruct (Z.ltb_spec (now E2) (now E1 + MessageTracker.expirationTtl * 1000));
      [done|lia]. }
  split; [exact Hseen|]. split.
  - unfold processUserMessage.
    destruct (negb (CONVERSATIONS E2) || negb (MESSAGE_TRACKER E2)) eqn:Hconf.
    + exists (Throw KvNotConfigured), w1. split; [done|]. split; [|done].
      intros Hconv. unfold tracker_unreachable in Hread.
      rewrite Hconv in Hconf. simpl in Hconf.
      destruct (MESSAGE_TRACKER E2); simpl in *; done.
    + unfold bind. rewrite isMessageProcessed_run, Hseen.
      exists (Ok tt), (next_tick w1). by repeat split.
  - intros Hkv Hgw.
    destruct (first_run_outbox E1 externalUserid question msgid msgKfId w0 Hkv Hgw Hfresh)
      as (w1' & Hrun' & Hout).
    rewrite Hrun in Hrun'. injection Hrun' as <-. unfold first_reply in Hout.
    destruct (usable_reply E1 (asked_window E1 externalUserid question w0))
      as [assistantMessage|]; [|exact Hout].
    split; [exact Hout|]. intros Hshort. rewrite Hout. unfold dispatch_events.
    destruct (Nat.ltb_spec messageChunkSize (String.length assistantMessage));
      [lia|done].
Qed.

Lemma processUserMessage_idempotent_witness :
  let E1 := quiet_env (Some (Some "hello")) in
  let E2 := at_time 5000 E1 in
  let w1 := (processUserMessage E1 "user-1" "hi" "m1" "kf-1" empty_world).2 in
  outbox w1 = [TextMessage "user-1" "kf-1" "hello"]
  /\ exists r w2,
       processUserMessage E2 "user-1" "hi" "m1" "kf-1" w1 = (r, w2)
       /\ r = Ok tt
       /\ outbox w2 = [TextMessage "user-1" "kf-1" "hello"].
Proof.
  intros E1 E2 w1.
  destruct (processUserMessage_idempotent E1 E2 "user-1" "hi" "m1" "kf-1" empty_world w1)
    as (_ & (r & w2 & Hrun & Hok & Hout & _) & Hfirst).
  - reflexivity.
  - reflexivity.
  - reflexivity.
  - reflexivity.
  - assert (Hsent : outbox w1 = [TextMessage "user-1" "kf-1" "hello"]).
    { assert (Hkv : storage_ok E1) by (by intros t).
      assert (Hgw : gateway_ok E1) by (by intros t).
      specialize (Hfirst Hkv Hgw).
      change (usable_reply E1 (asked_window E1 "user-1" "hi" empty_world))
        with (Some "hello") in Hfirst.
      destruct Hfirst as [_ Hshort]. apply Hshort.
      apply Nat.leb_le. by vm_compute. }
    split; [exact Hsent|].
    exists r, w2. split; [exact Hrun|]. split; [by apply Hok|].
    by rewrite Hout.
Defined.

(** ** A webhook call delivered again *)

Lemma touches_only_refl key w : touches_only key w w.
Proof. by repeat split. Qed.

Lemma touches_only_advance key n w : touches_only key w (advance n w).
Proof. by repeat split. Qed.

Lemma touches_only_trans key w1 w2 w3 :
  touches_only key w1 w2 -> touches_only key w2 w3 -> touches_only key w1 w3.
Proof.
  intros (Ho1 & Hc1 & Hl1) (Ho2 & Hc2 & Hl2). repeat split; try congruence.
  intros k Hk. by rewrite Hl2, Hl1.
Qed.

Lemma markMessageAsProcessed_touches E msgId metadata w :
  touches_only (MessageTracker.getMessageKey msgId) w
    (MessageTracker.markMessageAsProcessed E msgId metadata w).2.
Proof.
  rewrite markMessageAsProcessed_run.
  destruct (tracker_unreachable E (tick w)); simpl.
  - by repeat split.
  - repeat split; try done. intros k Hk. simpl. unfold kv_put.
    by rewrite lookup_insert_ne.
Qed.

Lemma sync_loop_only_ticks E tok kf fuel : forall allMessages cursor w,
  exists n,
    (WeChatClient.sync_loop E fuel tok kf allMessages cursor w).2 = advance n w.
Proof.
  induction fuel as [|fuel IH]; intros allMessages cursor w.
  - exists 0. simpl. by rewrite advance_0.
  - simpl. unfold bind at 1. rewrite syncMessages_run.
    destruct (sync_reply E (tick w) tok kf cursor) as [page|].
    + destruct (_ || _).
      * exists 1. simpl. by rewrite next_tick_advance.
      * destruct (IH (allMessages ++ default [] (msg_list page)) (next_cursor page)
                    (next_tick w)) as [n Hn].
        exists (1 + n). rewrite Hn, next_tick_advance, advance_advance. done.
    + exists 1. simpl. by rewrite next_tick_advance.
Qed.

Lemma try_catch_bind_ok {A B} (c : M A) (k : A -> M B) handler w a w' :
  c w = (Ok a, w') ->
  try_catch (bind c k) handler w = try_catch (k a) handler w'.
Proof. intros Hc. unfold try_catch, bind. by rewrite Hc. Qed.

(** The end of a run that found nothing to process: the call is marked, and
    marked as failed if that write throws. *)
Lemma mark_call_touches E params w :
  let key := MessageTracker.getMessageKey (msgSignature params) in
  exists r w',
    try_catch
      (MessageTracker.markMessageAsProcessed E (msgSignature params)
         (CallbackMeta (param_timestamp params) (nonce params) None true) ;;
       ret tt)
      (fun error =>
         MessageTracker.markMessageAsProcessed E (msgSignature params)
           (CallbackMeta (param_timestamp params) (nonce params) (Some error) false) ;;
         ret tt) w
    = (r, w')
    /\ touches_only key w w'.
Proof.
  intros key. unfold try_catch, bind.
  pose proof (markMessageAsProcessed_touches E (msgSignature params)
                (CallbackMeta (param_timestamp params) (nonce params) None true) w)
    as Hfirst.
  destruct (MessageTracker.markMessageAsProcessed E (msgSignature params)
              (CallbackMeta (param_timestamp params) (nonce params) None true) w)
    as [[b|e|] w1]; simpl in Hfirst.
  - by eexists _, _.
  - pose proof (markMessageAsProcessed_touches E (msgSignature params)
                  (CallbackMeta (param_timestamp params) (nonce params) (Some e) false)
                  w1) as Hsecond.
    destruct (MessageTracker.markMessageAsProcessed E (msgSignature params)
                (CallbackMeta (param_timestamp params) (nonce params) (Some e) false) w1)
      as [[b|e'|] w2]; simpl in Hsecond.
    all: eexists _, _; split; [reflexivity|].
    all: by eapply touches_only_trans.
  - by eexists _, _.
Qed.

(** C1, as stated, fails.  A first run for a call ends with the sync
    failing and records the call-level id as failed; the same call delivered
    again is processed all the same: the message now in the inbox is handled
    and answered. *)
Lemma recorded_call_is_processed_again :
  let E1 := sync_down (quiet_env None) in
  let E2 := paged_env [text_message "m1" "hi" 1] [] (Some (Some "hello")) in
  let first := handleCallbackAsync E1 5 "post-data" genuine_call empty_world in
  let again := handleCallbackAsync E2 5 "post-data" genuine_call first.2 in
  first.1 = Ok tt
  /\ (exists record,
        kv_get (ledger first.2) (MessageTracker.getMessageKey (msgSignature genuine_call))
          (now E2) = Some record
        /\ meta_success (metadata record) = false)
  /\ outbox first.2 = []
  /\ again.1 = Ok tt
  /\ outbox again.2 = [TextMessage "user-1" "kf-1" "hello"].
Proof.
  repeat split; try by vm_compute.
  eexists. split; by vm_compute.
Qed.

(** C1, amended.  The orchestrator never reads the call-level record: a
    call delivered again is authenticated and synced again.  It does no
    message processing and sends nothing when the newest synced message is a
    text message that the ledger reports processed (its record is there, has
    not expired and the read succeeds), as it is after a first run that
    handled it; all the repeated run can change is the call-level record
    itself. *)
Theorem repeated_delivery_of_handled_message
    (E : Env) (fuel : nat) (postData : string) (params : Params) (w w1 : World)
    (tok kf : string) (batch : list InboxMessage) (newest : InboxMessage)
    (rest : list InboxMessage) :
  crypt_params E = true ->
  WXBizMsgCrypt.ret_code (decrypted E postData params) = 0%Z ->
  xml_parse E (default "" (WXBizMsgCrypt.decryptedXml (decrypted E postData params)))
  = Some (tok, kf) ->
  WeChatClient.syncAllMessages E fuel tok kf w = (Ok batch, w1) ->
  WeChatClient.sort_by_send_time batch = newest :: rest ->
  eligible newest = true ->
  reported_processed E w1 (latest_msgid (latest_of newest)) = true ->
  exists r w',
    handleCallbackAsync E fuel postData params w = (r, w')
    /\ touches_only (MessageTracker.getMessageKey (msgSignature params)) w w'.
Proof.
  intros Hparams Hret Hxml Hsync Hsort Helig Hseen.
  pose proof (getLatestTextMessages_run _ _ _ _ _ _ _ Hsync) as Hlatest.
  rewrite Hsort, Helig, Hseen in Hlatest.
  assert (Hw1 : touches_only (MessageTracker.getMessageKey (msgSignature params)) w
                  (next_tick w1)).
  { destruct (sync_loop_only_ticks E tok kf fuel [] None w) as [n Hn].
    unfold WeChatClient.syncAllMessages in Hsync. rewrite Hsync in Hn. simpl in Hn.
    subst w1. rewrite next_tick_advance, advance_advance.
    apply touches_only_advance. }
  destruct (mark_call_touches E params (next_tick w1)) as (r & w' & Hmark & Htouch).
  exists r, w'. split; [|by eapply touches_only_trans].
  rewrite <- Hmark. unfold handleCallbackAsync.
  fold (decrypted E postData params). rewrite Hparams.
  erewrite try_catch_bind_ok by reflexivity. cbv beta zeta.
  rewrite Hret. simpl negb. cbv iota. rewrite Hxml.
  erewrite try_catch_bind_ok by exact Hlatest. cbv beta iota.
  erewrite try_catch_bind_ok by reflexivity. reflexivity.
Qed.

Lemma repeated_delivery_of_handled_message_witness :
  let E := paged_env [text_message "m1" "hi" 1] [] (Some (Some "hello")) in
  let first := handleCallbackAsync E 5 "post-data" genuine_call empty_world in
  outbox first.2 = [TextMessage "user-1" "kf-1" "hello"]
  /\ exists r w',
       handleCallbackAsync E 5 "post-data" genuine_call first.2 = (r, w')
       /\ outbox w' = [TextMessage "user-1" "kf-1" "hello"].
Proof.
  intros E first. split; [by vm_compute|].
  destruct (repeated_delivery_of_handled_message E 5 "post-data" genuine_call first.2
              (advance 2 first.2) "token" "kf-1" [text_message "m1" "hi" 1]
              (text_message "m1" "hi" 1) [])
    as (r & w' & Hrun & Hout & _).
  - by vm_compute.
  - by vm_compute.
  - by vm_compute.
  - by vm_compute.
  - by vm_compute.
  - by vm_compute.
  - by vm_compute.
  - exists r, w'. split; [exact Hrun|]. rewrite Hout. by vm_compute.
Defined.

(** * Further properties of the code

    ** Splitting a string *)

Lemma split_loop_lookup str len fuel : forall index i chunk,
  split_loop fuel str len index !! i = Some chunk ->
  chunk = JsString.slice str (index + i * len) (index + i * len + len)
  /\ index + i * len < String.length str.
Proof.
  induction fuel as [|fuel IH]; intros index i chunk Hi; simpl in Hi; [done|].
  destruct (Nat.ltb_spec index (String.length str)) as [Hlt|Hge]; [|done].
  destruct i as [|i]; simpl in Hi.
  - injection Hi as <-. by rewrite Nat.add_0_r.
  - destruct (IH _ _ _ Hi) as [-> Hlt']. simpl.
    by replace (index + (len + i * len)) with (index + len + i * len) by lia.
Qed.

Lemma string_length_app s1 s2 :
  String.length (s1 +:+ s2) = String.length s1 + String.length s2.
Proof.
  induction s1 as [|c s1 IH]; [done|].
  change (String c s1 +:+ s2) with (String c (s1 +:+ s2)). simpl. by rewrite IH.
Qed.

Lemma length_concat_chunks chunks len :
  Forall (fun chunk => String.length chunk <= len) chunks ->
  String.length (JsString.concat chunks) <= length chunks * len.
Proof.
  induction 1 as [|chunk chunks Hchunk _ IH]; simpl; [lia|].
  rewrite string_length_app. lia.
Qed.

(** X1.  For a positive chunk length, the chunks of [splitStringByLength],
    joined in order, are the string; no chunk is empty or longer than the
    chunk length; and every chunk but the last has exactly that length. *)
Theorem splitStringByLength_reassembles (str : string) (len : nat) :
  0 < len ->
  JsString.concat (splitStringByLength str len) = str
  /\ Forall (fun chunk => 0 < String.length chunk <= len) (splitStringByLength str len)
  /\ forall i chunk,
       splitStringByLength str len !! i = Some chunk ->
       S i < length (splitStringByLength str len) ->
       String.length chunk = len.
Proof.
  intros Hlen. split; [by apply splitStringByLength_concat|]. split.
  - apply Forall_lookup. intros i chunk Hi.
    destruct (split_loop_lookup _ _ _ _ _ _ Hi) as [-> Hlt].
    unfold JsString.slice. rewrite string_length_take, string_length_drop. lia.
  - intros i chunk Hi Hnext.
    destruct (lookup_lt_is_Some_2 (splitStringByLength str len) (S i) Hnext)
      as [next Hnext'].
    destruct (split_loop_lookup _ _ _ _ _ _ Hi) as [-> _].
    destruct (split_loop_lookup _ _ _ _ _ _ Hnext') as [_ Hlt]. simpl in Hlt.
    unfold JsString.slice. rewrite string_length_take, string_length_drop. lia.
Qed.

Lemma splitStringByLength_reassembles_witness :
  JsString.concat (splitStringByLength "customer service" 5) = "customer service"
  /\ splitStringByLength "customer service" 5 = ["custo"; "mer s"; "ervic"; "e"].
Proof.
  split; [|reflexivity].
  apply (splitStringByLength_reassembles "customer service" 5). lia.
Defined.

(** X2.  For a positive chunk length, [splitStringByLength] returns as many
    chunks as the length of the string divided by the chunk length, rounded
    up; in particular none for the empty string. *)
Theorem splitStringByLength_count_exact (str : string) (len : nat) :
  0 < len ->
  length (splitStringByLength str len) = (String.length str + len - 1) / len.
Proof.
  intros Hlen.
  set (n := length (splitStringByLength str len)).
  assert (Hupper : String.length str <= n * len).
  { rewrite <- (splitStringByLength_concat str len Hlen) at 1.
    apply length_concat_chunks, split_loop_chunk_length. }
  assert (Hlower : n * len < String.length str + len).
  { destruct n as [|m] eqn:Hn; [lia|].
    assert (is_Some (splitStringByLength str len !! m)) as [chunk Hchunk].
    { apply lookup_lt_is_Some_2. fold n. lia. }
    destruct (split_loop_lookup _ _ _ _ _ _ Hchunk) as [_ Hlt]. simpl in *. lia. }
  apply (Nat.div_unique _ _ _ (String.length str + len - 1 - n * len)); lia.
Qed.

Lemma splitStringByLength_count_exact_witness :
  length (splitStringByLength (JsString.repeat "a" 6000) 1024) = 6.
Proof.
  rewrite (splitStringByLength_count_exact (JsString.repeat "a" 6000) 1024); [|lia].
  rewrite length_repeat. reflexivity.
Defined.

(** ** Sorting the synced messages *)

Lemma insert_desc_descending a sorted :
  descending sorted -> descending (WeChatClient.insert_desc a sorted).
Proof.
  induction sorted as [|b rest IH]; intros Hsorted; simpl.
  - by split.
  - destruct Hsorted as [Hb Hrest].
    destruct (Z.ltb_spec (WeChatClient.send_time_key a) (WeChatClient.send_time_key b))
      as [Hlt|Hge].
    + split; [|by apply IH].
      rewrite insert_desc_perm. constructor; [lia|done].
    + split; [|by split]. constructor; [done|].
      eapply Forall_impl; [exact Hb|]. simpl. lia.
Qed.

(** X3.  The sort of [getLatestTextMessages] rearranges the batch without
    adding or dropping a message, puts it in descending order of send time
    (a missing send time counting as 0), and leaves a batch that is already
    in that order exactly as it is. *)
Theorem sort_by_send_time_sorts (batch : list InboxMessage) :
  WeChatClient.sort_by_send_time batch ≡ₚ batch
  /\ descending (WeChatClient.sort_by_send_time batch)
  /\ (descending batch -> WeChatClient.sort_by_send_time batch = batch).
Proof.
  split; [apply sort_by_send_time_perm|]. split.
  - induction batch as [|a batch IH]; simpl; [done|].
    by apply insert_desc_descending.
  - induction batch as [|a batch IH]; intros Hsorted; simpl; [done|].
    destruct Hsorted as [Ha Hrest]. rewrite (IH Hrest).
    destruct batch as [|b batch]; simpl; [done|].
    apply Forall_cons in Ha as [Hb _].
    destruct (Z.ltb_spec (WeChatClient.send_time_key a) (WeChatClient.send_time_key b));
      [lia|done].
Qed.

Lemma sort_by_send_time_sorts_witness :
  let batch := [text_message "m3" "c" 30; text_message "m2" "b" 20;
                text_message "m1" "a" 10] in
  WeChatClient.sort_by_send_time batch = batch.
Proof.
  intros batch.
  apply (sort_by_send_time_sorts batch).
  simpl. repeat split; repeat constructor; done.
Defined.

(** ** The message tracker *)

Lemma getMessageKey_inj msgId1 msgId2 :
  MessageTracker.getMessageKey msgId1 = MessageTracker.getMessageKey msgId2 ->
  msgId1 = msgId2.
Proof.
  unfold MessageTracker.getMessageKey. intros Heq.
  by repeat apply String.app_inj in Heq.
Qed.

Lemma getMessageProcessInfo_run E msgId w :
  MessageTracker.getMessageProcessInfo E msgId w
  = (if tracker_unreachable E (tick w) then Ok None
     else Ok (kv_get (ledger w) (MessageTracker.getMessageKey msgId) (now E)),
     next_tick w).
Proof.
  unfold MessageTracker.getMessageProcessInfo, try_catch, bind, tracker_get, ret.
  by destruct (tracker_unreachable E (tick w)).
Qed.

(** X4.  A message that was marked is reported processed by every later
    check that reaches the store, until the 24 hours of the record are over;
    from then on it is reported unprocessed again. *)
Theorem marked_message_is_processed_until_expiry
    (E E' : Env) (msgId : string) (meta : Metadata) (w w1 : World) (b : bool) :
  MessageTracker.markMessageAsProcessed E msgId meta w = (Ok b, w1) ->
  tracker_unreachable E' (tick w1) = false ->
  MessageTracker.isMessageProcessed E' msgId w1
  = (Ok (now E' <? now E + 86400 * 1000)%Z, next_tick w1).
Proof.
  intros Hmark Hread.
  apply markMessageAsProcessed_inv_ok in Hmark as (_ & Hledger & _).
  rewrite isMessageProcessed_run. f_equal. f_equal.
  unfold reported_processed. rewrite Hread, Hledger. simpl.
  unfold kv_get, kv_put. rewrite lookup_insert_eq.
  change (MessageTracker.expirationTtl) with 86400%Z.
  by destruct (now E' <? now E + 86400 * 1000)%Z.
Qed.

Lemma marked_message_is_processed_until_expiry_witness :
  let E := quiet_env None in
  let marked :=
    MessageTracker.markMessageAsProcessed E "m1" (MessageMeta "u" "q" None None true)
      empty_world in
  (MessageTracker.isMessageProcessed (at_time 86400999 E) "m1" marked.2).1 = Ok true
  /\ (MessageTracker.isMessageProcessed (at_time 86401000 E) "m1" marked.2).1 = Ok false.
Proof.
  intros E marked. split.
  - rewrite (marked_message_is_processed_until_expiry E (at_time 86400999 E) "m1"
               (MessageMeta "u" "q" None None true) empty_world marked.2 true);
      reflexivity.
  - rewrite (marked_message_is_processed_until_expiry E (at_time 86401000 E) "m1"
               (MessageMeta "u" "q" None None true) empty_world marked.2 true);
      reflexivity.
Defined.

(** X5.  Marking is last-write-wins: after an id was marked twice,
    [getMessageProcessInfo] returns the record of the second marking (its
    metadata and its time), and the record lives for 24 hours from the second
    marking, whenever the first one was made. *)
Theorem remarking_overwrites_the_record
    (E1 E2 E' : Env) (msgId : string) (meta1 meta2 : Metadata)
    (w w1 w2 : World) (b1 b2 : bool) :
  MessageTracker.markMessageAsProcessed E1 msgId meta1 w = (Ok b1, w1) ->
  MessageTracker.markMessageAsProcessed E2 msgId meta2 w1 = (Ok b2, w2) ->
  tracker_unreachable E' (tick w2) = false ->
  (now E' < now E2 + 86400 * 1000)%Z ->
  MessageTracker.getMessageProcessInfo E' msgId w2
  = (Ok (Some {| msgId := msgId; processedAt := now E2; metadata := meta2 |}),
     next_tick w2).
Proof.
  intros _ Hmark2 Hread Hlive.
  apply markMessageAsProcessed_inv_ok in Hmark2 as (_ & Hledger & _).
  rewrite getMessageProcessInfo_run, Hread, Hledger.
  by rewrite kv_get_put.
Qed.

Lemma remarking_overwrites_the_record_witness :
  let E := quiet_env None in
  let once :=
    MessageTracker.markMessageAsProcessed E "m1"
      (MessageMeta "u" "q" None (Some AiError) false) empty_world in
  let twice :=
    MessageTracker.markMessageAsProcessed (at_time 5000 E) "m1"
      (MessageMeta "u" "q" (Some "a") None true) once.2 in
  (MessageTracker.getMessageProcessInfo (at_time 6000 E) "m1" twice.2).1
  = Ok (Some {| msgId := "m1"; processedAt := 5000;
                metadata := MessageMeta "u" "q" (Some "a") None true |}).
Proof.
  intros E once twice.
  rewrite (remarking_overwrites_the_record E (at_time 5000 E) (at_time 6000 E) "m1"
             (MessageMeta "u" "q" None (Some AiError) false)
             (MessageMeta "u" "q" (Some "a") None true)
             empty_world once.2 twice.2 true true); reflexivity.
Defined.

(** X6.  [removeMessageRecord]: when the store answers, the id is reported
    unprocessed afterwards, the records of other ids stay, and removing an id
    that has no record changes nothing and does not fail; when the store
    does not answer, the error is thrown and nothing is removed. *)
Theorem removeMessageRecord_removes
    (E : Env) (msgId : string) (w : World) :
  let key := MessageTracker.getMessageKey msgId in
  let run := MessageTracker.removeMessageRecord E msgId w in
  (tracker_unreachable E (tick w) = false ->
   run.1 = Ok tt
   /\ (forall E', reported_processed E' run.2 msgId = false)
   /\ (forall other, other <> msgId ->
         ledger run.2 !! MessageTracker.getMessageKey other
         = ledger w !! MessageTracker.getMessageKey other)
   /\ (ledger w !! key = None -> ledger run.2 = ledger w))
  /\ (tracker_unreachable E (tick w) = true ->
      run.1 = Throw (KvError (tick w)) /\ ledger run.2 = ledger w).
Proof.
  intros key run. subst run.
  unfold MessageTracker.removeMessageRecord, try_catch, tracker_delete, throw.
  destruct (tracker_unreachable E (tick w)); split; try done; intros _; simpl.
  split; [done|]. split; [|split].
  - intros E'. unfold reported_processed, kv_get, kv_delete. simpl.
    rewrite lookup_delete_eq. by rewrite andb_false_r.
  - intros other Hother. unfold kv_delete. apply lookup_delete_ne.
    intros Heq. by apply getMessageKey_inj in Heq.
  - intros Habsent. unfold kv_delete. by apply delete_id.
Qed.

Lemma removeMessageRecord_removes_witness :
  let E := quiet_env None in
  let marked :=
    MessageTracker.markMessageAsProcessed E "m1" (MessageMeta "u" "q" None None true)
      empty_world in
  (MessageTracker.removeMessageRecord E "m1" marked.2).1 = Ok tt
  /\ reported_processed E (MessageTracker.removeMessageRecord E "m1" marked.2).2 "m1"
     = false.
Proof.
  intros E marked.
  destruct (removeMessageRecord_removes E "m1" marked.2) as [Hok _].
  destruct Hok as (Hrun & Hgone & _); [reflexivity|].
  split; [exact Hrun|apply Hgone].
Defined.

(** X7.  Records are kept per id: marking one id changes what the tracker
    reports for no other id.  (Call-level and message-level ids share the one
    key space [processed_msg:<id>].) *)
Theorem marking_leaves_other_ids_alone
    (E E' : Env) (msgId other : string) (meta : Metadata) (w : World) :
  other <> msgId ->
  let w1 := (MessageTracker.markMessageAsProcessed E msgId meta w).2 in
  ledger w1 !! MessageTracker.getMessageKey other
  = ledger w !! MessageTracker.getMessageKey other
  /\ (tracker_unreachable E' (tick w1) = tracker_unreachable E' (tick w) ->
      reported_processed E' w1 other = reported_processed E' w other).
Proof.
  intros Hother w1.
  assert (Hsame : ledger w1 !! MessageTracker.getMessageKey other
                  = ledger w !! MessageTracker.getMessageKey other).
  { apply (markMessageAsProcessed_touches E msgId meta w).
    intros Heq. by apply getMessageKey_inj in Heq. }
  split; [exact Hsame|].
  intros Htick. unfold reported_processed, kv_get. by rewrite Htick, Hsame.
Qed.

Lemma marking_leaves_other_ids_alone_witness :
  let E := quiet_env None in
  let w1 :=
    (MessageTracker.markMessageAsProcessed E "signature"
       (CallbackMeta "1700000000" "n1" None true) empty_world).2 in
  ledger w1 !! MessageTracker.getMessageKey "m1" = None.
Proof.
  intros E w1.
  destruct (marking_leaves_other_ids_alone E E "signature" "m1"
              (CallbackMeta "1700000000" "n1" None true) empty_world) as [Hsame _].
  - discriminate.
  - exact Hsame.
Defined.

Lemma foldl_insert_absent {V} (pairs : list (string * V)) (k : string) :
  k ∉ pairs.*1 ->
  foldl (fun results r => <[r.1 := r.2]> results) (∅ : gmap string V) pairs !! k = None.
Proof.
  induction pairs as [|r pairs IH] using rev_ind; intros Hnotin; [done|].
  rewrite foldl_app. simpl. rewrite fmap_app in Hnotin.
  apply not_elem_of_app in Hnotin as [Hpairs Hr].
  rewrite lookup_insert_ne; [by apply IH|].
  intros Heq. apply Hr. simpl. rewrite Heq. by apply list_elem_of_singleton.
Qed.

(** X8.  While the store answers, the result of [checkMultipleMessages] has
    an entry for exactly the ids that were asked about (asked twice or not),
    and the entry says whether the id has a record that has not expired; the
    ledger itself is left as it was. *)
Theorem checkMultipleMessages_reports_the_ledger
    (E : Env) (msgIds : list string) (w : World) :
  (forall t, tracker_unreachable E t = false) ->
  exists results w',
    MessageTracker.checkMultipleMessages E msgIds w = (Ok results, w')
    /\ ledger w' = ledger w
    /\ forall id,
         results !! id
         = if decide (id ∈ msgIds)
           then Some (bool_decide
                        (kv_get (ledger w) (MessageTracker.getMessageKey id) (now E)
                         <> None))
           else None.
Proof.
  intros Hreach. eexists _, _. split; [|split].
  - unfold MessageTracker.checkMultipleMessages.
    erewrite try_catch_ok; [reflexivity|].
    erewrite bind_ok by apply check_each_run. reflexivity.
  - done.
  - intros id. destruct (decide (id ∈ msgIds)) as [Hin|Hnotin].
    + apply foldl_insert_all; [by rewrite imap_keys|].
      intros r Hr Hkey. apply elem_of_lookup_imap in Hr as (i & x & -> & Hx).
      simpl in *. subst x. unfold reported_processed. by rewrite Hreach.
    + apply foldl_insert_absent. by rewrite imap_keys.
Qed.

Lemma checkMultipleMessages_reports_the_ledger_witness :
  let E := quiet_env None in
  let marked :=
    (MessageTracker.markMessageAsProcessed E "m1" (MessageMeta "u" "q" None None true)
       empty_world).2 in
  exists results w',
    MessageTracker.checkMultipleMessages E ["m1"; "m2"; "m1"] marked = (Ok results, w')
    /\ results !! "m1" = Some true
    /\ results !! "m2" = Some false
    /\ results !! "m3" = None.
Proof.
  intros E marked.
  destruct (checkMultipleMessages_reports_the_ledger E ["m1"; "m2"; "m1"] marked)
    as (results & w' & Hrun & _ & Hres).
  - intros t. reflexivity.
  - exists results, w'. split; [exact Hrun|].
    rewrite !Hres. repeat split; by vm_compute.
Defined.

(** ** The conversation manager *)

Lemma saveConversationHistory_any E this userId history w :
  ConversationManager.saveConversationHistory E this userId history w
  = let trimmed :=
      if ConversationManager.maxHistoryLength this + 1 <? length history
      then match history with
           | first :: _ =>
               first :: ConversationManager.slice_last
                          (ConversationManager.maxHistoryLength this) history
           | [] => []
           end
      else history in
    if conversations_unreachable E (tick w)
    then (Throw (KvError (tick w)), next_tick w)
    else (Ok trimmed,
          next_tick
            (set_conversations
               (kv_put (conversations w) (ConversationManager.getConversationKey userId)
                  trimmed (now E) (ConversationManager.expirationTtl this)) w)).
Proof.
  unfold ConversationManager.saveConversationHistory, try_catch, bind,
    conversations_put, ret, throw. cbv zeta.
  by destruct (conversations_unreachable E (tick w)).
Qed.

(** X9.  Whatever the store holds or does, a call of [addUserMessage] or
    [addAssistantMessage] that returns has persisted exactly the window it
    returns; that window starts with the current preamble, ends with the
    entry just appended, and has at most [1 + maxHistoryLength] entries.  A
    call that throws has written nothing. *)
Theorem append_keeps_the_cap
    (options : ConversationManager.Options) (userId : string) (a : Append) (w : World) :
  let this := ConversationManager.new options in
  let run := run_append this userId a w in
  (forall window,
     run.1 = Ok window ->
     conversations run.2 !! ConversationManager.getConversationKey userId
     = Some (window,
             (now (append_env a) + ConversationManager.expirationTtl this * 1000)%Z)
     /\ head window = Some (ConversationManager.system_entry this)
     /\ last window = Some (appended_entry a)
     /\ length window <= 1 + ConversationManager.maxHistoryLength this)
  /\ (forall e, run.1 = Throw e -> conversations run.2 = conversations w).
Proof.
  intros this run.
  pose proof (maxHistoryLength_positive options) as Hpos. fold this in Hpos.
  clearbody this.
  set (h := if conversations_unreachable (append_env a) (tick w) then []
            else stored_tail
                   (kv_get (conversations w)
                      (ConversationManager.getConversationKey userId)
                      (now (append_env a)))).
  assert (Hrun : run
    = ConversationManager.saveConversationHistory (append_env a) this userId
        (ConversationManager.system_entry this :: (h ++ [appended_entry a]))
        (next_tick w)).
  { subst run h. unfold run_append, ConversationManager.addUserMessage,
      ConversationManager.addAssistantMessage, appended_entry.
    destruct (speaker a).
    all: erewrite bind_ok by apply getConversationHistory_run.
    all: by rewrite <- app_comm_cons. }
  rewrite Hrun, saveConversationHistory_any. cbv zeta.
  rewrite (trimmed_window this Hpos (h ++ [appended_entry a])).
  destruct (conversations_unreachable (append_env a) (tick (next_tick w))).
  { split; [done|]. by intros e _. }
  split; [|done]. intros window [= <-]. cbn [fst snd conversations next_tick set_conversations].
  split; [unfold kv_put; by rewrite lookup_insert_eq|]. split; [done|].
  rewrite length_app. cbn [length].
  rewrite drop_app_le by lia. split.
  - rewrite app_comm_cons. apply last_snoc.
  - cbn [length]. rewrite length_app, length_drop. cbn [length]. lia.
Qed.

Lemma append_keeps_the_cap_witness :
  let E := kv_failing_at 0 (quiet_env None) in
  let a := {| append_env := E; speaker := FromUser; said := "hello" |} in
  let run := run_append (conversationManager E) "user-1" a empty_world in
  exists window,
    run.1 = Ok window
    /\ last window = Some (appended_entry a)
    /\ length window <= 11.
Proof.
  intros E a run.
  destruct (append_keeps_the_cap
              {| ConversationManager.opt_maxHistoryLength := Some 10;
                 ConversationManager.opt_expirationTtl := Some 86400%Z;
                 ConversationManager.opt_systemPrompt :=
                   Some "you are helpful assistant" |}
              "user-1" a empty_world) as [Hok _].
  eexists. split; [reflexivity|].
  destruct (Hok _ eq_refl) as (_ & _ & Hlast & Hlen). split; [exact Hlast|exact Hlen].
Defined.

Lemma getConversationKey_inj userId1 userId2 :
  ConversationManager.getConversationKey userId1
  = ConversationManager.getConversationKey userId2 ->
  userId1 = userId2.
Proof.
  unfold ConversationManager.getConversationKey. intros Heq.
  by apply String.app_inj in Heq.
Qed.

(** X10.  [clearConversationHistory]: when the store answers, the next
    window of the user is the preamble alone, whoever reads it and whenever,
    the windows of other users stay, and clearing a user who has no window
    changes nothing and does not fail; when the store does not answer, the
    error is thrown and the window stays. *)
Theorem clearConversationHistory_clears (E : Env) (userId : string) (w : World) :
  let run := ConversationManager.clearConversationHistory E userId w in
  (conversations_unreachable E (tick w) = false ->
   run.1 = Ok tt
   /\ (forall E' this',
         (ConversationManager.getConversationHistory E' this' userId run.2).1
         = Ok [ConversationManager.system_entry this'])
   /\ (forall other, other <> userId ->
         conversations run.2 !! ConversationManager.getConversationKey other
         = conversations w !! ConversationManager.getConversationKey other)
   /\ (conversations w !! ConversationManager.getConversationKey userId = None ->
       conversations run.2 = conversations w))
  /\ (conversations_unreachable E (tick w) = true ->
      run.1 = Throw (KvError (tick w)) /\ conversations run.2 = conversations w).
Proof.
  intros run. subst run.
  unfold ConversationManager.clearConversationHistory, try_catch,
    conversations_delete, throw.
  destruct (conversations_unreachable E (tick w)); split; try done; intros _; simpl.
  split; [done|]. split; [|split].
  - intros E' this'. rewrite getConversationHistory_run. simpl.
    destruct (conversations_unreachable E' (S (tick w))); [done|].
    unfold kv_get, kv_delete. by rewrite lookup_delete_eq.
  - intros other Hother. unfold kv_delete. apply lookup_delete_ne.
    intros Heq. by apply getConversationKey_inj in Heq.
  - intros Habsent. unfold kv_delete. by apply delete_id.
Qed.

Lemma clearConversationHistory_clears_witness :
  let E := quiet_env None in
  let this := conversationManager E in
  let w := run_appends this "user-1" (eleven_questions E E) empty_world in
  (ConversationManager.getConversationHistory E this "user-1"
     (ConversationManager.clearConversationHistory E "user-1" w).2).1
  = Ok [ConversationManager.system_entry this].
Proof.
  intros E this w.
  destruct (clearConversationHistory_clears E "user-1" w) as [Hok _].
  destruct Hok as (_ & Hwindow & _); [reflexivity|]. apply Hwindow.
Defined.

Lemma count_by_role (entries : list ConversationEntry) :
  Forall (fun e => role e <> system) entries ->
  length (filter (fun msg => role msg = user) entries)
  + length (filter (fun msg => role msg = assistant) entries)
  = length entries.
Proof.
  induction 1 as [|e entries He _ IH]; [done|].
  rewrite !filter_cons. destruct e as [[] c t]; simpl in *; [done|..].
  all: repeat case_decide; try done; rewrite ?Nat.add_succ_r; f_equal; exact IH.
Qed.

Lemma last_drop_lt {A} (k : nat) (l : list A) :
  k < length l -> last (drop k l) = last l.
Proof.
  intros Hk. rewrite !last_lookup, lookup_drop, length_drop. f_equal. lia.
Qed.

(** X11.  The statistics of a user whose window was built by calls of
    [addUserMessage]/[addAssistantMessage] (the store answering, no window
    before the first call, no expiry in between): [totalMessages] is the
    number of calls, capped at [maxHistoryLength]; [userMessages] and
    [assistantMessages] add up to it; [lastActivity] is the time of the last
    call; and reading the statistics changes no store. *)
Theorem stats_after_appends
    (options : ConversationManager.Options) (userId : string)
    (a : Append) (rest : list Append) (E' : Env) (w : World) :
  Forall (fun a => conversations_ok (append_env a)) (a :: rest) ->
  within_ttl (ConversationManager.expirationTtl (ConversationManager.new options))
    ((now ∘ append_env <$> a :: rest) ++ [now E']) ->
  kv_get (conversations w) (ConversationManager.getConversationKey userId)
    (now (append_env a)) = None ->
  conversations_unreachable E'
    (tick (run_appends (ConversationManager.new options) userId (a :: rest) w)) = false ->
  let this := ConversationManager.new options in
  let w' := run_appends this userId (a :: rest) w in
  exists stats,
    getConversationStats E' this userId w' = (Ok stats, next_tick w')
    /\ totalMessages stats
       = Nat.min (length (a :: rest)) (ConversationManager.maxHistoryLength this)
    /\ userMessages stats + assistantMessages stats = totalMessages stats
    /\ lastActivity stats = (fun x => now (append_env x)) <$> last (a :: rest).
Proof.
  intros Hok Htime Hnew Hread. cbv zeta.
  pose proof (maxHistoryLength_positive options) as Hpos.
  set (this := ConversationManager.new options) in *.
  set (w' := run_appends this userId (a :: rest) w) in *.
  pose proof (run_appends_stored this userId Hpos rest a w (now E') Hok Htime) as Hstored.
  cbv zeta in Hstored. fold w' in Hstored. rewrite Hnew in Hstored.
  change (stored_tail None ++ ?x) with x in Hstored.
  set (entries := appended_entry <$> a :: rest) in *.
  set (kept := drop (length entries - ConversationManager.maxHistoryLength this) entries)
    in *.
  assert (Hroles : Forall (fun e => role e <> system) kept).
  { apply Forall_drop, Forall_fmap, Forall_forall. intros x _. simpl.
    by destruct (speaker x). }
  assert (Hlen : length kept
                 = Nat.min (length (a :: rest)) (ConversationManager.maxHistoryLength this)).
  { subst kept entries. rewrite length_drop, length_fmap. lia. }
  assert (Hlast : last kept = appended_entry <$> last (a :: rest)).
  { subst kept. rewrite last_drop_lt.
    - subst entries. by rewrite fmap_last.
    - subst entries. rewrite length_fmap. cbn [length]. lia. }
  unfold getConversationStats.
  erewrite try_catch_ok;
    [|erewrite bind_ok by apply getConversationHistory_run; reflexivity].
  rewrite Hread, Hstored, stored_tail_preamble.
  eexists. split; [reflexivity|]. cbn [totalMessages userMessages assistantMessages lastActivity].
  assert (Hsome : 0 < length kept) by (rewrite Hlen; cbn [length]; lia).
  rewrite <- Hlen. clear Hlen.
  split; [cbn [length]; lia|]. split.
  - rewrite !filter_cons. cbn [role ConversationManager.system_entry].
    repeat case_decide; try done. cbn [length].
    rewrite count_by_role by done. lia.
  - cbn [length]. replace (1 <? S (length kept)) with true
      by (symmetry; apply Nat.ltb_lt; lia).
    rewrite last_cons, Hlast.
    by destruct (last (a :: rest)).
Qed.

Lemma stats_after_appends_witness :
  let E := quiet_env None in
  let this := conversationManager E in
  let w' := run_appends this "user-1" (eleven_questions E (at_time 2000 E)) empty_world in
  exists stats,
    getConversationStats (at_time 3000 E) this "user-1" w' = (Ok stats, next_tick w')
    /\ totalMessages stats = 10
    /\ lastActivity stats = Some 2000%Z.
Proof.
  intros E this w'.
  destruct (stats_after_appends
              {| ConversationManager.opt_maxHistoryLength := Some 10;
                 ConversationManager.opt_expirationTtl := Some 86400%Z;
                 ConversationManager.opt_systemPrompt :=
                   Some "you are helpful assistant" |}
              "user-1"
              {| append_env := E; speaker := FromUser; said := "q1" |}
              (tail (eleven_questions E (at_time 2000 E)))
              (at_time 3000 E) empty_world)
    as (stats & Hrun & Htotal & _ & Hlast).
  - repeat constructor; intros t; reflexivity.
  - simpl. repeat split; reflexivity.
  - reflexivity.
  - reflexivity.
  - exists stats. split; [exact Hrun|]. split; [exact Htotal|exact Hlast].
Defined.

(** ** More on the reply dispatch *)

Section DispatchMore.

Variable E : Env.
Variables externalUserid msgKfId msgid question value : string.

(** Past the chunk count, only the last chunk is replaced by the file. *)
Lemma chunk_events_late total chunks : forall i t,
  i + length chunks = total ->
  messageChunkCount <= i ->
  chunk_events E externalUserid msgKfId msgid question value total i chunks t
  = (TextMessage externalUserid msgKfId <$> removelast chunks)
    ++ match chunks with
       | [] => []
       | _ => note_events E externalUserid msgKfId msgid question value
                (t + length chunks - 1)
       end.
Proof.
  unfold messageChunkCount.
  induction chunks as [|chunk rest IH]; intros i t Htotal Hlate; [done|].
  simpl in Htotal. cbn [chunk_events].
  replace (i + 1 =? messageChunkCount) with false
    by (symmetry; apply Nat.eqb_neq; unfold messageChunkCount; lia).
  destruct rest as [|chunk' rest].
  - replace (i =? total - 1) with true by (symmetry; apply Nat.eqb_eq; simpl in *; lia).
    simpl. by replace (t + 1 - 1) with t by lia.
  - replace (i =? total - 1) with false
      by (symmetry; apply Nat.eqb_neq; simpl in *; lia).
    simpl orb. cbv iota. rewrite IH by (simpl in *; lia).
    change (removelast (chunk :: chunk' :: rest))
      with (chunk :: removelast (chunk' :: rest)).
    rewrite fmap_cons. simpl app. do 3 f_equal. simpl. lia.
Qed.

(** The requests of the chunk loop in order of their ticks: when the
    request at position [k] is the first to fail, the loop throws there and
    the requests before it are the ones the gateway accepted. *)
Lemma send_chunks_abort total chunks : forall i w k,
  k < length (chunk_events E externalUserid msgKfId msgid question value total i chunks
                (tick w)) ->
  (forall j, j < k -> gateway_fails E (tick w + j) = false) ->
  gateway_fails E (tick w + k) = true ->
  exists w',
    send_chunks E externalUserid msgKfId msgid question value total i chunks w
    = (Throw (GatewayError (tick w + k)), w')
    /\ outbox w'
       = outbox w
         ++ take k (chunk_events E externalUserid msgKfId msgid question value total i
                      chunks (tick w))
    /\ tick w' = tick w + k + 1.
Proof.
  induction chunks as [|chunk rest IH]; intros i w k Hk Hbefore Hfail;
    [simpl in Hk; lia|].
  cbn [send_chunks chunk_events] in *.
  destruct ((i + 1 =? messageChunkCount) || (i =? total - 1)).
  - (* the file *)
    destruct k as [|[|k]].
    + exists (next_tick w). rewrite Nat.add_0_r in *.
      unfold bind, wireNote, bind, WeChatClient.uploadMedia. rewrite Hfail.
      simpl. rewrite app_nil_r. repeat split; lia.
    + pose proof (Hbefore 0 ltac:(lia)) as Hup. rewrite Nat.add_0_r in Hup.
      eexists. unfold bind, wireNote, bind, WeChatClient.uploadMedia,
        WeChatClient.sendFileMessage.
      rewrite Hup. simpl tick. replace (S (tick w)) with (tick w + 1) by lia.
      rewrite Hfail. split; [reflexivity|]. simpl. split; [done|lia].
    + pose proof (Hbefore 0 ltac:(lia)) as Hup. rewrite Nat.add_0_r in Hup.
      pose proof (Hbefore 1 ltac:(lia)) as Hsend.
      assert (Hnote : wireNote E externalUserid msgKfId msgid question value w
                = (Ok tt, sent (note_events E externalUserid msgKfId msgid question value
                                  (tick w)) w)).
      { unfold wireNote, bind, WeChatClient.uploadMedia, WeChatClient.sendFileMessage.
        rewrite Hup. simpl tick. replace (S (tick w)) with (tick w + 1) by lia.
        rewrite Hsend. unfold sent, next_tick, push_outbox, note_events. simpl.
        do 2 f_equal; [by rewrite <- app_assoc|lia]. }
      erewrite bind_ok by exact Hnote.
      destruct (IH (S i) (sent (note_events E externalUserid msgKfId msgid question value
                                  (tick w)) w) k) as (w' & Hrun & Hout & Htick).
      * simpl tick. simpl length. rewrite length_app in Hk. simpl in Hk. lia.
      * intros j Hj. simpl tick. simpl length.
        replace (tick w + 2 + j) with (tick w + S (S j)) by lia. apply Hbefore. lia.
      * simpl tick. simpl length.
        by replace (tick w + 2 + k) with (tick w + S (S k)) by lia.
      * exists w'. simpl tick in *. simpl length in *.
        replace (tick w + 2 + k) with (tick w + S (S k)) in Hrun by lia.
        split; [exact Hrun|]. split; [|lia].
        rewrite Hout. simpl. by rewrite <- app_assoc.
  - (* a text chunk *)
    destruct k as [|k].
    + exists (next_tick w). rewrite Nat.add_0_r in *.
      unfold bind. rewrite sendTextMessage_fail by done. simpl.
      rewrite app_nil_r. repeat split; lia.
    + pose proof (Hbefore 0 ltac:(lia)) as Hsend. rewrite Nat.add_0_r in Hsend.
      erewrite bind_ok by (by apply sendTextMessage_ok).
      destruct (IH (S i) (sent [TextMessage externalUserid msgKfId chunk] w) k)
        as (w' & Hrun & Hout & Htick).
      * simpl tick. simpl length. simpl in Hk. lia.
      * intros j Hj. simpl tick. simpl length.
        replace (tick w + 1 + j) with (tick w + S j) by lia. apply Hbefore. lia.
      * simpl tick. simpl length.
        by replace (tick w + 1 + k) with (tick w + S k) by lia.
      * exists w'. simpl tick in *. simpl length in *.
        replace (tick w + 1 + k) with (tick w + S k) in Hrun by lia.
        split; [exact Hrun|]. split; [|lia].
        rewrite Hout. simpl. by rewrite <- app_assoc.
Qed.

End DispatchMore.

(** X12.  The chunk loop has no [break].  When no request fails and the
    trimmed reply splits into six chunks or more, the dispatch sends chunks 1
    to 4 as text, uploads and sends the file at chunk 5, goes on to send
    chunks 6 to n-1 as text, and uploads and sends the same file a second
    time at the last chunk; chunk 5 and the last chunk are never sent as
    text. *)
Theorem long_reply_sends_the_file_twice
    (E : Env) (externalUserid msgKfId msgid question s : string) (w : World) :
  gateway_ok E ->
  6 <= length (splitStringByLength (JsString.trim s) messageChunkSize) ->
  let chunks := splitStringByLength (JsString.trim s) messageChunkSize in
  exists w',
    dispatchReply E externalUserid msgKfId msgid question s w = (Ok tt, w')
    /\ outbox w'
       = outbox w
         ++ (TextMessage externalUserid msgKfId <$> take 4 chunks)
         ++ note_events E externalUserid msgKfId msgid question s (tick w + 4)
         ++ (TextMessage externalUserid msgKfId <$> removelast (drop 5 chunks))
         ++ note_events E externalUserid msgKfId msgid question s
              (tick w + length chunks).
Proof.
  intros Hok Hmany. cbv zeta. unfold dispatchReply.
  assert (Hlong : messageChunkSize < String.length s).
  { apply many_chunks_long_reply. unfold messageChunkCount. lia. }
  apply Nat.ltb_lt in Hlong. rewrite Hlong.
  revert Hmany.
  generalize (splitStringByLength (JsString.trim s) messageChunkSize).
  intros chunks Hmany.
  rewrite send_chunks_ok by done. eexists. split; [reflexivity|].
  destruct chunks as [|c1 [|c2 [|c3 [|c4 [|c5 [|c6 more]]]]]];
    try (simpl in Hmany; lia).
  cbn [outbox sent]. f_equal.
  remember (c6 :: more) as rest eqn:Hrest.
  replace (length (c1 :: c2 :: c3 :: c4 :: c5 :: rest)) with (6 + length more)
    by (subst rest; reflexivity).
  cbn [chunk_events Nat.add Nat.sub Nat.eqb orb messageChunkCount].
  rewrite (chunk_events_late E externalUserid msgKfId msgid question s
             (6 + length more) rest 5)
    by (subst rest; unfold messageChunkCount; simpl; lia).
  subst rest. cbn [take drop fmap list_fmap app length].
  replace (tick w + 1 + 1 + 1 + 1) with (tick w + 4) by lia.
  replace (tick w + 4 + 2 + S (length more) - 1)
    with (tick w + S (S (S (S (S (S (length more))))))) by lia.
  reflexivity.
Qed.

Lemma long_reply_sends_the_file_twice_witness :
  let s := JsString.repeat "a" 8000 in
  let chunks := splitStringByLength (JsString.trim s) messageChunkSize in
  exists w',
    dispatchReply (quiet_env None) "user-1" "kf-1" "m1" "q" s empty_world = (Ok tt, w')
    /\ outbox w'
       = outbox empty_world
         ++ (TextMessage "user-1" "kf-1" <$> take 4 chunks)
         ++ note_events (quiet_env None) "user-1" "kf-1" "m1" "q" s (tick empty_world + 4)
         ++ (TextMessage "user-1" "kf-1" <$> removelast (drop 5 chunks))
         ++ note_events (quiet_env None) "user-1" "kf-1" "m1" "q" s
              (tick empty_world + length chunks).
Proof.
  intros s chunks.
  apply (long_reply_sends_the_file_twice (quiet_env None) "user-1" "kf-1" "m1" "q" s
           empty_world).
  - intros t. reflexivity.
  - apply Nat.leb_le. by vm_compute.
Defined.

(** X13.  A reply longer than the chunk size that consists of white space
    only is dispatched as nothing at all: no request is made, whatever the
    gateway would do, and the dispatch returns normally. *)
Theorem blank_reply_sends_nothing
    (E : Env) (externalUserid msgKfId msgid question s : string) (w : World) :
  messageChunkSize < String.length s ->
  JsString.trim s = "" ->
  dispatchReply E externalUserid msgKfId msgid question s w = (Ok tt, w).
Proof.
  intros Hlong Hblank. unfold dispatchReply.
  apply Nat.ltb_lt in Hlong. by rewrite Hlong, Hblank.
Qed.

Lemma blank_reply_sends_nothing_witness :
  dispatchReply (gateway_down (quiet_env None)) "user-1" "kf-1" "m1" "q"
    (JsString.repeat " " 1025) empty_world
  = (Ok tt, empty_world).
Proof.
  apply blank_reply_sends_nothing; [apply Nat.ltb_lt|]; by vm_compute.
Defined.

Lemma dispatchReply_abort
    (E : Env) (externalUserid msgKfId msgid question s : string) (w : World) (k : nat) :
  k < length (dispatch_events E externalUserid msgKfId msgid question s (tick w)) ->
  (forall j, j < k -> gateway_fails E (tick w + j) = false) ->
  gateway_fails E (tick w + k) = true ->
  exists w',
    dispatchReply E externalUserid msgKfId msgid question s w
    = (Throw (GatewayError (tick w + k)), w')
    /\ outbox w'
       = outbox w
         ++ take k (dispatch_events E externalUserid msgKfId msgid question s (tick w))
    /\ tick w' = tick w + k + 1.
Proof.
  unfold dispatchReply, dispatch_events. intros Hk Hbefore Hfail.
  destruct (messageChunkSize <? String.length s).
  - by apply send_chunks_abort.
  - simpl in Hk. assert (k = 0) as -> by lia. rewrite Nat.add_0_r in *.
    exists (next_tick w). rewrite sendTextMessage_fail by done.
    split; [done|]. simpl. rewrite app_nil_r. split; [done|lia].
Qed.

(** X14.  A failing request ends the dispatch: when the request at position
    [k] of the dispatch is the first the gateway refuses, [dispatchReply]
    throws that error, the [k] requests before it are the ones that went out,
    in order, and no later request is made. *)
Theorem failed_send_aborts_the_dispatch
    (E : Env) (externalUserid msgKfId msgid question s : string) (w : World) (k : nat) :
  k < length (dispatch_events E externalUserid msgKfId msgid question s (tick w)) ->
  (forall j, j < k -> gateway_fails E (tick w + j) = false) ->
  gateway_fails E (tick w + k) = true ->
  exists w',
    dispatchReply E externalUserid msgKfId msgid question s w
    = (Throw (GatewayError (tick w + k)), w')
    /\ outbox w'
       = outbox w
         ++ take k (dispatch_events E externalUserid msgKfId msgid question s (tick w))
    /\ tick w' = tick w + k + 1.
Proof. apply dispatchReply_abort. Qed.

Lemma failed_send_aborts_the_dispatch_witness :
  let E := quiet_env None in
  let refusing :=
    {| now := now E; MESSAGE_TRACKER := true; CONVERSATIONS := true;
       SYSTEM_PROMPT := None; kv_fails := kv_fails E;
       gateway_fails := fun t => t =? 2;
       upload_media_id := upload_media_id E; sync_reply := sync_reply E;
       ai_config_valid := true; ai_reply := ai_reply E; crypt_params := true;
       xml_extract := xml_extract E; svc_getSignature := svc_getSignature E;
       svc_decrypt := svc_decrypt E; xml_parse := xml_parse E |} in
  let s := JsString.repeat "a" 3000 in
  exists w',
    dispatchReply refusing "user-1" "kf-1" "m1" "q" s empty_world
    = (Throw (GatewayError 2), w')
    /\ outbox w'
       = [TextMessage "user-1" "kf-1" (JsString.repeat "a" 1024);
          TextMessage "user-1" "kf-1" (JsString.repeat "a" 1024)].
Proof.
  intros E refusing s.
  destruct (failed_send_aborts_the_dispatch refusing "user-1" "kf-1" "m1" "q" s
              empty_world 2) as (w' & Hrun & Hout & _).
  - apply Nat.ltb_lt. by vm_compute.
  - intros [|[|j]] Hj; [reflexivity|reflexivity|lia].
  - reflexivity.
  - exists w'. split; [exact Hrun|]. rewrite Hout. by vm_compute.
Defined.

(** ** More on the orchestrator *)

Lemma bind_inv_throw {A B} (c : M A) (k : A -> M B) w e w' :
  bind c k w = (Throw e, w') ->
  c w = (Throw e, w')
  \/ exists a w'', c w = (Ok a, w'') /\ k a w'' = (Throw e, w').
Proof.
  unfold bind. destruct (c w) as [[a|e'|] w'']; [eauto|intros [= <- <-]; by left|done].
Qed.

Lemma try_catch_inv_throw {A} (body : M A) handler w e w' :
  try_catch body handler w = (Throw e, w') ->
  exists e0 w0, body w = (Throw e0, w0) /\ handler e0 w0 = (Throw e, w').
Proof.
  unfold try_catch. destruct (body w) as [[a|e0|] w0]; [done|eauto|done].
Qed.

Lemma markMessageAsProcessed_inv_throw E msgId metadata w e w' :
  MessageTracker.markMessageAsProcessed E msgId metadata w = (Throw e, w') ->
  e = KvError (tick w) /\ tracker_unreachable E (tick w) = true /\ w' = next_tick w.
Proof.
  rewrite markMessageAsProcessed_run.
  destruct (tracker_unreachable E (tick w)); [|done]. by intros [= <- <-].
Qed.

(** X15.  No failure of the model, of the gateway or of the conversation
    store escapes [processUserMessage]: it throws only when a KV binding is
    missing, before anything was done, or when the ledger write that records
    the outcome of a failed run fails itself. *)
Theorem processUserMessage_throws_only_storage_errors
    (E : Env) (externalUserid question msgid msgKfId : string) (w w' : World)
    (e : Error) :
  processUserMessage E externalUserid question msgid msgKfId w = (Throw e, w') ->
  (e = KvNotConfigured /\ w' = w
   /\ (CONVERSATIONS E = false \/ MESSAGE_TRACKER E = false))
  \/ exists t, e = KvError t /\ tracker_unreachable E t = true /\ tick w' = S t.
Proof.
  unfold processUserMessage. intros Hrun.
  destruct (CONVERSATIONS E) eqn:Hconv; simpl in Hrun.
  2: { left. injection Hrun as <- <-. repeat split; auto. }
  destruct (MESSAGE_TRACKER E) eqn:Htrk; simpl in Hrun.
  2: { left. injection Hrun as <- <-. repeat split; auto. }
  right. unfold bind at 1 in Hrun. rewrite isMessageProcessed_run in Hrun.
  destruct (reported_processed E w msgid); [done|].
  apply try_catch_inv_throw in Hrun as (e0 & w0 & _ & Hhandler).
  apply bind_inv_throw in Hhandler as [Hsend|(? & w1 & _ & Hmark)].
  - unfold try_catch in Hsend.
    destruct (WeChatClient.sendTextMessage E externalUserid msgKfId errorMessage w0)
      as [[?|?|] ?]; done.
  - apply bind_inv_throw in Hmark as [Hmark|(? & ? & _ & ?)]; [|done].
    apply markMessageAsProcessed_inv_throw in Hmark as (-> & Hun & ->).
    by exists (tick w1).
Qed.

Lemma processUserMessage_throws_only_storage_errors_witness :
  exists t,
    (processUserMessage offline_env "user-1" "hi" "m1" "kf-1" empty_world).1
    = Throw (KvError t)
    /\ tracker_unreachable offline_env t = true.
Proof.
  destruct (processUserMessage_throws_only_storage_errors offline_env "user-1" "hi" "m1"
              "kf-1" empty_world
              (processUserMessage offline_env "user-1" "hi" "m1" "kf-1" empty_world).2
              (KvError 4))
    as [(Habs & _)|(t & Ht & Hun & _)]; [reflexivity|discriminate|].
  exists t. split; [|exact Hun]. rewrite <- Ht. reflexivity.
Defined.

(** X16.  Nothing but a failed ledger write escapes [handleCallbackAsync]:
    when it throws, the error is that of the write that was to mark the call
    as failed. *)
Theorem handleCallbackAsync_throws_only_ledger_errors
    (E : Env) (fuel : nat) (postData : string) (params : Params) (w w' : World)
    (e : Error) :
  handleCallbackAsync E fuel postData params w = (Throw e, w') ->
  exists t, e = KvError t /\ tracker_unreachable E t = true /\ tick w' = S t.
Proof.
  unfold handleCallbackAsync. intros Hrun.
  apply try_catch_inv_throw in Hrun as (e0 & w0 & _ & Hhandler).
  apply bind_inv_throw in Hhandler as [Hmark|(? & ? & _ & ?)]; [|done].
  apply markMessageAsProcessed_inv_throw in Hmark as (-> & Hun & ->).
  by exists (tick w0).
Qed.

Lemma handleCallbackAsync_throws_only_ledger_errors_witness :
  exists t,
    (handleCallbackAsync offline_env 5 "post-data" genuine_call empty_world).1
    = Throw (KvError t)
    /\ tracker_unreachable offline_env t = true.
Proof.
  destruct (handleCallbackAsync_throws_only_ledger_errors offline_env 5 "post-data"
              genuine_call empty_world
              (handleCallbackAsync offline_env 5 "post-data" genuine_call empty_world).2
              (KvError 2))
    as (t & Ht & Hun & _); [reflexivity|].
  exists t. split; [|exact Hun]. rewrite <- Ht. reflexivity.
Defined.

(** X17.  A failing sync is fatal to the call and to nothing else: when the
    envelope is authentic and the first sync request fails, the call is
    marked as failed with that error (if the ledger takes the write), no
    message-level record is written, no conversation is touched and nothing
    is sent. *)
Theorem failed_sync_marks_the_call
    (E : Env) (fuel : nat) (postData : string) (params : Params) (w : World)
    (tok kf : string) :
  crypt_params E = true ->
  WXBizMsgCrypt.ret_code (decrypted E postData params) = 0%Z ->
  xml_parse E (default "" (WXBizMsgCrypt.decryptedXml (decrypted E postData params)))
  = Some (tok, kf) ->
  sync_reply E (tick w) tok kf None = None ->
  tracker_unreachable E (S (tick w)) = false ->
  exists w',
    handleCallbackAsync E (S fuel) postData params w = (Ok tt, w')
    /\ ledger w'
       = kv_put (ledger w) (MessageTracker.getMessageKey (msgSignature params))
           {| msgId := msgSignature params;
              processedAt := now E;
              metadata := CallbackMeta (param_timestamp params) (nonce params)
                            (Some (SyncError (tick w))) false |}
           (now E) MessageTracker.expirationTtl
    /\ conversations w' = conversations w
    /\ outbox w' = outbox w.
Proof.
  intros Hparams Hret Hxml Hsync Hledger.
  assert (Hlatest : WeChatClient.getLatestTextMessages E (S fuel) tok kf true w
                    = (Throw (SyncError (tick w)), next_tick w)).
  { unfold WeChatClient.getLatestTextMessages, WeChatClient.syncAllMessages.
    erewrite try_catch_throw; [reflexivity|].
    apply bind_throw. simpl. apply bind_throw.
    by rewrite syncMessages_run, Hsync. }
  unfold handleCallbackAsync. fold (decrypted E postData params). rewrite Hparams.
  erewrite try_catch_bind_ok by reflexivity. cbv beta zeta.
  rewrite Hret. simpl negb. cbv iota. rewrite Hxml.
  erewrite try_catch_throw by (apply bind_throw; exact Hlatest).
  erewrite bind_ok by (rewrite markMessageAsProcessed_run; simpl tick;
                       rewrite Hledger; reflexivity).
  eexists. split; [reflexivity|]. by repeat split.
Qed.

Lemma failed_sync_marks_the_call_witness :
  let E := sync_down (quiet_env None) in
  exists w',
    handleCallbackAsync E 5 "post-data" genuine_call empty_world = (Ok tt, w')
    /\ outbox w' = outbox empty_world.
Proof.
  intros E.
  destruct (failed_sync_marks_the_call E 4 "post-data" genuine_call empty_world
              "token" "kf-1") as (w' & Hrun & _ & _ & Hout); try reflexivity.
  by exists w'.
Defined.

(** *** What the steps of [processUserMessage] leave behind *)

Section Steps.

Variable E : Env.
Variables externalUserid msgKfId msgid question : string.

Lemma run_append_frame this userId a w :
  outbox (run_append this userId a w).2 = outbox w
  /\ ledger (run_append this userId a w).2 = ledger w.
Proof.
  unfold run_append, ConversationManager.addUserMessage,
    ConversationManager.addAssistantMessage.
  destruct (speaker a).
  all: erewrite bind_ok by apply getConversationHistory_run.
  all: rewrite saveConversationHistory_any; cbv zeta.
  all: by destruct (conversations_unreachable _ _).
Qed.

Lemma ask_frame this w :
  outbox (ConversationManager.processUserMessage E this externalUserid question w).2
  = outbox w.
Proof.
  pose proof (run_append_frame this externalUserid
                {| append_env := E; speaker := FromUser; said := question |} w)
    as [Hout _].
  unfold run_append in Hout. simpl in Hout.
  unfold ConversationManager.processUserMessage, try_catch, bind, ret, throw.
  by destruct (ConversationManager.addUserMessage E this externalUserid question w)
    as [[?|?|] ?].
Qed.

Lemma answer_frame this assistantMessage w :
  outbox (ConversationManager.completeAssistantReply E this externalUserid
            assistantMessage w).2
  = outbox w.
Proof.
  pose proof (run_append_frame this externalUserid
                {| append_env := E; speaker := FromAssistant; said := assistantMessage |} w)
    as [Hout _].
  unfold run_append in Hout. simpl in Hout.
  unfold ConversationManager.completeAssistantReply, try_catch, throw.
  by destruct (ConversationManager.addAssistantMessage E this externalUserid
                 assistantMessage w) as [[?|?|] ?].
Qed.

Lemma sendTextMessage_inv_ok text w a w' :
  WeChatClient.sendTextMessage E externalUserid msgKfId text w = (Ok a, w') ->
  w' = sent [TextMessage externalUserid msgKfId text] w.
Proof.
  destruct (gateway_fails E (tick w)) eqn:Hgw.
  - by rewrite (sendTextMessage_fail E externalUserid msgKfId text w Hgw).
  - rewrite (sendTextMessage_ok E externalUserid msgKfId text w Hgw).
    by intros [= _ <-].
Qed.

Lemma wireNote_inv_ok value w a w' :
  wireNote E externalUserid msgKfId msgid question value w = (Ok a, w') ->
  w' = sent (note_events E externalUserid msgKfId msgid question value (tick w)) w.
Proof.
  unfold wireNote, bind, WeChatClient.uploadMedia, WeChatClient.sendFileMessage.
  destruct (gateway_fails E (tick w)); [done|]. simpl.
  destruct (gateway_fails E (S (tick w))); [done|]. intros [= _ <-].
  unfold sent, next_tick, push_outbox, note_events. simpl.
  f_equal; [by rewrite <- app_assoc|lia].
Qed.

Lemma send_chunks_inv_ok value total chunks : forall i w w',
  send_chunks E externalUserid msgKfId msgid question value total i chunks w = (Ok tt, w') ->
  w' = sent (chunk_events E externalUserid msgKfId msgid question value total i chunks
               (tick w)) w.
Proof.
  induction chunks as [|chunk rest IH]; intros i w w' Hrun; simpl in *.
  - injection Hrun as <-. by rewrite sent_nil.
  - apply bind_inv_ok in Hrun as (a & w1 & Hstep & Hrest).
    destruct ((i + 1 =? messageChunkCount) || (i =? total - 1)).
    + apply wireNote_inv_ok in Hstep as ->.
      apply IH in Hrest as ->. by rewrite sent_sent.
    + apply sendTextMessage_inv_ok in Hstep as ->.
      apply IH in Hrest as ->. rewrite sent_sent. simpl.
      by replace (tick w + 1 + 0) with (tick w + 1) by lia.
Qed.

Lemma dispatchReply_inv_ok assistantMessage w w' :
  dispatchReply E externalUserid msgKfId msgid question assistantMessage w = (Ok tt, w') ->
  w' = sent (dispatch_events E externalUserid msgKfId msgid question assistantMessage
               (tick w)) w.
Proof.
  unfold dispatchReply, dispatch_events.
  destruct (messageChunkSize <? String.length assistantMessage).
  - apply send_chunks_inv_ok.
  - apply sendTextMessage_inv_ok.
Qed.

End Steps.

(** X18.  A message-level record with [success: true] means what it says:
    when a run that found the message unprocessed returns and the record it
    left says success, the model gave a non-empty reply, every request of its
    dispatch went out, in order, and nothing else was sent (no apology). *)
Theorem success_record_means_dispatched
    (E : Env) (externalUserid question msgid msgKfId : string) (w0 w1 : World)
    (record : ProcessingRecord) (expires : Z) :
  reported_processed E w0 msgid = false ->
  processUserMessage E externalUserid question msgid msgKfId w0 = (Ok tt, w1) ->
  ledger w1 !! MessageTracker.getMessageKey msgid = Some (record, expires) ->
  meta_success (metadata record) = true ->
  exists assistantMessage t,
    assistantMessage <> ""
    /\ metadata record
       = MessageMeta externalUserid question (Some assistantMessage) None true
    /\ outbox w1
       = outbox w0
         ++ dispatch_events E externalUserid msgKfId msgid question assistantMessage t.
Proof.
  intros Hfresh Hrun Hrecord Hsuccess. unfold processUserMessage in Hrun.
  destruct (negb (CONVERSATIONS E) || negb (MESSAGE_TRACKER E)); [done|].
  unfold bind at 1 in Hrun. rewrite isMessageProcessed_run, Hfresh in Hrun.
  apply try_catch_inv_ok in Hrun as [Hbody|(e & w' & _ & Hhandler)].
  - take_apart Hbody. take_apart Hbody. take_apart Hbody.
    destruct a1 as [assistantMessage|]; [|done].
    destruct (string_falsy assistantMessage) eqn:Hempty; [done|].
    take_apart Hbody. take_apart Hbody. take_apart Hbody.
    injection Hbody as <-.
    apply markMessageAsProcessed_inv_ok in Hstep4 as (_ & Hledger & _ & Hout4).
    rewrite Hledger in Hrecord. unfold kv_put in Hrecord.
    rewrite lookup_insert_eq in Hrecord. injection Hrecord as <- _.
    destruct a2. apply dispatchReply_inv_ok in Hstep3 as ->.
    exists assistantMessage, (tick w4). split.
    { unfold string_falsy in Hempty. by apply bool_decide_eq_false in Hempty. }
    split; [done|]. rewrite Hout4. simpl. f_equal.
    pose proof (answer_frame E externalUserid (conversationManager E) assistantMessage w3)
      as Hans. rewrite Hstep2 in Hans. simpl in Hans. rewrite Hans.
    assert (outbox w3 = outbox w2) as ->.
    { unfold chatCompletion in Hstep1.
      destruct (ai_reply E a.2) as [?|]; [|done]. by injection Hstep1 as _ <-. }
    assert (outbox w2 = outbox w) as ->.
    { destruct (ai_config_valid E); [|done]. by injection Hstep0 as _ <-. }
    pose proof (ask_frame E externalUserid question (conversationManager E) (next_tick w0))
      as Hask. rewrite Hstep in Hask. by simpl in Hask.
  - take_apart Hhandler. take_apart Hhandler. injection Hhandler as <-.
    apply markMessageAsProcessed_inv_ok in Hstep0 as (_ & Hledger & _).
    rewrite Hledger in Hrecord. unfold kv_put in Hrecord.
    rewrite lookup_insert_eq in Hrecord. injection Hrecord as <- _. done.
Qed.

Lemma success_record_means_dispatched_witness :
  let E := quiet_env (Some (Some "hello")) in
  let w1 := (processUserMessage E "user-1" "hi" "m1" "kf-1" empty_world).2 in
  exists assistantMessage t,
    outbox w1
    = outbox empty_world
      ++ dispatch_events E "user-1" "kf-1" "m1" "hi" assistantMessage t.
Proof.
  intros E w1.
  destruct (success_record_means_dispatched E "user-1" "hi" "m1" "kf-1" empty_world w1
              {| msgId := "m1"; processedAt := 1000;
                 metadata := MessageMeta "user-1" "hi" (Some "hello") None true |}
              86401000%Z)
    as (assistantMessage & t & _ & _ & Hout); try reflexivity.
  by exists assistantMessage, t.
Defined.

(** *** The two appends of a run, the store answering *)

Lemma last_kept_window {A} (x y : A) (n : nat) (l : list A) :
  0 < n -> last (x :: drop (length (l ++ [y]) - n) (l ++ [y])) = Some y.
Proof.
  intros Hn. rewrite last_cons, last_drop_lt, last_snoc; [done|].
  rewrite length_app. simpl. lia.
Qed.

Lemma ask_run E externalUserid question w :
  conversations_ok E ->
  exists window,
    ConversationManager.processUserMessage E (conversationManager E)
      externalUserid question w
    = (Ok (window,
           (fun msg => {| ai_role := role msg; ai_content := content msg |}) <$> window),
       advance 1
         (set_conversations
            (kv_put (conversations w)
               (ConversationManager.getConversationKey externalUserid) window
               (now E) (ConversationManager.expirationTtl (conversationManager E)))
            (advance 1 w)))
    /\ last window
       = Some {| role := user; content := question; timestamp := Some (now E) |}.
Proof.
  intros Hconv.
  pose proof (run_append_ok (conversationManager E) externalUserid
                (conversationManager_positive E)
                {| append_env := E; speaker := FromUser; said := question |}
                w Hconv) as Huser.
  cbv zeta in Huser. unfold run_append in Huser. simpl in Huser.
  eexists. split.
  - unfold ConversationManager.processUserMessage. apply try_catch_ok.
    by erewrite bind_ok by exact Huser.
  - apply last_kept_window; first [apply (conversationManager_positive E)|lia].
Qed.

Lemma answer_run E externalUserid assistantMessage w :
  conversations_ok E ->
  exists window,
    ConversationManager.completeAssistantReply E (conversationManager E)
      externalUserid assistantMessage w
    = (Ok window,
       advance 1
         (set_conversations
            (kv_put (conversations w)
               (ConversationManager.getConversationKey externalUserid) window
               (now E) (ConversationManager.expirationTtl (conversationManager E)))
            (advance 1 w)))
    /\ last window
       = Some {| role := assistant; content := assistantMessage;
                 timestamp := Some (now E) |}.
Proof.
  intros Hconv.
  pose proof (run_append_ok (conversationManager E) externalUserid
                (conversationManager_positive E)
                {| append_env := E; speaker := FromAssistant; said := assistantMessage |}
                w Hconv) as Hasst.
  cbv zeta in Hasst. unfold run_append in Hasst. simpl in Hasst.
  eexists. split.
  - unfold ConversationManager.completeAssistantReply. apply try_catch_ok.
    exact Hasst.
  - apply last_kept_window; first [apply (conversationManager_positive E)|lia].
Qed.

Lemma bindings_present E :
  storage_ok E -> negb (CONVERSATIONS E) || negb (MESSAGE_TRACKER E) = false.
Proof.
  intros Hkv. destruct (Hkv 0) as [H1 H2].
  unfold conversations_unreachable, tracker_unreachable in *.
  destruct (CONVERSATIONS E), (MESSAGE_TRACKER E); simpl in *; done.
Qed.

(** X19.  A question the model does not answer stays in the window.  When
    the configuration of the model is rejected, the model call throws or its
    reply has no content, a run for an unprocessed message (storage and
    gateway answering) returns having sent the fixed apology and nothing
    else; the window it leaves ends with the user's question, with no
    assistant entry after it, and the record of the message says
    [success: false] with the error and no reply. *)
Theorem unanswered_question_stays_in_the_window
    (E : Env) (externalUserid question msgid msgKfId : string) (w0 : World) :
  storage_ok E -> gateway_ok E ->
  reported_processed E w0 msgid = false ->
  (forall messages assistantMessage,
     ai_config_valid E = true ->
     ai_reply E messages = Some (Some assistantMessage) -> assistantMessage = "") ->
  exists w1 window error,
    processUserMessage E externalUserid question msgid msgKfId w0 = (Ok tt, w1)
    /\ outbox w1 = outbox w0 ++ [TextMessage externalUserid msgKfId errorMessage]
    /\ conversations w1 !! ConversationManager.getConversationKey externalUserid
       = Some (window, (now E + 86400 * 1000)%Z)
    /\ last window
       = Some {| role := user; content := question; timestamp := Some (now E) |}
    /\ ledger w1 !! MessageTracker.getMessageKey msgid
       = Some ({| msgId := msgid; processedAt := now E;
                  metadata :=
                    MessageMeta externalUserid question None (Some error) false |},
               (now E + MessageTracker.expirationTtl * 1000)%Z).
Proof.
  intros Hkv Hgw Hfresh Hnoreply.
  assert (Hconv : conversations_ok E) by (intros t; apply Hkv).
  assert (Htrk : forall t, tracker_unreachable E t = false) by (intros t; apply Hkv).
  unfold processUserMessage. rewrite (bindings_present E Hkv).
  erewrite bind_ok by apply isMessageProcessed_run. rewrite Hfresh.
  destruct (ask_run E externalUserid question (next_tick w0) Hconv)
    as (window & Hask & Hlast).
  match type of Hask with _ = (_, ?w) => set (wu := w) in * end.
  match goal with
  | |- context [try_catch ?b ?h (next_tick w0)] => set (body := b); set (handler := h)
  end.
  assert (Hthrows : exists error, body (next_tick w0) = (Throw error, wu)).
  { subst body. cbv beta.
    destruct (ai_config_valid E) eqn:Hcfg.
    2: { exists AiConfigError. erewrite bind_ok by exact Hask. by rewrite ?Hcfg. }
    destruct (ai_reply E ((fun msg => {| ai_role := role msg; ai_content := content msg |})
                            <$> window)) as [[assistantMessage|]|] eqn:Hai.
    - rewrite (Hnoreply _ _ eq_refl Hai) in Hai. exists EmptyReply.
      erewrite bind_ok by exact Hask. rewrite ?Hcfg.
      erewrite bind_ok by reflexivity. unfold chatCompletion. cbn [snd].
      rewrite ?Hai. by erewrite bind_ok by reflexivity.
    - exists EmptyReply. erewrite bind_ok by exact Hask. rewrite ?Hcfg.
      erewrite bind_ok by reflexivity. unfold chatCompletion. cbn [snd].
      by rewrite ?Hai.
    - exists AiError. erewrite bind_ok by exact Hask. rewrite ?Hcfg.
      erewrite bind_ok by reflexivity. unfold chatCompletion. cbn [snd].
      by rewrite ?Hai. }
  destruct Hthrows as (error & Hbody).
  eexists _, window, error. split.
  { rewrite (try_catch_throw _ _ _ _ _ Hbody). subst handler. cbv beta.
    erewrite bind_ok by (apply try_catch_ok, sendTextMessage_ok, Hgw).
    erewrite bind_ok by (rewrite markMessageAsProcessed_run, Htrk; reflexivity).
    reflexivity. }
  split; [reflexivity|]. split; [|split; [exact Hlast|]].
  - simpl. unfold kv_put. by rewrite lookup_insert_eq.
  - simpl. unfold kv_put. by rewrite lookup_insert_eq.
Qed.

Lemma unanswered_question_stays_in_the_window_witness :
  let E := quiet_env None in
  exists w1 window error,
    processUserMessage E "user-1" "hi" "m1" "kf-1" empty_world = (Ok tt, w1)
    /\ outbox w1 = outbox empty_world ++ [TextMessage "user-1" "kf-1" errorMessage]
    /\ conversations w1 !! ConversationManager.getConversationKey "user-1"
       = Some (window, (now E + 86400 * 1000)%Z)
    /\ last window
       = Some {| role := user; content := "hi"; timestamp := Some (now E) |}
    /\ ledger w1 !! MessageTracker.getMessageKey "m1"
       = Some ({| msgId := "m1"; processedAt := now E;
                  metadata := MessageMeta "user-1" "hi" None (Some error) false |},
               (now E + MessageTracker.expirationTtl * 1000)%Z).
Proof.
  intros E.
  apply (unanswered_question_stays_in_the_window E "user-1" "hi" "m1" "kf-1" empty_world).
  - by intros t.
  - by intros t.
  - reflexivity.
  - by intros messages assistantMessage _ [=].
Defined.

(** *** The dispatch writes to neither store *)

Lemma sendTextMessage_storage E touser openKfid text w :
  conversations (WeChatClient.sendTextMessage E touser openKfid text w).2 = conversations w
  /\ ledger (WeChatClient.sendTextMessage E touser openKfid text w).2 = ledger w.
Proof.
  unfold WeChatClient.sendTextMessage. by destruct (gateway_fails E (tick w)).
Qed.

Lemma wireNote_storage E externalUserid msgKfId msgid question value w :
  conversations (wireNote E externalUserid msgKfId msgid question value w).2
  = conversations w
  /\ ledger (wireNote E externalUserid msgKfId msgid question value w).2 = ledger w.
Proof.
  unfold wireNote, bind, WeChatClient.uploadMedia, WeChatClient.sendFileMessage.
  destruct (gateway_fails E (tick w)); [done|]. simpl.
  by destruct (gateway_fails E (S (tick w))).
Qed.

Lemma send_chunks_storage E externalUserid msgKfId msgid question value total chunks :
  forall i w,
    conversations
      (send_chunks E externalUserid msgKfId msgid question value total i chunks w).2
    = conversations w
    /\ ledger
         (send_chunks E externalUserid msgKfId msgid question value total i chunks w).2
       = ledger w.
Proof.
  induction chunks as [|chunk rest IH]; intros i w; [done|].
  cbn [send_chunks]. unfold bind.
  destruct ((i + 1 =? messageChunkCount) || (i =? total - 1)).
  - pose proof (wireNote_storage E externalUserid msgKfId msgid question value w)
      as [Hc Hl].
    destruct (wireNote E externalUserid msgKfId msgid question value w) as [[?|?|] w'];
      simpl in *; [|done..].
    destruct (IH (S i) w') as [Hc' Hl']. by rewrite Hc', Hl'.
  - pose proof (sendTextMessage_storage E externalUserid msgKfId chunk w) as [Hc Hl].
    destruct (WeChatClient.sendTextMessage E externalUserid msgKfId chunk w)
      as [[?|?|] w']; simpl in *; [|done..].
    destruct (IH (S i) w') as [Hc' Hl']. by rewrite Hc', Hl'.
Qed.

Lemma dispatchReply_storage E externalUserid msgKfId msgid question assistantMessage w :
  conversations
    (dispatchReply E externalUserid msgKfId msgid question assistantMessage w).2
  = conversations w
  /\ ledger (dispatchReply E externalUserid msgKfId msgid question assistantMessage w).2
     = ledger w.
Proof.
  unfold dispatchReply. destruct (messageChunkSize <? String.length assistantMessage).
  - apply send_chunks_storage.
  - apply sendTextMessage_storage.
Qed.

(** X20.  A reply the gateway refuses is in the window all the same.  The
    assistant's reply is saved to the conversation before it is dispatched:
    when the model answers and the gateway refuses every request, a run for
    an unprocessed message (storage answering, the dispatch having at least
    one request) returns with nothing delivered, not even the apology, while
    the window it leaves ends with the assistant's reply; the record of the
    message says [success: false] with the gateway error. *)
Theorem undelivered_reply_is_in_the_window
    (E : Env) (externalUserid question msgid msgKfId assistantMessage : string)
    (w0 : World) :
  storage_ok E ->
  (forall t, gateway_fails E t = true) ->
  reported_processed E w0 msgid = false ->
  ai_config_valid E = true ->
  (forall messages, ai_reply E messages = Some (Some assistantMessage)) ->
  assistantMessage <> "" ->
  (forall t,
     dispatch_events E externalUserid msgKfId msgid question assistantMessage t <> []) ->
  exists w1 window t,
    processUserMessage E externalUserid question msgid msgKfId w0 = (Ok tt, w1)
    /\ outbox w1 = outbox w0
    /\ conversations w1 !! ConversationManager.getConversationKey externalUserid
       = Some (window, (now E + 86400 * 1000)%Z)
    /\ last window
       = Some {| role := assistant; content := assistantMessage;
                 timestamp := Some (now E) |}
    /\ ledger w1 !! MessageTracker.getMessageKey msgid
       = Some ({| msgId := msgid; processedAt := now E;
                  metadata :=
                    MessageMeta externalUserid question None
                      (Some (GatewayError t)) false |},
               (now E + MessageTracker.expirationTtl * 1000)%Z).
Proof.
  intros Hkv Hgw Hfresh Hcfg Hai Hfull Hevents.
  assert (Hconv : conversations_ok E) by (intros t; apply Hkv).
  assert (Htrk : forall t, tracker_unreachable E t = false) by (intros t; apply Hkv).
  unfold processUserMessage. rewrite (bindings_present E Hkv).
  erewrite bind_ok by apply isMessageProcessed_run. rewrite Hfresh.
  destruct (ask_run E externalUserid question (next_tick w0) Hconv)
    as (asked & Hask & _).
  match type of Hask with _ = (_, ?w) => set (wu := w) in * end.
  destruct (answer_run E externalUserid assistantMessage wu Hconv)
    as (window & Hanswer & Hlast).
  match type of Hanswer with _ = (_, ?w) => set (wa := w) in * end.
  destruct (dispatchReply_abort E externalUserid msgKfId msgid question assistantMessage
              wa 0) as (wd & Hdispatch & Hout & Htick).
  { specialize (Hevents (tick wa)).
    destruct (dispatch_events E externalUserid msgKfId msgid question assistantMessage
                (tick wa)); [done|simpl; lia]. }
  { intros j Hj. lia. }
  { apply Hgw. }
  assert (Hwd : conversations wd = conversations wa /\ ledger wd = ledger wa).
  { pose proof (dispatchReply_storage E externalUserid msgKfId msgid question
                  assistantMessage wa) as Hkeep.
    by rewrite Hdispatch in Hkeep. }
  match goal with
  | |- context [try_catch ?b ?h (next_tick w0)] => set (body := b); set (handler := h)
  end.
  assert (Hbody : body (next_tick w0) = (Throw (GatewayError (tick wa + 0)), wd)).
  { subst body. cbv beta. erewrite bind_ok by exact Hask. rewrite ?Hcfg.
    erewrite bind_ok by reflexivity. unfold chatCompletion. cbn [snd].
    rewrite Hai. erewrite bind_ok by reflexivity. cbv iota beta.
    replace (string_falsy assistantMessage) with false
      by (symmetry; by apply bool_decide_eq_false).
    erewrite bind_ok by exact Hanswer.
    by erewrite bind_throw by exact Hdispatch. }
  eexists _, window, (tick wa + 0). split.
  { rewrite (try_catch_throw _ _ _ _ _ Hbody). subst handler. cbv beta.
    erewrite bind_ok
      by (erewrite try_catch_throw by (apply sendTextMessage_fail, Hgw); reflexivity).
    erewrite bind_ok by (rewrite markMessageAsProcessed_run, Htrk; reflexivity).
    reflexivity. }
  destruct Hwd as [Hconvs Hledger].
  split; [|split; [|split; [exact Hlast|]]].
  - simpl. rewrite Hout. simpl. by rewrite app_nil_r.
  - simpl. rewrite Hconvs. simpl. unfold kv_put. by rewrite lookup_insert_eq.
  - simpl. unfold kv_put. by rewrite lookup_insert_eq.
Qed.

Lemma undelivered_reply_is_in_the_window_witness :
  let E := gateway_down (quiet_env (Some (Some "hello"))) in
  exists w1 window t,
    processUserMessage E "user-1" "hi" "m1" "kf-1" empty_world = (Ok tt, w1)
    /\ outbox w1 = outbox empty_world
    /\ conversations w1 !! ConversationManager.getConversationKey "user-1"
       = Some (window, (now E + 86400 * 1000)%Z)
    /\ last window
       = Some {| role := assistant; content := "hello"; timestamp := Some (now E) |}
    /\ ledger w1 !! MessageTracker.getMessageKey "m1"
       = Some ({| msgId := "m1"; processedAt := now E;
                  metadata :=
                    MessageMeta "user-1" "hi" None (Some (GatewayError t)) false |},
               (now E + MessageTracker.expirationTtl * 1000)%Z).
Proof.
  intros E.
  apply (undelivered_reply_is_in_the_window E "user-1" "hi" "m1" "kf-1" "hello"
           empty_world); done.
Defined.

(** X21.  Looking for the latest message writes nothing: however the sync
    goes (pages served, a failing request, a remote that never ends) and
    whatever the ledger answers, [getLatestTextMessages] leaves the ledger,
    the conversation store and the outbox as they were.  It only reads. *)
Theorem getLatestTextMessages_only_reads
    (E : Env) (fuel : nat) (tok kf : string) (messageTracker : bool) (w : World) :
  let w' := (WeChatClient.getLatestTextMessages E fuel tok kf messageTracker w).2 in
  ledger w' = ledger w /\ conversations w' = conversations w /\ outbox w' = outbox w.
Proof.
  cbv zeta.
  assert (exists n,
            (WeChatClient.getLatestTextMessages E fuel tok kf messageTracker w).2
            = advance n w) as [n ->]; [|done].
  unfold WeChatClient.getLatestTextMessages, WeChatClient.syncAllMessages.
  destruct (sync_loop_only_ticks E tok kf fuel [] None w) as [n Hn].
  unfold try_catch, bind at 1.
  destruct (WeChatClient.sync_loop E fuel tok kf [] None w) as [[batch|e|] w1];
    simpl in Hn; subst w1; [|by exists n..].
  destruct (WeChatClient.sort_by_send_time batch) as [|message rest]; [by exists n|].
  destruct (bool_decide (msgtype message = "text")); [|by exists n].
  destruct (negb (string_falsy (default "" (text_content message)))
            && negb (string_falsy (default "" (msgid message)))); [|by exists n].
  unfold bind. destruct messageTracker.
  - rewrite isMessageProcessed_run. exists (n + 1).
    rewrite next_tick_advance, advance_advance.
    by destruct (reported_processed E (advance n w) (default "" (msgid message))).
  - by exists n.
Qed.

(** ** The verification of the callback URL *)

(** X22.  [verifyURL] and [decryptMsg] authenticate alike, in a different
    order: for a payload [decryptMsg] finds in the Encrypt element,
    [verifyURL] succeeds exactly when [decryptMsg] does and both give the
    same plaintext.  They differ on failure: [verifyURL] knows one error
    code, [-40001], with an empty echo string, while [decryptMsg] reports a
    failing crypto service as [-40007]. *)
Theorem verifyURL_agrees_with_decryptMsg
    (E : Env) (postData sMsgSignature sTimeStamp sNonce encrypt : string) :
  xml_extract E postData = Some encrypt ->
  let v := WXBizMsgCrypt.verifyURL E sMsgSignature sTimeStamp sNonce encrypt in
  let d := WXBizMsgCrypt.decryptMsg E postData sMsgSignature sTimeStamp sNonce in
  (WXBizMsgCrypt.verify_ret v = 0%Z <-> WXBizMsgCrypt.ret_code d = 0%Z)
  /\ (WXBizMsgCrypt.verify_ret v = 0%Z ->
      WXBizMsgCrypt.decryptedXml d = Some (WXBizMsgCrypt.decryptedEchostr v))
  /\ (WXBizMsgCrypt.verify_ret v <> 0%Z ->
      WXBizMsgCrypt.verify_ret v = (-40001)%Z
      /\ WXBizMsgCrypt.decryptedEchostr v = ""
      /\ (WXBizMsgCrypt.ret_code d = (-40001)%Z
          \/ WXBizMsgCrypt.ret_code d = (-40007)%Z)).
Proof.
  intros Hextract. cbv zeta.
  unfold WXBizMsgCrypt.verifyURL, WXBizMsgCrypt.decryptMsg. rewrite Hextract.
  destruct (svc_decrypt E encrypt) as [message|],
    (svc_getSignature E sTimeStamp sNonce encrypt) as [signature|];
    try case_bool_decide; simpl; repeat split; intros; try done; auto.
Qed.

Lemma verifyURL_agrees_with_decryptMsg_witness :
  let E := quiet_env None in
  let v := WXBizMsgCrypt.verifyURL E "signature" "1700000000" "n1" "post-data" in
  let d := WXBizMsgCrypt.decryptMsg E "post-data" "signature" "1700000000" "n1" in
  WXBizMsgCrypt.verify_ret v = 0%Z
  /\ WXBizMsgCrypt.decryptedXml d = Some (WXBizMsgCrypt.decryptedEchostr v).
Proof.
  intros E v d.
  destruct (verifyURL_agrees_with_decryptMsg E "post-data" "signature" "1700000000"
              "n1" "post-data" eq_refl) as (_ & Hsame & _).
  split; [reflexivity|]. apply Hsame. reflexivity.
Defined.

(** X23.  [handleVerifyCallback] answers 200 or 400, and 200 only to an
    authenticated request: all four parameters are present, the worker has
    its crypto parameters, the crypto service decrypts the echo string and
    the signature it computes is the one of the request.  The body is then
    the decrypted echo string, as plain text. *)
Theorem handleVerifyCallback_echoes_authenticated_only
    (E : Env) (msg_signature timestamp nonce echostr : option string) :
  let r := handleVerifyCallback E msg_signature timestamp nonce echostr in
  (status r = 200%Z \/ status r = 400%Z)
  /\ (status r = 200%Z <->
      exists sMsgSignature sTimeStamp sNonce sEchoStr message,
        msg_signature = Some sMsgSignature /\ sMsgSignature <> ""
        /\ timestamp = Some sTimeStamp /\ sTimeStamp <> ""
        /\ nonce = Some sNonce /\ sNonce <> ""
        /\ echostr = Some sEchoStr /\ sEchoStr <> ""
        /\ crypt_params E = true
        /\ svc_decrypt E sEchoStr = Some message
        /\ svc_getSignature E sTimeStamp sNonce sEchoStr = Some sMsgSignature
        /\ payload r = PlainText message).
Proof.
  cbv zeta. unfold handleVerifyCallback.
  assert (Hmissing : forall p : option string,
            param_missing p = false <-> exists s, p = Some s /\ s <> "").
  { intros [s|]; simpl; unfold string_falsy.
    - rewrite bool_decide_eq_false. split; [eauto|]. by intros (? & [= <-] & ?).
    - split; [done|]. by intros (? & ? & _). }
  destruct (param_missing msg_signature) eqn:H1.
  { split; [by right|]. split; [done|].
    intros (s & _ & _ & _ & _ & -> & Hs & _). simpl in H1.
    unfold string_falsy in H1. by apply bool_decide_eq_true in H1. }
  destruct (param_missing timestamp) eqn:H2.
  { split; [by right|]. split; [done|].
    intros (_ & s & _ & _ & _ & _ & _ & -> & Hs & _). simpl in H2.
    unfold string_falsy in H2. by apply bool_decide_eq_true in H2. }
  destruct (param_missing nonce) eqn:H3.
  { split; [by right|]. split; [done|].
    intros (_ & _ & s & _ & _ & _ & _ & _ & _ & -> & Hs & _). simpl in H3.
    unfold string_falsy in H3. by apply bool_decide_eq_true in H3. }
  destruct (param_missing echostr) eqn:H4.
  { split; [by right|]. split; [done|].
    intros (_ & _ & _ & s & _ & _ & _ & _ & _ & _ & _ & -> & Hs & _). simpl in H4.
    unfold string_falsy in H4. by apply bool_decide_eq_true in H4. }
  apply Hmissing in H1 as (sMsgSignature & -> & Hs1).
  apply Hmissing in H2 as (sTimeStamp & -> & Hs2).
  apply Hmissing in H3 as (sNonce & -> & Hs3).
  apply Hmissing in H4 as (sEchoStr & -> & Hs4).
  cbn [orb default from_option id].
  destruct (crypt_params E) eqn:Hparams.
  2: { split; [by right|]. split; [done|].
       by intros (? & ? & ? & ? & ? & _ & _ & _ & _ & _ & _ & _ & _ & ? & _). }
  unfold WXBizMsgCrypt.verifyURL.
  destruct (svc_decrypt E sEchoStr) as [message|] eqn:Hdec.
  2: { simpl. split; [by right|]. split; [done|].
       intros (? & ? & ? & e & ? & _ & _ & _ & _ & _ & _ & [= <-] & _ & _ & ? & _).
       congruence. }
  destruct (svc_getSignature E sTimeStamp sNonce sEchoStr) as [signature|] eqn:Hsig.
  2: { simpl. split; [by right|]. split; [done|].
       intros (? & t & n & e & ? & _ & _ & [= <-] & _ & [= <-] & _ & [= <-] & _ & _
               & _ & ? & _).
       congruence. }
  case_bool_decide as Hcmp; simpl.
  { split; [by right|]. split; [done|].
    intros (s & t & n & e & ? & [= <-] & _ & [= <-] & _ & [= <-] & _ & [= <-] & _ & _
            & _ & ? & _).
    congruence. }
  split; [by left|]. split; [|done]. intros _.
  exists sMsgSignature, sTimeStamp, sNonce, sEchoStr, message.
  repeat split; try done. congruence.
Qed.

(** ** The callback route *)

(** X24.  A callback is acknowledged before it is authenticated.  A POST
    with the three parameters and a non-empty body is answered [success],
    status 200, and its processing is handed to [waitUntil]; when the
    envelope then fails authentication, that processing ends without a
    reply to anyone and without a write to either store.  The caller of a
    forged callback is never told. *)
Theorem forged_callback_is_acknowledged
    (E : Env) (fuel : nat) (sMsgSignature sTimeStamp sNonce postData : string)
    (w : World) :
  sMsgSignature <> "" -> sTimeStamp <> "" -> sNonce <> "" -> postData <> "" ->
  crypt_params E = true ->
  WXBizMsgCrypt.ret_code
    (WXBizMsgCrypt.decryptMsg E postData sMsgSignature sTimeStamp sNonce) <> 0%Z ->
  exists task,
    handleCallback E fuel (Some sMsgSignature) (Some sTimeStamp) (Some sNonce) postData
    = ({| status := 200; payload := PlainText "success" |}, Some task)
    /\ task w = (Ok tt, w).
Proof.
  intros Hs Ht Hn Hp Hparams Hret. unfold handleCallback. simpl.
  unfold string_falsy. rewrite !bool_decide_eq_false_2 by done. simpl.
  eexists. split; [reflexivity|].
  unfold handleCallbackAsync, try_catch, bind at 1. rewrite Hparams.
  unfold ret at 1. cbn [msgSignature param_timestamp nonce].
  destruct (Z.eqb_spec
              (WXBizMsgCrypt.ret_code
                 (WXBizMsgCrypt.decryptMsg E postData sMsgSignature sTimeStamp sNonce))
              0); done.
Qed.

Lemma forged_callback_is_acknowledged_witness :
  exists task,
    handleCallback (quiet_env None) 5 (Some "forged") (Some "1700000000") (Some "n1")
      "post-data"
    = ({| status := 200; payload := PlainText "success" |}, Some task)
    /\ task empty_world = (Ok tt, empty_world).
Proof.
  apply (forged_callback_is_acknowledged (quiet_env None) 5 "forged" "1700000000" "n1"
           "post-data" empty_world); try done.
Defined.

(** ** The message records routes *)

Lemma remove_each_200 E msgIds : forall w os w1,
  remove_each E msgIds w = (os, w1) ->
  first_rejection os = None ->
  (forall msgId, msgId ∈ msgIds ->
     ledger w1 !! MessageTracker.getMessageKey msgId = None)
  /\ (forall msgId, msgId ∉ msgIds ->
        ledger w1 !! MessageTracker.getMessageKey msgId
        = ledger w !! MessageTracker.getMessageKey msgId)
  /\ conversations w1 = conversations w
  /\ outbox w1 = outbox w
  /\ tick w1 = tick w + length msgIds.
Proof.
  induction msgIds as [|msgId rest IH]; intros w os w1 Hrun Hnone.
  - injection Hrun as <- <-. repeat split; [|simpl; lia].
    intros msgId Hin. by apply elem_of_nil in Hin.
  - cbn [remove_each] in Hrun.
    unfold MessageTracker.removeMessageRecord at 1, try_catch, tracker_delete, throw
      in Hrun.
    destruct (tracker_unreachable E (tick w)).
    { destruct (remove_each E rest (next_tick w)) as [os' w2].
      injection Hrun as <- <-. done. }
    destruct (remove_each E rest
                (next_tick (set_ledger
                              (kv_delete (ledger w) (MessageTracker.getMessageKey msgId))
                              w))) as [os' w2] eqn:Hrest.
    injection Hrun as <- <-. simpl in Hnone.
    destruct (IH _ _ _ Hrest Hnone) as (Hgone & Hkept & Hconv & Hout & Htick).
    split; [|split; [|split; [|split]]].
    + intros other [Heq|Hin]%elem_of_cons; [|by apply Hgone].
      destruct (decide (other ∈ rest)) as [Hin|Hnotin]; [by apply Hgone|].
      rewrite (Hkept _ Hnotin), Heq. simpl. unfold kv_delete. apply lookup_delete_eq.
    + intros other Hnotin. apply not_elem_of_cons in Hnotin as [Hne Hnotin].
      rewrite (Hkept _ Hnotin). simpl. unfold kv_delete. apply lookup_delete_ne.
      intros Heq. by apply getMessageKey_inj in Heq.
    + by rewrite Hconv.
    + by rewrite Hout.
    + rewrite Htick. simpl. lia.
Qed.

(** X25.  What [/clear_message_records] answers 200 for is gone.  After a
    200, no listed id has a record, the records of all other ids are as they
    were, and nothing else changed; [/message_status], asked next for a
    listed id, answers [processed: false] with status 200, whether its own
    read of the ledger succeeds or not. *)
Theorem cleared_records_are_reported_unprocessed
    (E : Env) (msgIds : list string) (w w1 : World) (r : Response) :
  handleClearMessageRecords E (Some msgIds) w = (r, w1) ->
  status r = 200%Z ->
  payload r = ClearedJson msgIds
  /\ (forall msgId, msgId ∈ msgIds ->
        ledger w1 !! MessageTracker.getMessageKey msgId = None)
  /\ (forall msgId, msgId ∉ msgIds ->
        ledger w1 !! MessageTracker.getMessageKey msgId
        = ledger w !! MessageTracker.getMessageKey msgId)
  /\ conversations w1 = conversations w
  /\ outbox w1 = outbox w
  /\ (forall msgId, msgId ∈ msgIds -> msgId <> "" ->
        (handleMessageStatus E (Some msgId) w1).1
        = {| status := 200;
             payload := SuccessJson (MessageStatus msgId false None) "消息未处理" 200 |}).
Proof.
  unfold handleClearMessageRecords. intros Hrun Hstatus.
  destruct (MESSAGE_TRACKER E) eqn:Hbound; simpl in Hrun.
  2: { injection Hrun as <- <-. done. }
  destruct (remove_each E msgIds w) as [os w'] eqn:Heach.
  destruct (first_rejection os) as [error|] eqn:Hfirst.
  { injection Hrun as <- <-. done. }
  injection Hrun as <- <-.
  destruct (remove_each_200 E msgIds w os w' Heach Hfirst)
    as (Hgone & Hkept & Hconv & Hout & _).
  repeat split; try done.
  intros msgId Hin Hne. unfold handleMessageStatus. simpl.
  unfold string_falsy. rewrite bool_decide_eq_false_2 by done.
  rewrite Hbound. simpl. rewrite getMessageProcessInfo_run.
  destruct (tracker_unreachable E (tick w')); [done|].
  unfold kv_get. by rewrite (Hgone _ Hin).
Qed.

Lemma cleared_records_are_reported_unprocessed_witness :
  let E := quiet_env None in
  let marked :=
    (MessageTracker.markMessageAsProcessed E "m1" (MessageMeta "u" "q" None None true)
       empty_world).2 in
  let cleared := handleClearMessageRecords E (Some ["m1"; "m2"]) marked in
  ledger marked !! MessageTracker.getMessageKey "m1" <> None
  /\ ledger cleared.2 !! MessageTracker.getMessageKey "m1" = None.
Proof.
  intros E marked cleared. split; [by vm_compute|].
  destruct (cleared_records_are_reported_unprocessed E ["m1"; "m2"] marked cleared.2
              cleared.1) as (_ & Hgone & _); [reflexivity|reflexivity|].
  apply Hgone. apply elem_of_cons. by left.
Defined.

(** ** The access token *)

(** X26.  A client keeps the token it got.  After a call of
    [getAccessToken] that returned a non-empty token, every call made before
    [tokenExpiresAt] returns that token without a request and leaves the
    client as it is; a token that was fetched expires two hours after its
    answer came in.  A call that throws made one request and leaves the
    client as it was, an earlier token included. *)
Theorem cached_token_is_reused
    (first later : AccessToken.TokenCall) (this this1 : AccessToken.Client)
    (token : string) (requests : nat) :
  AccessToken.getAccessToken first this = (Some (Some token), this1, requests) ->
  token <> "" ->
  (requests = 1 ->
   AccessToken.tokenExpiresAt this1
   = (AccessToken.answered_at first + 7200 * 1000)%Z)
  /\ ((AccessToken.called_at later < AccessToken.tokenExpiresAt this1)%Z ->
      AccessToken.getAccessToken later this1 = (Some (Some token), this1, 0))
  /\ (forall failing this2 n,
        AccessToken.getAccessToken failing this1 = (None, this2, n) ->
        this2 = this1 /\ n = 1).
Proof.
  intros Hfirst Htoken.
  assert (Hkept : AccessToken.accessToken this1 = Some token
                  /\ (requests = 1 ->
                      AccessToken.tokenExpiresAt this1
                      = (AccessToken.answered_at first + 7200 * 1000)%Z)).
  { unfold AccessToken.getAccessToken in Hfirst.
    destruct (negb (param_missing (AccessToken.accessToken this))
              && (AccessToken.called_at first <? AccessToken.tokenExpiresAt this)%Z).
    - injection Hfirst as Htok <- <-. done.
    - destruct (AccessToken.answer first) as [[[[| |]|] access_token]|]; try done.
      by injection Hfirst as -> <- <-. }
  destruct Hkept as [Htok Hexp]. split; [exact Hexp|]. split.
  - intros Hbefore. unfold AccessToken.getAccessToken. rewrite Htok. simpl.
    unfold string_falsy. rewrite bool_decide_eq_false_2 by done. simpl.
    by rewrite (proj2 (Z.ltb_lt _ _) Hbefore).
  - intros failing this2 n. unfold AccessToken.getAccessToken.
    destruct (negb (param_missing (AccessToken.accessToken this1))
              && (AccessToken.called_at failing <? AccessToken.tokenExpiresAt this1)%Z);
      [done|].
    destruct (AccessToken.answer failing) as [[[[| |]|] access_token]|]; try done.
    all: by intros [= <- <-].
Qed.

Lemma cached_token_is_reused_witness :
  let first :=
    {| AccessToken.called_at := 1000;
       AccessToken.answer := Some (Some 0%Z, Some "token-1");
       AccessToken.answered_at := 1200 |} in
  let later :=
    {| AccessToken.called_at := 7201199;
       AccessToken.answer := None;
       AccessToken.answered_at := 7201199 |} in
  let this1 := (AccessToken.getAccessToken first AccessToken.new).1.2 in
  AccessToken.getAccessToken later this1 = (Some (Some "token-1"), this1, 0).
Proof.
  intros first later this1.
  destruct (cached_token_is_reused first later AccessToken.new this1 "token-1" 1)
    as (_ & Hreuse & _); [reflexivity|done|].
  apply Hreuse. reflexivity.
Defined.

(** ** What the model is asked *)

(** X27.  The messages handed to the model.  Whenever
    [ConversationManager.processUserMessage] returns, the [aiMessages] are
    the roles and contents of the window it has just stored, in order: the
    preamble first, the user's question last, at most [maxHistoryLength + 1]
    messages in all.  This holds whether the read of the stored window
    succeeded or not; the call returns only when the window was written. *)
Theorem model_sees_preamble_first_question_last
    (E : Env) (this : ConversationManager.t) (userId question : string)
    (w w' : World) (history : list ConversationEntry) (aiMessages : list AiMessage) :
  0 < ConversationManager.maxHistoryLength this ->
  ConversationManager.processUserMessage E this userId question w
  = (Ok (history, aiMessages), w') ->
  aiMessages
  = (fun msg => {| ai_role := role msg; ai_content := content msg |}) <$> history
  /\ head aiMessages
     = Some {| ai_role := system;
               ai_content := ConversationManager.systemPrompt this |}
  /\ last aiMessages = Some {| ai_role := user; ai_content := question |}
  /\ length aiMessages <= ConversationManager.maxHistoryLength this + 1
  /\ conversations w' !! ConversationManager.getConversationKey userId
     = Some (history,
             (now E + ConversationManager.expirationTtl this * 1000)%Z).
Proof.
  intros Hpos Hrun. unfold ConversationManager.processUserMessage in Hrun.
  apply try_catch_inv_ok in Hrun as [Hbody|(e & w'' & _ & Hthrow)]; [|done].
  apply bind_inv_ok in Hbody as (updated & w1 & Hadd & Hret).
  injection Hret as <- <- <-.
  unfold ConversationManager.addUserMessage in Hadd.
  erewrite bind_ok in Hadd by apply getConversationHistory_run.
  rewrite saveConversationHistory_any in Hadd. cbv zeta in Hadd.
  destruct (conversations_unreachable E (tick (next_tick w))); [done|].
  rewrite <- app_comm_cons, (trimmed_window this Hpos) in Hadd.
  injection Hadd as <- <-.
  split; [done|]. split; [done|]. split; [|split].
  - rewrite fmap_last, last_kept_window by done. done.
  - rewrite length_fmap. cbn [length]. rewrite length_drop. lia.
  - simpl. unfold kv_put. by rewrite lookup_insert_eq.
Qed.

Lemma model_sees_preamble_first_question_last_witness :
  let E := quiet_env None in
  let this :=
    ConversationManager.new
      {| ConversationManager.opt_maxHistoryLength := None;
         ConversationManager.opt_expirationTtl := None;
         ConversationManager.opt_systemPrompt := Some "be brief" |} in
  let run := ConversationManager.processUserMessage E this "user-1" "hi" empty_world in
  exists history aiMessages w',
    run = (Ok (history, aiMessages), w')
    /\ head aiMessages = Some {| ai_role := system; ai_content := "be brief" |}
    /\ last aiMessages = Some {| ai_role := user; ai_content := "hi" |}.
Proof.
  intros E this run.
  destruct run as [[[history aiMessages]|e|] w'] eqn:Hrun; try by vm_compute in Hrun.
  exists history, aiMessages, w'. split; [done|].
  destruct (model_sees_preamble_first_question_last E this "user-1" "hi" empty_world w'
              history aiMessages) as (_ & Hhead & Hlast & _); [vm_compute; lia|done|].
  done.
Defined.

(** ** The envelope *)

Lemma prefix_drop_app p s : XMLParse.prefix_drop p (p +:+ s) = Some s.
Proof.
  induction p as [|a p IH]; [done|].
  change (String a p +:+ s) with (String a (p +:+ s)). cbn [XMLParse.prefix_drop].
  by rewrite Ascii.eqb_refl.
Qed.

Lemma closes_payload_char c s :
  payload_char c = true -> XMLParse.closes (String c s) = false.
Proof.
  unfold payload_char. intros Hc.
  apply andb_true_iff in Hc as [Hc _]. apply andb_true_iff in Hc as [Hc Hbracket].
  apply andb_true_iff in Hc as [_ Hangle].
  apply negb_true_iff in Hbracket, Hangle.
  unfold XMLParse.closes. cbn [XMLParse.prefix_drop].
  rewrite (Ascii.eqb_sym "]" c), Hbracket, (Ascii.eqb_sym "<" c), Hangle.
  by rewrite bool_decide_eq_false_2 by (by intros H).
Qed.

Lemma lazy_group_payload (s rest : string) :
  payload_text s = true -> XMLParse.closes rest = true ->
  XMLParse.lazy_group (s +:+ rest) = Some s.
Proof.
  intros Hs Hrest. induction s as [|c s IH].
  - change (EmptyString +:+ rest) with rest.
    destruct rest; cbn [XMLParse.lazy_group]; by rewrite Hrest.
  - change (String c s +:+ rest) with (String c (s +:+ rest)).
    cbn [payload_text] in Hs. apply andb_true_iff in Hs as [Hc Hs].
    cbn [XMLParse.lazy_group]. rewrite (closes_payload_char _ _ Hc).
    unfold payload_char in Hc. apply andb_true_iff in Hc as [_ Hline].
    apply negb_true_iff in Hline. rewrite Hline, (IH Hs). done.
Qed.

Lemma search_here s g :
  XMLParse.match_here s = Some g -> XMLParse.search s = Some g.
Proof. intros Hhere. destruct s; cbn [XMLParse.search]; by rewrite Hhere. Qed.

(** X28.  What [generate] wraps, [extract] finds.  For a payload of ASCII
    characters other than [<], [\]] and the line terminators (a base64
    text), [extract] applied to the envelope [generate] builds returns
    [ret: 0] and that payload, whatever the signature, the timestamp and the
    nonce of the envelope are. *)
Theorem extract_of_generate
    (encrypt signature timestamp nonce : string) :
  payload_text encrypt = true ->
  XMLParse.extract (XMLParse.generate encrypt signature timestamp nonce)
  = {| XMLParse.extract_ret := 0; XMLParse.encrypt := Some encrypt |}.
Proof.
  intros Hpayload. unfold XMLParse.extract, XMLParse.generate.
  match goal with
  | |- context [?e +:+ "]]></Encrypt>" +:+ ?t] =>
      set (tail := t);
      change (XMLParse.search
                ("<xml>" +:+ XMLParse.LF +:+ "<Encrypt><![CDATA[" +:+ e
                 +:+ "]]></Encrypt>" +:+ tail))
        with (XMLParse.search
                ("<Encrypt>" +:+ "<![CDATA[" +:+ e +:+ "]]></Encrypt>" +:+ tail))
  end.
  erewrite search_here; [reflexivity|].
  unfold XMLParse.match_here. rewrite !prefix_drop_app.
  by rewrite lazy_group_payload.
Qed.

Lemma extract_of_generate_witness :
  XMLParse.extract
    (XMLParse.generate "QUJDREVGRw==" "signature" "1700000000" "n1")
  = {| XMLParse.extract_ret := 0; XMLParse.encrypt := Some "QUJDREVGRw==" |}.
Proof. apply extract_of_generate. reflexivity. Defined.
